(** * user-info: a shallow embedding of [assets/js/diagnostico.js]

    The file models the browser diagnostics script: the theme toggle, the
    user-agent sniffing of [getBrowserInfo] and [getSystemInfo], the two-stage
    network lookup of [getNetworkInfo], and the two text utilities
    [parseMarkdown] and [escapeHtml].

    JavaScript strings are sequences of UTF-16 code units; they are modelled as
    lists of [N].  The regular expressions of the script are written in a small
    abstract syntax and run by a backtracking matcher that follows the
    ECMAScript rules (leftmost match, ordered alternatives, greedy and lazy
    quantifiers, the [g], [i], [m] and [s] flags). *)

From Stdlib Require Import NArith List Bool Lia String Ascii DecimalString.
From stdpp Require Import gmap strings.
Import ListNotations.

Local Open Scope N_scope.
Local Open Scope list_scope.
Set Warnings "-register-all".

(** ** Strings *)

Abbreviation jschar := N (only parsing).
Abbreviation jsstring := (list N) (only parsing).

(** A program literal, read as code units (all literals of the script that go
    through [lit] are ASCII). *)
Definition lit (s : string) : jsstring :=
  map N_of_ascii (list_ascii_of_string s).

Definition nl : jschar := 10.

(** ECMAScript LineTerminator: LF, CR, LS, PS. *)
Definition is_line_terminator (c : jschar) : bool :=
  (c =? 10) || (c =? 13) || (c =? 0x2028) || (c =? 0x2029).

(** ECMAScript WhiteSpace and LineTerminator, the set used by [\s] and by
    [String.prototype.trim]. *)
Definition is_space (c : jschar) : bool :=
  (c =? 9) || (c =? 10) || (c =? 11) || (c =? 12) || (c =? 13) || (c =? 32)
  || (c =? 0xA0) || (c =? 0x1680) || ((0x2000 <=? c) && (c <=? 0x200A))
  || (c =? 0x2028) || (c =? 0x2029) || (c =? 0x202F) || (c =? 0x205F)
  || (c =? 0x3000) || (c =? 0xFEFF).

Definition is_digit (c : jschar) : bool := (48 <=? c) && (c <=? 57).

Definition str_eqb (a b : jsstring) : bool :=
  if decide (a = b) then true else false.

(** [strip_prefix p s] is [Some t] when [s = p ++ t]. *)
Fixpoint strip_prefix (p s : jsstring) : option jsstring :=
  match p with
  | [] => Some s
  | c :: p' =>
      match s with
      | [] => None
      | d :: s' => if c =? d then strip_prefix p' s' else None
      end
  end.

(** [String.prototype.startsWith]. *)
Definition startsWith (s p : jsstring) : bool :=
  match strip_prefix p s with Some _ => true | None => false end.

(** [String.prototype.includes]: some suffix of [s] starts with [p]. *)
Fixpoint includes (s p : jsstring) : bool :=
  startsWith s p ||
  match s with
  | [] => false
  | _ :: s' => includes s' p
  end.

(** [String.prototype.split] with a non-empty separator: the text is cut at
    every occurrence of the separator, found left to right without overlap.
    The fuel is the number of cuts and characters still to be seen. *)
Fixpoint split_loop (fuel : nat) (sep : jsstring) (cur : jsstring)
    (s : jsstring) : list jsstring :=
  match fuel with
  | O => [rev cur ++ s]
  | S fuel' =>
      match strip_prefix sep s with
      | Some s' => rev cur :: split_loop fuel' sep [] s'
      | None =>
          match s with
          | [] => [rev cur]
          | c :: s' => split_loop fuel' sep (c :: cur) s'
          end
      end
  end.

Definition split (s sep : jsstring) : list jsstring :=
  split_loop (S (length s)) sep [] s.

(** [Array.prototype.join]. *)
Fixpoint join (l : list jsstring) (sep : jsstring) : jsstring :=
  match l with
  | [] => []
  | [x] => x
  | x :: l' => x ++ sep ++ join l' sep
  end.

Fixpoint trimStart (s : jsstring) : jsstring :=
  match s with
  | c :: s' => if is_space c then trimStart s' else s
  | [] => []
  end.

(** [String.prototype.trim]. *)
Definition trim (s : jsstring) : jsstring :=
  rev (trimStart (rev (trimStart s))).

(** ** Regular expressions *)

Record flags := Flags {
  global : bool;      (* g *)
  ignoreCase : bool;  (* i *)
  multiline : bool;   (* m *)
  dotAll : bool       (* s *)
}.

(** A one-character pattern: a literal, [.], or a class given by its
    membership test. *)
Inductive atom :=
| AChr (c : jschar)
| ADot
| ASet (p : jschar -> bool).

(** The patterns of the script.  Its quantifiers ([*], [+], [*?]) are only
    ever applied to one-character patterns, so [Many] takes an atom; [a+] is
    [Seq (One a) (Many true a)]. *)
Inductive regex :=
| Eps
| One (a : atom)
| Many (greedy : bool) (a : atom)
| Bol
| Eol
| Seq (r1 r2 : regex)
| Alt (r1 r2 : regex)
| Grp (n : nat) (r : regex).

Definition Plus (a : atom) : regex := Seq (One a) (Many true a).

(** A literal string as a pattern. *)
Fixpoint Str (s : jsstring) : regex :=
  match s with
  | [] => Eps
  | c :: s' => Seq (One (AChr c)) (Str s')
  end.

(** Canonicalisation for the [i] flag.  For a pattern character below 128 the
    ECMAScript rule (upper-case the code unit, but never map a character at or
    above 128 to one below) compares exactly as ASCII case folding does; every
    pattern of the script is ASCII. *)
Definition canonicalize (c : jschar) : jschar :=
  if (97 <=? c) && (c <=? 122) then c - 32 else c.

Definition atom_ok (f : flags) (a : atom) (c : jschar) : bool :=
  match a with
  | AChr x => if ignoreCase f then canonicalize x =? canonicalize c else x =? c
  | ADot => dotAll f || negb (is_line_terminator c)
  | ASet p => p c
  end.

(** The matcher state: the character just before the current position (for
    [^]), the text from the current position on, and the captures so far. *)
Record mstate := MState {
  m_prev : option jschar;
  m_rest : jsstring;
  m_caps : list (nat * jsstring)
}.

Definition at_bol (f : flags) (st : mstate) : bool :=
  match m_prev st with
  | None => true
  | Some c => multiline f && is_line_terminator c
  end.

Definition at_eol (f : flags) (st : mstate) : bool :=
  match m_rest st with
  | [] => true
  | c :: _ => multiline f && is_line_terminator c
  end.

(** [many ok greedy caps prev s k]: zero or more characters satisfying [ok],
    then the continuation; a greedy quantifier tries one more character first,
    a lazy one tries the continuation first. *)
Fixpoint many (ok : jschar -> bool) (greedy : bool) (caps : list (nat * jsstring))
    (prev : option jschar) (s : jsstring) (k : mstate -> option mstate)
    : option mstate :=
  match s with
  | [] => k (MState prev [] caps)
  | c :: s' =>
      if greedy then
        match (if ok c then many ok greedy caps (Some c) s' k else None) with
        | Some r => Some r
        | None => k (MState prev s caps)
        end
      else
        match k (MState prev s caps) with
        | Some r => Some r
        | None => if ok c then many ok greedy caps (Some c) s' k else None
        end
  end.

(** Backtracking matcher in continuation-passing style: [rx f r st k] matches
    [r] at the position [st] and hands every candidate end position to [k], in
    ECMAScript's order of preference, until one is accepted. *)
Fixpoint rx (f : flags) (r : regex) (st : mstate)
    (k : mstate -> option mstate) : option mstate :=
  match r with
  | Eps => k st
  | One a =>
      match m_rest st with
      | c :: s' =>
          if atom_ok f a c then k (MState (Some c) s' (m_caps st)) else None
      | [] => None
      end
  | Many greedy a => many (atom_ok f a) greedy (m_caps st) (m_prev st) (m_rest st) k
  | Bol => if at_bol f st then k st else None
  | Eol => if at_eol f st then k st else None
  | Seq r1 r2 => rx f r1 st (fun st' => rx f r2 st' k)
  | Alt r1 r2 =>
      match rx f r1 st k with
      | Some r => Some r
      | None => rx f r2 st k
      end
  | Grp n r' =>
      rx f r' st (fun st' =>
        let text := firstn (length (m_rest st) - length (m_rest st')) (m_rest st) in
        k (MState (m_prev st') (m_rest st') ((n, text) :: m_caps st')))
  end.

(** A successful match: the text before it, the matched text, the captures,
    and the text after it (with the character preceding that text). *)
Record rmatch := RMatch {
  r_before : jsstring;
  r_text : jsstring;
  r_caps : list (nat * jsstring);
  r_prev : option jschar;
  r_after : jsstring
}.

(** Leftmost match at or after the current position. *)
Fixpoint search (f : flags) (r : regex) (prev : option jschar) (s : jsstring)
    : option rmatch :=
  match rx f r (MState prev s []) Some with
  | Some st =>
      Some (RMatch [] (firstn (length s - length (m_rest st)) s)
              (m_caps st) (m_prev st) (m_rest st))
  | None =>
      match s with
      | [] => None
      | c :: s' =>
          match search f r (Some c) s' with
          | Some m =>
              Some (RMatch (c :: r_before m) (r_text m) (r_caps m)
                      (r_prev m) (r_after m))
          | None => None
          end
      end
  end.

(** [RegExp.prototype.test] and the capture of [RegExp.prototype.exec], for a
    pattern without the [g] flag. *)
Definition test (f : flags) (r : regex) (s : jsstring) : bool :=
  match search f r None s with Some _ => true | None => false end.

Fixpoint group (n : nat) (caps : list (nat * jsstring)) : option jsstring :=
  match caps with
  | [] => None
  | (m, t) :: caps' => if Nat.eqb n m then Some t else group n caps'
  end.

Definition exec_group (f : flags) (r : regex) (n : nat) (s : jsstring)
    : option jsstring :=
  match search f r None s with
  | Some m => group n (r_caps m)
  | None => None
  end.

(** The second argument of [String.prototype.replace]: a template whose
    [$n] stands for a capture, or a function of the matched text. *)
Inductive piece :=
| Txt (s : jsstring)
| Ref (n : nat).

Inductive replacement :=
| Template (ps : list piece)
| Callback (fn : jsstring -> jsstring).

Definition expand_piece (caps : list (nat * jsstring)) (p : piece) : jsstring :=
  match p with
  | Txt s => s
  | Ref n => match group n caps with Some t => t | None => [] end
  end.

Definition expand (rp : replacement) (m : rmatch) : jsstring :=
  match rp with
  | Template ps => flat_map (expand_piece (r_caps m)) ps
  | Callback fn => fn (r_text m)
  end.

(** The loop of a global replace: find the next match from the end of the
    previous one; after an empty match step over one character.  Each round
    moves forward by at least one character, so [S (length s)] rounds are
    enough. *)
Fixpoint replace_loop (fuel : nat) (f : flags) (r : regex) (rp : replacement)
    (prev : option jschar) (s : jsstring) : jsstring :=
  match fuel with
  | O => s
  | S fuel' =>
      match search f r prev s with
      | None => s
      | Some m =>
          r_before m ++ expand rp m ++
          match r_text m with
          | [] =>
              match r_after m with
              | [] => []
              | c :: s' => c :: replace_loop fuel' f r rp (Some c) s'
              end
          | _ :: _ => replace_loop fuel' f r rp (r_prev m) (r_after m)
          end
      end
  end.

(** [String.prototype.replace] with a regular expression. *)
Definition replace (f : flags) (r : regex) (rp : replacement) (s : jsstring)
    : jsstring :=
  if global f then replace_loop (S (length s)) f r rp None s
  else
    match search f r None s with
    | None => s
    | Some m => r_before m ++ expand rp m ++ r_after m
    end.

(** ** escapeHtml *)

Definition F_g : flags := Flags true false false false.
Definition F_gim : flags := Flags true true true false.
Definition F_s : flags := Flags false false false true.
Definition F_i : flags := Flags false true false false.
Definition F_plain : flags := Flags false false false false.

(** The object literal [map] of [escapeHtml]. *)
Definition entity_map : gmap (list N) (list N) :=
  <[lit "'" := lit "&#039;"]>
  (<[[34] := lit "&quot;"]>
  (<[lit ">" := lit "&gt;"]>
  (<[lit "<" := lit "&lt;"]>
  (<[lit "&" := lit "&amp;"]> ∅)))).

(** The class of [escapeHtml]: ampersand, less-than, greater-than, double
    quote (34) and single quote (39). *)
Definition is_reserved (c : jschar) : bool :=
  (c =? 38) || (c =? 60) || (c =? 62) || (c =? 34) || (c =? 39).

(** [map[m]] used as a replacement: a missing key reads [undefined], which
    [replace] turns into the text [undefined]. *)
Definition entity_of (m : jsstring) : jsstring :=
  match entity_map !! m with
  | Some e => e
  | None => lit "undefined"
  end.

(** [text.replace( /[...]/g, ( m ) => map[m] )] over the class above. *)
Definition escapeHtml (text : jsstring) : jsstring :=
  replace F_g (One (ASet is_reserved)) (Callback entity_of) text.

(** ** parseMarkdown *)

Definition tmpl (open close : string) : replacement :=
  Template [Txt (lit open); Ref 1; Txt (lit close)].

(** [/^### (.*$)/gim], [/^## (.*$)/gim], [/^# (.*$)/gim], [/^\* (.*$)/gim],
    [/^- (.*$)/gim]: a line that starts with the marker. *)
Definition re_line (marker : string) : regex :=
  Seq Bol (Seq (Str (lit marker)) (Grp 1 (Seq (Many true ADot) Eol))).

(** [/\*\*(.*?)\*\*/g] *)
Definition re_bold : regex :=
  Seq (Str (lit "**")) (Seq (Grp 1 (Many false ADot)) (Str (lit "**"))).

(** [[\s\S]]: a space or a non-space. *)
Definition any_char (c : jschar) : bool := is_space c || negb (is_space c).

(** [/```[\s\S]*?```/g] *)
Definition re_fence : regex :=
  Seq (Str (lit "```")) (Seq (Many false (ASet any_char)) (Str (lit "```"))).

Definition not_backtick (c : jschar) : bool := negb (c =? 96).

(** [/`([^`]+)`/g] *)
Definition re_code : regex :=
  Seq (One (AChr 96)) (Seq (Grp 1 (Plus (ASet not_backtick))) (One (AChr 96))).

(** [/(<li>.*<\/li>)/s] *)
Definition re_items : regex :=
  Grp 1 (Seq (Str (lit "<li>")) (Seq (Many true ADot) (Str (lit "</li>")))).

(** The rules of [parseMarkdown], one definition per statement. *)
Definition headers (html : jsstring) : jsstring :=
  let html := replace F_gim (re_line "### ") (tmpl "<h3>" "</h3>") html in
  let html := replace F_gim (re_line "## ") (tmpl "<h2>" "</h2>") html in
  replace F_gim (re_line "# ") (tmpl "<h1>" "</h1>") html.

Definition bold (html : jsstring) : jsstring :=
  replace F_g re_bold (tmpl "<strong>" "</strong>") html.

Definition fence_callback (m : jsstring) : jsstring :=
  let code := trim (replace F_g (Str (lit "```")) (Template []) m) in
  lit "<pre><code>" ++ escapeHtml code ++ lit "</code></pre>".

Definition codeBlocks (html : jsstring) : jsstring :=
  replace F_g re_fence (Callback fence_callback) html.

Definition inlineCode (html : jsstring) : jsstring :=
  replace F_g re_code (tmpl "<code>" "</code>") html.

Definition listItems (html : jsstring) : jsstring :=
  let html := replace F_gim (re_line "* ") (tmpl "<li>" "</li>") html in
  replace F_gim (re_line "- ") (tmpl "<li>" "</li>") html.

Definition listContainer (html : jsstring) : jsstring :=
  replace F_s re_items (tmpl "<ul>" "</ul>") html.

Definition wrapParagraph (paragraph : jsstring) : jsstring :=
  if negb (startsWith paragraph (lit "<")) then
    lit "<p>" ++ replace F_g (One (AChr nl)) (Template [Txt (lit "<br>")]) paragraph
      ++ lit "</p>"
  else paragraph.

Definition paragraphs (html : jsstring) : jsstring :=
  join (map wrapParagraph (split html [nl; nl])) [nl].

Definition parseMarkdown (markdown : jsstring) : jsstring :=
  let html := markdown in
  let html := headers html in
  let html := bold html in
  let html := codeBlocks html in
  let html := inlineCode html in
  let html := listItems html in
  let html := listContainer html in
  paragraphs html.

(** ** Exceptions and mutable state

    A statement either completes or throws; what it wrote to the state before
    throwing stays written.  [M S A] is a computation over a state [S]. *)

Inductive error :=
| TypeError      (* a property read on null or undefined *)
| NetworkError   (* a rejected fetch *)
| SyntaxError.   (* a body that is not JSON *)

Inductive outcome (A : Type) :=
| Ok (a : A)
| Throw (e : error).
Arguments Ok {A} a.
Arguments Throw {A} e.

Definition M (S A : Type) : Type := S -> outcome A * S.

Definition ret {S A} (a : A) : M S A := fun s => (Ok a, s).

Definition throw {S A} (e : error) : M S A := fun s => (Throw e, s).

Definition bind {S A B} (c : M S A) (k : A -> M S B) : M S B :=
  fun s =>
    match c s with
    | (Ok a, s') => k a s'
    | (Throw e, s') => (Throw e, s')
    end.

(** [try { body } catch ( e ) { handler }] *)
Definition try_catch {S A} (body : M S A) (handler : error -> M S A) : M S A :=
  fun s =>
    match body s with
    | (Ok a, s') => (Ok a, s')
    | (Throw e, s') => handler e s'
    end.

Definition lift {S A} (o : outcome A) : M S A := fun s => (o, s).

Definition gets {S A} (g : S -> A) : M S A := fun s => (Ok (g s), s).

Definition modify {S} (g : S -> S) : M S unit := fun s => (Ok tt, g s).

Notation "x <- c1 ;; c2" := (bind c1 (fun x => c2))
  (at level 100, c1 at next level, right associativity).
Notation "c1 ;; c2" := (bind c1 (fun _ => c2))
  (at level 100, right associativity).

(** ** The theme *)

(** The part of the page the theme code touches: the [data-theme] attribute of
    the root element (absent, or a text), the storage area, and the text of the
    element of class [theme-icon] when the page has one. *)
Record page := Page {
  dataTheme : option (list N);
  localStorage : gmap string (list N);
  themeIcon : option (list N)
}.

Definition sun : jsstring := [0x2600; 0xFE0F].
Definition moon : jsstring := [0xD83C; 0xDF19].

(** [updateThemeIcon]: [querySelector] gives null when no element has the
    class, and writing [textContent] on null throws. *)
Definition updateThemeIcon (theme : jsstring) : M page unit :=
  icon <- gets themeIcon ;;
  match icon with
  | None => throw TypeError
  | Some _ =>
      modify (fun p =>
        Page (dataTheme p) (localStorage p)
          (Some (if str_eqb theme (lit "dark") then sun else moon)))
  end.

Definition setAttribute (v : jsstring) : M page unit :=
  modify (fun p => Page (Some v) (localStorage p) (themeIcon p)).

Definition setItem (k : string) (v : jsstring) : M page unit :=
  modify (fun p => Page (dataTheme p) (<[k := v]> (localStorage p)) (themeIcon p)).

(** [getItem] gives null for a missing key; [x || 'light'] also replaces the
    empty text. *)
Definition initTheme : M page unit :=
  stored <- gets (fun p => localStorage p !! "theme"%string) ;;
  let savedTheme :=
    match stored with
    | Some (c :: s) => c :: s
    | _ => lit "light"
    end in
  setAttribute savedTheme ;;
  updateThemeIcon savedTheme.

Definition toggleTheme : M page unit :=
  currentTheme <- gets dataTheme ;;
  let newTheme :=
    match currentTheme with
    | Some t => if str_eqb t (lit "dark") then lit "light" else lit "dark"
    | None => lit "dark"
    end in
  setAttribute newTheme ;;
  setItem "theme" newTheme ;;
  updateThemeIcon newTheme.

(** The page after a computation, whether it completed or threw. *)
Definition after {S A} (c : M S A) (s : S) : S := snd (c s).

(** ** Values and the browser environment *)

Section Script.

(** JavaScript numbers are IEEE doubles.  The script tests them for truth,
    compares one of them with 8 and prints them; these three operations are
    all it needs, and they are taken as given. *)
Variable number : Type.
Variable number_truthy : number -> bool.
Variable number_ge8 : number -> bool.
Variable number_toString : number -> list N.

Inductive jsval :=
| JUndefined
| JNull
| JBool (b : bool)
| JNum (x : number)
| JStr (s : list N)
| JArr (l : list jsval)
| JObj (props : list (list N * jsval)).

Definition unknown : jsstring := lit "Unknown".

(** ToBoolean. *)
Definition truthy (v : jsval) : bool :=
  match v with
  | JUndefined | JNull => false
  | JBool b => b
  | JNum x => number_truthy x
  | JStr s => match s with [] => false | _ :: _ => true end
  | JArr _ | JObj _ => true
  end.

(** [a || b] *)
Definition or_else (a b : jsval) : jsval := if truthy a then a else b.

(** [o || d] for [o] a text, null or undefined. *)
Definition str_or (o : option jsstring) (d : jsstring) : jsstring :=
  match o with
  | Some (c :: s) => c :: s
  | _ => d
  end.

Fixpoint own_property (props : list (list N * jsval)) (key : jsstring) : jsval :=
  match props with
  | [] => JUndefined
  | (k, v) :: props' => if str_eqb k key then v else own_property props' key
  end.

(** [v.key] for a key that no built-in prototype defines (the script reads
    [ip], [city], [region], [country], [organization_name] and [timezone]):
    reading from null or undefined throws, a primitive or an array has no such
    property, an object gives its own property. *)
Definition get_prop {S} (v : jsval) (key : jsstring) : M S jsval :=
  match v with
  | JUndefined | JNull => throw TypeError
  | JObj props => ret (own_property props key)
  | _ => ret JUndefined
  end.

Record NetworkInformation := {
  c_type : option (list N);
  c_effectiveType : option (list N);
  c_downlink : option number;
  c_rtt : option number
}.

(** The properties of [navigator] that the script reads; [None] stands for
    undefined (or null, for [doNotTrack]). *)
Record navigator := {
  userAgent : list N;
  language : list N;
  languages : option (list (list N));
  cookieEnabled : bool;
  onLine : bool;
  doNotTrack : option (list N);
  userAgentData_platform : option (list N);
  deviceMemory : option number;
  hardwareConcurrency : option number;
  connection : option NetworkInformation
}.

(** *** getBrowserInfo *)

Record BrowserInfo := {
  bi_userAgent : list N;
  bi_language : list N;
  bi_languages : list N;
  bi_cookiesEnabled : bool;
  bi_onLine : bool;
  bi_doNotTrack : list N;
  bi_name : list N;
  bi_version : list N
}.

(** [\d] *)
Definition digit : atom := ASet is_digit.

(** [/Chrome\/(\d+)/], [/Version\/(\d+)/], [/Firefox\/(\d+)/], [/Edg\/(\d+)/] *)
Definition re_version (product : string) : regex :=
  Seq (Str (lit product)) (Seq (One (AChr 47)) (Grp 1 (Plus digit))).

(** [/(?:OPR|Opera)[\/\s](\d+)/] *)
Definition re_opera : regex :=
  Seq (Alt (Str (lit "OPR")) (Str (lit "Opera")))
    (Seq (One (ASet (fun c => (c =? 47) || is_space c))) (Grp 1 (Plus digit))).

(** [re.exec( ua )?.[1] || 'Unknown'] *)
Definition version_of (r : regex) (ua : jsstring) : jsstring :=
  str_or (exec_group F_plain r 1 ua) unknown.

(** The browser name and version of [getBrowserInfo]. *)
Definition detect_browser (ua : jsstring) : jsstring * jsstring :=
  if includes ua (lit "Chrome") && negb (includes ua (lit "Edg"))
     && negb (includes ua (lit "OPR")) then
    (lit "Chrome", version_of (re_version "Chrome") ua)
  else if includes ua (lit "Safari") && negb (includes ua (lit "Chrome")) then
    (lit "Safari", version_of (re_version "Version") ua)
  else if includes ua (lit "Firefox") then
    (lit "Firefox", version_of (re_version "Firefox") ua)
  else if includes ua (lit "Edg") then
    (lit "Edge", version_of (re_version "Edg") ua)
  else if includes ua (lit "OPR") || includes ua (lit "Opera") then
    (lit "Opera", version_of re_opera ua)
  else
    (unknown, unknown).

Definition getBrowserInfo (nav : navigator) : BrowserInfo :=
  let ua := userAgent nav in
  {| bi_userAgent := ua;
     bi_language := language nav;
     bi_languages :=
       match languages nav with
       | Some l => join l (lit ", ")
       | None => language nav
       end;
     bi_cookiesEnabled := cookieEnabled nav;
     bi_onLine := onLine nav;
     bi_doNotTrack := str_or (doNotTrack nav) (lit "Not specified");
     bi_name := fst (detect_browser ua);
     bi_version := snd (detect_browser ua) |}.

(** *** getSystemInfo *)

Record SystemInfo := {
  si_platform : list N;
  si_os : list N;
  si_mobile : bool;
  si_cores : jsval;
  si_memory : list N
}.

(** The operating system and the platform guessed from the user agent. *)
Definition detect_os (ua : jsstring) : jsstring * jsstring :=
  if includes ua (lit "Win") then
    (if includes ua (lit "Windows NT 10.0") || includes ua (lit "Windows NT 11.0")
     then lit "Windows 10/11" else lit "Windows",
     lit "Windows")
  else if includes ua (lit "Mac") then (lit "macOS", lit "macOS")
  else if includes ua (lit "Linux") then (lit "Linux", lit "Linux")
  else if includes ua (lit "Android") then (lit "Android", lit "Android")
  else if includes ua (lit "iOS") || includes ua (lit "iPhone")
          || includes ua (lit "iPad") || includes ua (lit "iPod") then
    (lit "iOS", lit "iOS")
  else (unknown, unknown).

(** [/Mobile|Android|iOS|iPhone|iPad|iPod|BlackBerry|IEMobile|Opera Mini/i] *)
Definition re_mobile : regex :=
  Alt (Str (lit "Mobile")) (Alt (Str (lit "Android")) (Alt (Str (lit "iOS"))
  (Alt (Str (lit "iPhone")) (Alt (Str (lit "iPad")) (Alt (Str (lit "iPod"))
  (Alt (Str (lit "BlackBerry")) (Alt (Str (lit "IEMobile"))
  (Str (lit "Opera Mini"))))))))).

(** The note appended at 8 GB and above; its two accented letters are the code
    unit 225. *)
Definition memory_note : jsstring :=
  lit " (aprox. Se mostrar" ++ [225] ++ lit " un m" ++ [225] ++ lit "ximo de 8 GB)".

Definition getSystemInfo (nav : navigator) : SystemInfo :=
  let ua := userAgent nav in
  let os := fst (detect_os ua) in
  let platform := snd (detect_os ua) in
  let platform :=
    match userAgentData_platform nav with
    | Some (c :: s) => c :: s
    | _ => platform
    end in
  let memoryText :=
    match deviceMemory nav with
    | Some m =>
        if number_truthy m then
          number_toString m ++ lit " GB"
            ++ (if number_ge8 m then memory_note else [])
        else unknown
    | None => unknown
    end in
  {| si_platform := platform;
     si_os := os;
     si_mobile := test F_i re_mobile ua;
     si_cores :=
       match hardwareConcurrency nav with
       | Some n => or_else (JNum n) (JStr unknown)
       | None => JStr unknown
       end;
     si_memory := memoryText |}.

(** *** getNetworkInfo *)

(** A fetched response: reading its body as JSON gives a value or rejects. *)
Record response := { json : outcome jsval }.

(** The state of one call: the object [info] under construction and what was
    written to the console. *)
Record netstate := NetState {
  info : gmap string jsval;
  console : list (list N * error)
}.

(** [info.key = v] *)
Definition assign (key : string) (v : jsval) : M netstate unit :=
  modify (fun s => NetState (<[key := v]> (info s)) (console s)).

Definition console_error (msg : jsstring) (e : error) : M netstate unit :=
  modify (fun s => NetState (info s) (console s ++ [(msg, e)])).

Definition geojs : jsstring := lit "https://get.geojs.io/v1/ip/geo.json".
Definition ipify : jsstring := lit "https://api.ipify.org?format=json".

(** [x ? x + suffix : 'Unknown'] for a number or undefined. *)
Definition with_unit (x : option number) (suffix : jsstring) : jsval :=
  match x with
  | Some n => if number_truthy n then JStr (number_toString n ++ suffix)
              else JStr unknown
  | None => JStr unknown
  end.

Definition getNetworkInfo (nav : navigator) (fetch : list N -> outcome response)
    : M netstate (gmap string jsval) :=
  modify (fun s =>
    NetState (<["rtt"%string := JStr unknown]>
             (<["downlink"%string := JStr unknown]>
             (<["effectiveType"%string := JStr unknown]>
             (<["connection"%string := JStr unknown]> ∅)))) (console s)) ;;
  match connection nav with
  | Some c =>
      assign "connection" (JStr (str_or (c_type c) unknown)) ;;
      assign "effectiveType" (JStr (str_or (c_effectiveType c) unknown)) ;;
      assign "downlink" (with_unit (c_downlink c) (lit " Mbps")) ;;
      assign "rtt" (with_unit (c_rtt c) (lit " ms"))
  | None => ret tt
  end ;;
  try_catch
    (response <- lift (fetch geojs) ;;
     data <- lift (json response) ;;
     ip <- get_prop data (lit "ip") ;;
     assign "ip" (or_else ip (JStr unknown)) ;;
     city <- get_prop data (lit "city") ;;
     assign "city" (or_else city (JStr unknown)) ;;
     region <- get_prop data (lit "region") ;;
     assign "region" (or_else region (JStr unknown)) ;;
     country <- get_prop data (lit "country") ;;
     assign "country" (or_else country (JStr unknown)) ;;
     organization_name <- get_prop data (lit "organization_name") ;;
     assign "isp" (or_else organization_name (JStr unknown)) ;;
     timezone <- get_prop data (lit "timezone") ;;
     assign "timezone" (or_else timezone (JStr unknown)))
    (fun error =>
       console_error (lit "Error fetching IP info:") error ;;
       try_catch
         (ipResponse <- lift (fetch ipify) ;;
          ipData <- lift (json ipResponse) ;;
          ip <- get_prop ipData (lit "ip") ;;
          assign "ip" (or_else ip (JStr unknown)))
         (fun ipError =>
            console_error (lit "Error fetching IP from fallback:") ipError)) ;;
  gets info.

(** A call starts with nothing on the console; it gives what [getNetworkInfo]
    returns (or throws) and the final state. *)
Definition call_getNetworkInfo (nav : navigator)
    (fetch : list N -> outcome response) : outcome (gmap string jsval) * netstate :=
  getNetworkInfo nav fetch (NetState ∅ []).

(** [${info.network.key}] in [displayInfo]: a missing property reads undefined. *)
Definition read (o : gmap string jsval) (key : string) : jsval :=
  match o !! key with
  | Some v => v
  | None => JUndefined
  end.

End Script.

Arguments JUndefined {number}.
Arguments JNull {number}.
Arguments JBool {number} b.
Arguments JNum {number} x.
Arguments JStr {number} s.
Arguments JArr {number} l.
Arguments JObj {number} props.
Arguments own_property {number} props key.
Arguments get_prop {number S} v key.
Arguments getBrowserInfo {number} nav.
Arguments read {number} o key.
Arguments assign {number} key v.
Arguments console_error {number} msg e.
Arguments info {number} n.
Arguments console {number} n.
Arguments userAgent {number} n.
Arguments connection {number} n.
Arguments json {number} r.
Arguments si_os {number} s.

(** ** Reference definitions

    Definitions that follow the wording of the specification, to be compared
    with the code. *)

(** The five replacements of the escaper, one character at a time. *)
Definition escape_char (c : jschar) : jsstring :=
  if c =? 60 then lit "&lt;"
  else if c =? 62 then lit "&gt;"
  else if c =? 38 then lit "&amp;"
  else if c =? 34 then lit "&quot;"
  else if c =? 39 then lit "&#039;"
  else [c].

Definition escape_spec (s : jsstring) : jsstring := flat_map escape_char s.

Definition has_reserved (s : jsstring) : bool := existsb is_reserved s.

(** The tests of the five browsers, as [getBrowserInfo] writes them. *)
Definition is_chrome (ua : jsstring) : bool :=
  includes ua (lit "Chrome") && negb (includes ua (lit "Edg"))
  && negb (includes ua (lit "OPR")).
Definition is_safari (ua : jsstring) : bool :=
  includes ua (lit "Safari") && negb (includes ua (lit "Chrome")).
Definition is_firefox (ua : jsstring) : bool := includes ua (lit "Firefox").
Definition is_edge (ua : jsstring) : bool := includes ua (lit "Edg").
Definition is_opera (ua : jsstring) : bool :=
  includes ua (lit "OPR") || includes ua (lit "Opera").

(** Resolution by priority: the name of the first browser of [order] whose
    test the user agent passes. *)
Fixpoint resolve (order : list (list N * (list N -> bool))) (ua : jsstring)
    : jsstring :=
  match order with
  | [] => lit "Unknown"
  | (name, matches) :: order' => if matches ua then name else resolve order' ua
  end.

(** The order the specification states: Chrome, Edge, Opera, Firefox, Safari. *)
Definition stated_priority : list (list N * (list N -> bool)) :=
  [(lit "Chrome", is_chrome); (lit "Edge", is_edge); (lit "Opera", is_opera);
   (lit "Firefox", is_firefox); (lit "Safari", is_safari)].

(** The same order over the bare substrings. *)
Definition stated_priority_plain : list (list N * (list N -> bool)) :=
  [(lit "Chrome", fun ua => includes ua (lit "Chrome"));
   (lit "Edge", fun ua => includes ua (lit "Edg"));
   (lit "Opera", is_opera);
   (lit "Firefox", fun ua => includes ua (lit "Firefox"));
   (lit "Safari", fun ua => includes ua (lit "Safari"))].

(** The order of the tests in the code: Chrome, Safari, Firefox, Edge, Opera. *)
Definition code_priority : list (list N * (list N -> bool)) :=
  [(lit "Chrome", is_chrome); (lit "Safari", is_safari);
   (lit "Firefox", is_firefox); (lit "Edge", is_edge); (lit "Opera", is_opera)].

(** How many of the five tests a user agent passes. *)
Definition matching_browsers (ua : jsstring) : nat :=
  length (List.filter (fun e => snd e ua) code_priority).

(** Number of positions of [s] at which [p] occurs. *)
Fixpoint occurrences (s p : jsstring) : nat :=
  ((if startsWith s p then 1 else 0) +
   match s with
   | [] => 0
   | _ :: s' => occurrences s' p
   end)%nat.

(** What the list rules do to one line. *)
Definition item_line (l : jsstring) : jsstring :=
  match strip_prefix (lit "* ") l with
  | Some t => lit "<li>" ++ t ++ lit "</li>"
  | None =>
      match strip_prefix (lit "- ") l with
      | Some t => lit "<li>" ++ t ++ lit "</li>"
      | None => l
      end
  end.

(** ** A number model for the examples

    Natural numbers printed in decimal; enough to run the script on concrete
    environments. *)
Definition dec_truthy (n : N) : bool := negb (n =? 0).
Definition dec_ge8 (n : N) : bool := 8 <=? n.
Definition dec_toString (n : N) : jsstring :=
  lit (NilEmpty.string_of_uint (N.to_uint n)).

(** A desktop environment with the given user agent. *)
Definition nav_of (ua : jsstring) : navigator N :=
  {| userAgent := ua;
     language := lit "es-ES";
     languages := Some [lit "es-ES"; lit "es"; lit "en"];
     cookieEnabled := true;
     onLine := true;
     doNotTrack := None;
     userAgentData_platform := None;
     deviceMemory := Some 8;
     hardwareConcurrency := Some 4;
     connection := None |}.

(** Every request is rejected. *)
Definition offline : list N -> outcome (response N) := fun _ => Throw NetworkError.

(** The primary service is down, the secondary one answers with an address. *)
Definition only_ipify : list N -> outcome (response N) :=
  fun url =>
    if str_eqb url ipify
    then Ok {| json := Ok (JObj [(lit "ip", JStr (lit "203.0.113.7"))]) |}
    else Throw NetworkError.

(** Edge on iOS. *)
Definition ua_edge_ios : jsstring :=
  lit "Mozilla/5.0 (iPhone; CPU iPhone OS 17_0 like Mac OS X) AppleWebKit/605.1.15 (KHTML, like Gecko) Version/17.0 EdgiOS/120.0.2210.126 Mobile/15E148 Safari/604.1".

(** ** More environments for the examples *)

(** The primary service answers with an object. *)
Definition only_geojs : list N -> outcome (response N) :=
  fun url =>
    if str_eqb url geojs
    then Ok {| json := Ok (JObj [(lit "ip", JStr (lit "203.0.113.7"));
                                 (lit "city", JStr (lit "Lugo"));
                                 (lit "country", JStr (lit "Spain"));
                                 (lit "timezone", JStr (lit "Europe/Madrid"))]) |}
    else Throw NetworkError.

(** The primary service answers with the JSON value null, the secondary one
    with an address. *)
Definition null_geojs : list N -> outcome (response N) :=
  fun url =>
    if str_eqb url geojs then Ok {| json := Ok JNull |} else only_ipify url.

(** ** Text with accents

    The script is a UTF-8 file; a literal with accented letters or symbols is
    read here from its bytes.  [js] decodes sequences of one, two and three
    bytes, which covers every literal of the script that is not given by its
    code units. *)
Fixpoint utf16 (bytes : list N) : jsstring :=
  match bytes with
  | [] => []
  | b :: rest =>
      if b <? 128 then b :: utf16 rest
      else if b <? 224 then
        match rest with
        | b2 :: rest' => ((b - 192) * 64 + (b2 - 128)) :: utf16 rest'
        | [] => []
        end
      else
        match rest with
        | b2 :: b3 :: rest' =>
            ((b - 224) * 4096 + (b2 - 128) * 64 + (b3 - 128)) :: utf16 rest'
        | _ => []
        end
  end.

Definition js (s : string) : jsstring := utf16 (lit s).

(** ** downloadData: the file name *)

(** What the script reads from a [Date]: the year, the month counted from
    zero, the day of the month, the hour and the minute, all non-negative
    integers, and the two texts that the locale formatting gives. *)
Record Date := {
  getFullYear : N;
  getMonth : N;
  getDate : N;
  getHours : N;
  getMinutes : N;
  toLocaleDateString : list N;
  toLocaleTimeString : list N
}.

(** [String( n )], and [n] in a template, for a non-negative integer: its
    decimal digits. *)
Definition String_ (n : N) : jsstring := dec_toString n.

(** [String.prototype.padStart]: the pad text is repeated and cut to fill the
    missing length. *)
Definition padStart (s : jsstring) (targetLength : nat) (padString : jsstring)
    : jsstring :=
  if (targetLength <=? length s)%nat then s
  else
    match padString with
    | [] => s
    | _ :: _ =>
        firstn (targetLength - length s)
          (concat (repeat padString (targetLength - length s))) ++ s
    end.

(** The name that [downloadData] gives to the file. *)
Definition download_filename (now : Date) : jsstring :=
  let year := getFullYear now in
  let month := padStart (String_ (getMonth now + 1)) 2 (lit "0") in
  let day := padStart (String_ (getDate now)) 2 (lit "0") in
  let hours := padStart (String_ (getHours now)) 2 (lit "0") in
  let minutes := padStart (String_ (getMinutes now)) 2 (lit "0") in
  lit "info-usuario-" ++ String_ year ++ lit "_" ++ month ++ lit "_" ++ day
    ++ lit "_" ++ hours ++ lit "_" ++ minutes ++ lit ".txt".

(** The number that a text of decimal digits writes. *)
Definition digits_value (s : jsstring) : N :=
  fold_left (fun acc c => acc * 10 + (c - 48)) s 0.

(** ** The information dialog

    Opening the dialog is asynchronous: the handler shows the dialog and, when
    the README is not loaded yet, starts a request; the rest of [loadReadme]
    runs when the request has settled, and other events can come in between.
    The model has one event for the start and one for the completion of a
    load. *)

(** A response to the request for the README: its [ok] flag and what reading
    its body gives. *)
Record readme_response := {
  resp_ok : bool;
  resp_text : outcome (list N)
}.

(** What the [catch] of [loadReadme] can receive. *)
Inductive readme_failure :=
| FetchFailed (e : error)    (* the request was rejected *)
| BadStatus                  (* the thrown [Error]: the response is not ok *)
| TextFailed (e : error).    (* reading the body was rejected *)

(** The dialog: whether [#info-modal] has the class [hidden], the [overflow]
    style of the body, the content of [#readme-content], the flag
    [readmeLoaded] (undefined reads as false), the loads that have started and
    not settled, and the errors logged. *)
Record dialog := Dialog {
  hidden : bool;
  overflow : list N;
  readmeContent : list N;
  readmeLoaded : bool;
  pendingLoads : nat;
  readmeLog : list readme_failure
}.

Definition readme_error : jsstring :=
  lit "<p style=" ++ [34] ++ lit "color: var(--error-color);" ++ [34]
    ++ js ">Error al cargar la información del proyecto.</p>".

(** The [try] block of [loadReadme]: the text of the README, or what is
    thrown. *)
Definition readme_text (fetched : outcome readme_response)
    : list N + readme_failure :=
  match fetched with
  | Throw e => inr (FetchFailed e)
  | Ok response =>
      if negb (resp_ok response) then inr BadStatus
      else
        match resp_text response with
        | Ok markdown => inl markdown
        | Throw e => inr (TextFailed e)
        end
  end.

(** [loadReadme] from the point where its request has settled. *)
Definition loadReadme_settled (fetched : outcome readme_response) (d : dialog)
    : dialog :=
  match readme_text fetched with
  | inl markdown =>
      Dialog (hidden d) (overflow d) (parseMarkdown markdown) true
        (pendingLoads d) (readmeLog d)
  | inr error =>
      Dialog (hidden d) (overflow d) readme_error (readmeLoaded d)
        (pendingLoads d) (readmeLog d ++ [error])
  end.

(** [showInfoModal] up to the request of [loadReadme]. *)
Definition showInfoModal (d : dialog) : dialog :=
  let d := Dialog false (lit "hidden") (readmeContent d) (readmeLoaded d)
             (pendingLoads d) (readmeLog d) in
  if negb (readmeLoaded d) then
    Dialog (hidden d) (overflow d) (readmeContent d) (readmeLoaded d)
      (S (pendingLoads d)) (readmeLog d)
  else d.

Definition hideInfoModal (d : dialog) : dialog :=
  Dialog true [] (readmeContent d) (readmeLoaded d) (pendingLoads d) (readmeLog d).

(** The events of [setupEventListeners] that concern the dialog, and the
    completion of a load. *)
Inductive dialog_event :=
| InfoClick                                       (* #info-toggle *)
| CloseClick                                      (* #modal-close *)
| ModalClick (target_id : list N)                 (* a click inside #info-modal *)
| KeyDown (key : list N)
| LoadSettled (fetched : outcome readme_response).

Definition dialog_step (ev : dialog_event) (d : dialog) : dialog :=
  match ev with
  | InfoClick => showInfoModal d
  | CloseClick => hideInfoModal d
  | ModalClick target_id =>
      if str_eqb target_id (lit "info-modal") then hideInfoModal d else d
  | KeyDown key =>
      if str_eqb key (lit "Escape") && negb (hidden d) then hideInfoModal d else d
  | LoadSettled fetched =>
      match pendingLoads d with
      | O => d
      | S n =>
          loadReadme_settled fetched
            (Dialog (hidden d) (overflow d) (readmeContent d) (readmeLoaded d)
               n (readmeLog d))
      end
  end.

Definition dialog_run (evs : list dialog_event) (d : dialog) : dialog :=
  fold_left (fun d ev => dialog_step ev d) evs d.

(** The dialog is shown with the page locked, or hidden with the page free. *)
Definition dialog_consistent (d : dialog) : Prop :=
  (hidden d = true /\ overflow d = [])
  \/ (hidden d = false /\ overflow d = lit "hidden").

(** A README that loads, and one that is not found. *)
Definition readme_found (markdown : list N) : outcome readme_response :=
  Ok {| resp_ok := true; resp_text := Ok markdown |}.
Definition readme_missing : outcome readme_response :=
  Ok {| resp_ok := false; resp_text := Ok (lit "<h1>404 Not Found</h1>") |}.

(** The page as it is served: the dialog hidden, nothing loaded. *)
Definition dialog_start : dialog := Dialog true [] [] false 0 [].

(** ** Messages and the clipboard *)

(** The element [#message], the timers set by [showMessage] that have not
    fired, the text area, the clipboard, and the errors logged. *)
Record board := Board {
  messageText : list N;
  messageClass : list N;
  timers : nat;
  textareaValue : list N;
  clipboard : option (list N);
  copyLog : list error
}.

(** [showMessage]: the text, the class, and one more timer. *)
Definition showMessage (message type : jsstring) : M board unit :=
  modify (fun b =>
    Board message (lit "message " ++ type) (S (timers b)) (textareaValue b)
      (clipboard b) (copyLog b)).

(** A timer of [showMessage] fires, ten seconds after it was set: it empties
    the message, whichever message is shown. *)
Definition timer_fires (b : board) : board :=
  match timers b with
  | O => b
  | S n => Board [] (lit "message") n (textareaValue b) (clipboard b) (copyLog b)
  end.

Definition copied : jsstring := js "✓ Información copiada al portapapeles".
Definition not_copied : jsstring := js "✗ Error al copiar al portapapeles".

(** A copy mechanism that worked puts the text of the text area on the
    clipboard. *)
Definition to_clipboard : M board unit :=
  modify (fun b =>
    Board (messageText b) (messageClass b) (timers b) (textareaValue b)
      (Some (textareaValue b)) (copyLog b)).

(** [copyToClipboard].  [writeText] is what [navigator.clipboard.writeText]
    does (it throws when there is no [navigator.clipboard]); [execCommand] is
    what [document.execCommand( 'copy' )] returns or throws. *)
Definition copyToClipboard (writeText : outcome unit) (execCommand : outcome bool)
    : M board unit :=
  try_catch
    (lift writeText ;;
     to_clipboard ;;
     showMessage copied (lit "success"))
    (fun _ =>
       try_catch
         (success <- lift execCommand ;;
          if success : bool then
            to_clipboard ;; showMessage copied (lit "success")
          else showMessage not_copied (lit "error"))
         (fun fallbackError =>
            modify (fun b =>
              Board (messageText b) (messageClass b) (timers b) (textareaValue b)
                (clipboard b) (copyLog b ++ [fallbackError])) ;;
            showMessage not_copied (lit "error"))).

(** The pattern of the file name: the prefix, four digits for the year, and
    two digits each for the month, the day, the hour and the minute. *)
Definition re_filename : regex :=
  Seq Bol (Seq (Str (lit "info-usuario-"))
  (Seq (One digit) (Seq (One digit) (Seq (One digit) (Seq (One digit)
  (Seq (One (AChr 95)) (Seq (One digit) (Seq (One digit)
  (Seq (One (AChr 95)) (Seq (One digit) (Seq (One digit)
  (Seq (One (AChr 95)) (Seq (One digit) (Seq (One digit)
  (Seq (One (AChr 95)) (Seq (One digit) (Seq (One digit)
  (Seq (Str (lit ".txt")) Eol)))))))))))))))))).

(** A date of the years 1000 to 9999. *)
Definition four_digit_year (now : Date) : Prop :=
  1000 <= getFullYear now <= 9999 /\ getMonth now <= 11 /\ getDate now <= 31
  /\ getHours now <= 23 /\ getMinutes now <= 59.

(** Whether one of the two copy mechanisms works. *)
Definition copy_works (writeText : outcome unit) (execCommand : outcome bool)
    : bool :=
  match writeText with
  | Ok _ => true
  | Throw _ => match execCommand with Ok true => true | _ => false end
  end.

Definition a_date : Date :=
  {| getFullYear := 2026; getMonth := 10; getDate := 1; getHours := 9;
     getMinutes := 5; toLocaleDateString := lit "1/11/2026";
     toLocaleTimeString := lit "9:05:00" |}.

(** ** The collected data, the panels and the report *)

Section Report.

Variable number : Type.
Variable number_truthy : number -> bool.
Variable number_ge8 : number -> bool.
Variable number_toString : number -> list N.
(** The number literal [1]. *)
Variable number_one : number.

(** ToString, as a template or a concatenation applies it.  An array joins
    its elements with commas, null and undefined elements giving the empty
    text.  An object from JSON has no callable [toString] of its own: it gives
    [[object Object]] through the prototype, unless an own property named
    [toString] hides that method, and then the conversion throws. *)
Fixpoint toString (v : jsval number) : outcome (list N) :=
  match v with
  | JUndefined => Ok (lit "undefined")
  | JNull => Ok (lit "null")
  | JBool b => Ok (if b then lit "true" else lit "false")
  | JNum x => Ok (number_toString x)
  | JStr s => Ok s
  | JArr l =>
      match
        (fix elements (l : list (jsval number)) : outcome (list (list N)) :=
           match l with
           | [] => Ok []
           | e :: l' =>
               match
                 match e with
                 | JUndefined | JNull => Ok []
                 | _ => toString e
                 end
               with
               | Throw err => Throw err
               | Ok t =>
                   match elements l' with
                   | Throw err => Throw err
                   | Ok ts => Ok (t :: ts)
                   end
               end
           end) l
      with
      | Throw err => Throw err
      | Ok ts => Ok (join ts (lit ","))
      end
  | JObj props =>
      if existsb (fun kv => str_eqb (fst kv) (lit "toString")) props
      then Throw TypeError
      else Ok (lit "[object Object]")
  end.

(** *** getScreenInfo *)

(** What [getScreenInfo] reads from [screen] and [window]. *)
Record screen_env := {
  width : number;
  height : number;
  availWidth : number;
  availHeight : number;
  colorDepth : number;
  orientation_type : option (list N);
  devicePixelRatio : option number;
  innerWidth : number;
  innerHeight : number
}.

Record ScreenInfo := {
  sc_resolution : list N;
  sc_availableResolution : list N;
  sc_colorDepth : list N;
  sc_pixelRatio : number;
  sc_viewport : list N;
  sc_orientation : list N
}.

Definition getScreenInfo (e : screen_env) : ScreenInfo :=
  {| sc_resolution := number_toString (width e) ++ lit " x " ++ number_toString (height e);
     sc_availableResolution :=
       number_toString (availWidth e) ++ lit " x " ++ number_toString (availHeight e);
     sc_colorDepth := number_toString (colorDepth e) ++ lit " bits";
     sc_pixelRatio :=
       match devicePixelRatio e with
       | Some r => if number_truthy r then r else number_one
       | None => number_one
       end;
     sc_viewport :=
       number_toString (innerWidth e) ++ lit " x " ++ number_toString (innerHeight e);
     sc_orientation :=
       match orientation_type e with
       | Some t => t
       | None => lit "Unknown"
       end |}.

(** *** getFeatures and checkWebGL *)

(** The capabilities that [getFeatures] probes.  [getContext] is the method of
    a fresh canvas: it gives a context (true), or null (false), or throws. *)
Record feature_env := {
  has_WebGLRenderingContext : bool;
  getContext : list N -> outcome bool;
  has_RTCPeerConnection : bool;
  has_localStorage : bool;
  has_sessionStorage : bool;
  has_indexedDB : bool;
  has_serviceWorker : bool;
  has_Notification : bool;
  has_geolocation : bool;
  has_getBattery : bool;
  has_AudioContext : bool;
  has_webkitAudioContext : bool;
  has_WebAssembly : bool
}.

(** [checkWebGL]: the answer, and what was logged. *)
Definition checkWebGL (e : feature_env) : bool * list error :=
  if has_WebGLRenderingContext e then
    match getContext e (lit "webgl") with
    | Throw err => (false, [err])
    | Ok true => (true, [])
    | Ok false =>
        match getContext e (lit "experimental-webgl") with
        | Throw err => (false, [err])
        | Ok b => (b, [])
        end
    end
  else (false, []).

(** The object that [getFeatures] returns, as its properties in the order in
    which they are written, which is the order of [Object.entries].  The other
    ten tests are [typeof] and [in] tests on names that are taken to be
    readable; what [checkWebGL] logs is not kept. *)
Definition getFeatures (e : feature_env) : list (list N * bool) :=
  [ (lit "webGL", fst (checkWebGL e));
    (lit "webRTC", has_RTCPeerConnection e);
    (lit "localStorage", has_localStorage e);
    (lit "sessionStorage", has_sessionStorage e);
    (lit "indexedDB", has_indexedDB e);
    (lit "serviceWorker", has_serviceWorker e);
    (lit "notifications", has_Notification e);
    (lit "geolocation", has_geolocation e);
    (lit "battery", has_getBattery e);
    (lit "webAudio", has_AudioContext e || has_webkitAudioContext e);
    (lit "webAssembly", has_WebAssembly e) ].

(** [features.key] for one of the keys above. *)
Fixpoint feature (features : list (list N * bool)) (key : jsstring) : bool :=
  match features with
  | [] => false
  | (k, b) :: features' => if str_eqb k key then b else feature features' key
  end.

(** *** The data and the page *)

Record SystemData := {
  sd_browser : BrowserInfo;
  sd_system : SystemInfo number;
  sd_screen : ScreenInfo;
  sd_network : gmap string (jsval number);
  sd_features : list (list N * bool)
}.

(** The part of the page that the presenter and the export work on: the
    collected data ([this.systemData], undefined until the collection is
    done), the content of the five panels by element id, the files handed to
    the browser for download (name and text), and the message board with the
    export text area. *)
Record UserInfoApp := App {
  systemData : option SystemData;
  panels : gmap string (list N);
  downloads : list (list N * list N);
  the_board : board
}.

Definition set_panel (id : string) (html : jsstring) : M UserInfoApp unit :=
  modify (fun a =>
    App (systemData a) (<[id := html]> (panels a)) (downloads a) (the_board a)).

(** A computation on the message board, run inside the page. *)
Definition on_board {A} (c : M board A) : M UserInfoApp A :=
  fun a =>
    match c (the_board a) with
    | (r, b) => (r, App (systemData a) (panels a) (downloads a) b)
    end.

Definition yes_no (b : bool) : jsstring := if b then js "Sí" else lit "No".
Definition check_mark (b : bool) : jsstring := if b then js "✓" else js "✗".

(** One line of a panel template: a newline, three tabs and a paragraph. *)
Definition row (label value : jsstring) : jsstring :=
  [10; 9; 9; 9] ++ lit "<p><strong>" ++ label ++ lit "</strong> " ++ value
    ++ lit "</p>".

(** The end of a panel template: a newline and two tabs. *)
Definition template_end : jsstring := [10; 9; 9].

(** *** displayInfo *)

Definition browserHtml (b : BrowserInfo) : jsstring :=
  concat
    [ row (lit "Navegador:") (bi_name b ++ lit " " ++ bi_version b);
      row (lit "User Agent:") (bi_userAgent b);
      row (lit "Idioma:") (bi_language b);
      row (lit "Idiomas disponibles:") (bi_languages b);
      row (lit "Cookies habilitadas:") (yes_no (bi_cookiesEnabled b));
      row (js "En línea:") (yes_no (bi_onLine b));
      row (lit "Do Not Track:") (bi_doNotTrack b);
      template_end ].

Definition systemHtml (sy : SystemInfo number) (cores : jsstring) : jsstring :=
  concat
    [ row (lit "Sistema operativo:") (si_os sy);
      row (lit "Plataforma:") (si_platform number sy);
      row (js "Dispositivo móvil:") (yes_no (si_mobile number sy));
      row (js "Núcleos CPU:") cores;
      row (lit "Memoria:") (si_memory number sy);
      template_end ].

Definition screenHtml (sc : ScreenInfo) : jsstring :=
  concat
    [ row (js "Resolución:") (sc_resolution sc);
      row (js "Resolución disponible:") (sc_availableResolution sc);
      row (lit "Viewport:") (sc_viewport sc);
      row (lit "Profundidad de color:") (sc_colorDepth sc);
      row (lit "Pixel Ratio:") (number_toString (sc_pixelRatio sc));
      row (js "Orientación:") (sc_orientation sc);
      template_end ].

(** The network fields in the order in which the panel template reads them,
    with the label of each in the panel. *)
Definition network_rows : list (string * list N) :=
  [ ("ip"%string, lit "IP:"); ("isp"%string, lit "ISP:");
    ("city"%string, lit "Ciudad:"); ("region"%string, js "Región:");
    ("country"%string, js "País:"); ("timezone"%string, lit "Zona horaria:");
    ("connection"%string, js "Tipo de conexión:");
    ("effectiveType"%string, lit "Tipo efectivo:");
    ("downlink"%string, lit "Velocidad bajada:"); ("rtt"%string, lit "RTT:") ].

(** The texts of a list of values, converted from left to right. *)
Fixpoint texts (vs : list (jsval number)) : outcome (list (list N)) :=
  match vs with
  | [] => Ok []
  | v :: vs' =>
      match toString v with
      | Throw e => Throw e
      | Ok t =>
          match texts vs' with
          | Throw e => Throw e
          | Ok ts => Ok (t :: ts)
          end
      end
  end.

Definition network_texts (network : gmap string (jsval number))
    : outcome (list (list N)) :=
  texts (map (fun r => read network (fst r)) network_rows).

Definition networkHtml (values : list (list N)) : jsstring :=
  concat (map (fun lv => row (snd (fst lv)) (snd lv)) (combine network_rows values))
    ++ template_end.

Definition featuresHtml (f : list (list N * bool)) : jsstring :=
  concat
    [ row (lit "WebGL:") (check_mark (feature f (lit "webGL")));
      row (lit "WebRTC:") (check_mark (feature f (lit "webRTC")));
      row (lit "Local Storage:") (check_mark (feature f (lit "localStorage")));
      row (lit "Session Storage:") (check_mark (feature f (lit "sessionStorage")));
      row (lit "IndexedDB:") (check_mark (feature f (lit "indexedDB")));
      row (lit "Service Worker:") (check_mark (feature f (lit "serviceWorker")));
      row (lit "Notificaciones:") (check_mark (feature f (lit "notifications")));
      row (js "Geolocalización:") (check_mark (feature f (lit "geolocation")));
      row (lit "Battery:") (check_mark (feature f (lit "battery")));
      row (lit "Web Audio:") (check_mark (feature f (lit "webAudio")));
      row (lit "WebAssembly:") (check_mark (feature f (lit "webAssembly")));
      template_end ].

(** [displayInfo]: the five panels are written one after the other; a value
    that cannot be converted to text stops it where it is. *)
Definition displayInfo (info : SystemData) : M UserInfoApp unit :=
  set_panel "browser-info" (browserHtml (sd_browser info)) ;;
  cores <- lift (toString (si_cores number (sd_system info))) ;;
  set_panel "system-info" (systemHtml (sd_system info) cores) ;;
  set_panel "screen-info" (screenHtml (sd_screen info)) ;;
  values <- lift (network_texts (sd_network info)) ;;
  set_panel "network-info" (networkHtml values) ;;
  set_panel "features-info" (featuresHtml (sd_features info)).

(** *** generateTextReport *)

Definition rule_line : jsstring :=
  lit "----------------------------------------------" ++ [nl].
Definition banner_line : jsstring :=
  lit "==============================================" ++ [nl].

(** One line of the report. *)
Definition line (label value : jsstring) : jsstring := label ++ value ++ [nl].

(** [String.prototype.toUpperCase] on ASCII text. *)
Definition toUpperCase (s : jsstring) : jsstring := map canonicalize s.

(** [feature.charAt(0).toUpperCase() + feature.slice(1)] *)
Definition label_of (feature : jsstring) : jsstring :=
  toUpperCase (firstn 1 feature) ++ skipn 1 feature.

Definition feature_line (kv : list N * bool) : jsstring :=
  line (label_of (fst kv) ++ lit ": ")
    (if snd kv then js "✓ Soportado" else js "✗ No soportado").

(** The labels of the network fields in the report. *)
Definition report_network_labels : list (string * list N) :=
  [ ("ip"%string, lit "IP: "); ("isp"%string, lit "ISP: ");
    ("city"%string, lit "Ciudad: "); ("region"%string, js "Región: ");
    ("country"%string, js "País: "); ("timezone"%string, lit "Zona horaria: ");
    ("connection"%string, js "Tipo de conexión: ");
    ("effectiveType"%string, lit "Tipo efectivo: ");
    ("downlink"%string, lit "Velocidad bajada: "); ("rtt"%string, lit "RTT: ") ].

Definition report_network (values : list (list N)) : list (list N) :=
  map (fun lv => line (snd (fst lv)) (snd lv)) (combine report_network_labels values).

(** The lines of the report for data that could all be converted to text. *)
Definition report_lines (now : Date) (href : jsstring) (info : SystemData)
    (cores : jsstring) (values : list (list N)) : list (list N) :=
  [ banner_line;
    line (js "INFORMACIÓN DEL SISTEMA DE USUARIO") [];
    banner_line; [nl];
    line (lit "Fecha: ") (toLocaleDateString now);
    line (lit "Hora: ") (toLocaleTimeString now);
    line (lit "URL: ") href; [nl];
    rule_line; line (lit "NAVEGADOR") []; rule_line;
    line (lit "Navegador: ")
      (bi_name (sd_browser info) ++ lit " " ++ bi_version (sd_browser info));
    line (lit "User Agent: ") (bi_userAgent (sd_browser info));
    line (lit "Idioma: ") (bi_language (sd_browser info));
    line (lit "Idiomas disponibles: ") (bi_languages (sd_browser info));
    line (lit "Cookies habilitadas: ") (yes_no (bi_cookiesEnabled (sd_browser info)));
    line (js "En línea: ") (yes_no (bi_onLine (sd_browser info)));
    line (lit "Do Not Track: ") (bi_doNotTrack (sd_browser info)); [nl];
    rule_line; line (lit "SISTEMA") []; rule_line;
    line (lit "Sistema operativo: ") (si_os (sd_system info));
    line (lit "Plataforma: ") (si_platform number (sd_system info));
    line (js "Dispositivo móvil: ") (yes_no (si_mobile number (sd_system info)));
    line (js "Núcleos CPU: ") cores;
    line (lit "Memoria: ") (si_memory number (sd_system info)); [nl];
    rule_line; line (lit "PANTALLA") []; rule_line;
    line (js "Resolución: ") (sc_resolution (sd_screen info));
    line (js "Resolución disponible: ") (sc_availableResolution (sd_screen info));
    line (lit "Viewport: ") (sc_viewport (sd_screen info));
    line (lit "Profundidad de color: ") (sc_colorDepth (sd_screen info));
    line (lit "Pixel Ratio: ") (number_toString (sc_pixelRatio (sd_screen info)));
    line (js "Orientación: ") (sc_orientation (sd_screen info)); [nl];
    rule_line; line (lit "RED") []; rule_line ]
  ++ report_network values
  ++ [ [nl];
       rule_line; line (js "CARACTERÍSTICAS DEL NAVEGADOR") []; rule_line ]
  ++ map feature_line (sd_features info)
  ++ [ [nl]; banner_line ].

(** [generateTextReport]: reading a section of data that is not there yet
    throws. *)
Definition generateTextReport (now : Date) (href : jsstring) : M UserInfoApp (list N) :=
  data <- gets systemData ;;
  match data with
  | None => throw TypeError
  | Some info =>
      cores <- lift (toString (si_cores number (sd_system info))) ;;
      values <- lift (network_texts (sd_network info)) ;;
      ret (concat (report_lines now href info cores values))
  end.

Definition updateTextarea (now : Date) (href : jsstring) : M UserInfoApp unit :=
  report <- generateTextReport now href ;;
  on_board (modify (fun b =>
    Board (messageText b) (messageClass b) (timers b) report (clipboard b)
      (copyLog b))).

(** [gatherSystemInfo], the request of [getNetworkInfo] having settled.  The
    five panels and the export text area are taken to be on the page. *)
Definition gatherSystemInfo (nav : navigator number) (scr : screen_env)
    (feat : feature_env) (fetch : list N -> outcome (response number))
    (now : Date) (href : jsstring) : M UserInfoApp unit :=
  network <- lift (fst (call_getNetworkInfo number number_truthy number_toString
                          nav fetch)) ;;
  let systemInfo :=
    {| sd_browser := getBrowserInfo nav;
       sd_system := getSystemInfo number number_truthy number_ge8 number_toString nav;
       sd_screen := getScreenInfo scr;
       sd_network := network;
       sd_features := getFeatures feat |} in
  displayInfo systemInfo ;;
  modify (fun a => App (Some systemInfo) (panels a) (downloads a) (the_board a)) ;;
  updateTextarea now href.

Definition downloaded : jsstring := js "✓ Archivo descargado correctamente".

(** [downloadData]: the report, made at [now], goes into a file named after
    [file_now].  The blob, its URL and the click on the link are taken to
    work; the file is recorded with its name and text. *)
Definition downloadData (now file_now : Date) (href : jsstring) : M UserInfoApp unit :=
  text <- generateTextReport now href ;;
  modify (fun a =>
    App (systemData a) (panels a)
      (downloads a ++ [(download_filename file_now, text)]) (the_board a)) ;;
  on_board (showMessage downloaded (lit "success")).

End Report.

Arguments systemData {number} _.
Arguments panels {number} _.
Arguments downloads {number} _.
Arguments the_board {number} _.
Arguments App {number} _ _ _ _.

(** A screen, a set of capabilities and an empty page for the examples. *)
Definition a_screen : screen_env N :=
  {| width := 1920; height := 1080; availWidth := 1920; availHeight := 1040;
     colorDepth := 24; orientation_type := Some (lit "landscape-primary");
     devicePixelRatio := Some 2; innerWidth := 1280; innerHeight := 720 |}.

Definition some_features : feature_env :=
  {| has_WebGLRenderingContext := true;
     getContext := fun kind => Ok (str_eqb kind (lit "webgl"));
     has_RTCPeerConnection := true; has_localStorage := true;
     has_sessionStorage := true; has_indexedDB := true;
     has_serviceWorker := false; has_Notification := true;
     has_geolocation := true; has_getBattery := false;
     has_AudioContext := true; has_webkitAudioContext := false;
     has_WebAssembly := true |}.

Definition empty_board : board := Board [] (lit "message") 0 [] None [].
Definition empty_app : UserInfoApp N := App None ∅ [] empty_board.

(** ** Further reference definitions *)

(** The six fields that only the geolocation services fill. *)
Definition geo_fields : list string :=
  ["ip"; "isp"; "city"; "region"; "country"; "timezone"]%string.

(** A primary service whose answer has an object for [ip], with a property
    named [toString]. *)
Definition odd_geojs : list N -> outcome (response N) :=
  fun url =>
    if str_eqb url geojs
    then Ok {| json := Ok (JObj [(lit "ip", JObj [(lit "toString", JNull)])]) |}
    else Throw NetworkError.


(** [ds] is the run of digits after the leftmost place of [ua] where the
    product name, a slash and a digit stand. *)
Definition version_token (product : string) (ua ds : jsstring) : Prop :=
  exists pre post,
    ua = pre ++ lit product ++ 47 :: ds ++ post
    /\ ds <> []
    /\ forallb is_digit ds = true
    /\ match post with [] => True | c :: _ => is_digit c = false end
    /\ (forall q d q', is_digit d = true ->
          ua = q ++ lit product ++ 47 :: d :: q' -> (length pre <= length q)%nat).

(** The six names [getBrowserInfo] can give. *)
Definition browser_names : list (list N) :=
  [lit "Chrome"; lit "Safari"; lit "Firefox"; lit "Edge"; lit "Opera"; lit "Unknown"].

(** Safari on macOS, Firefox on Linux, Edge on Windows, Chrome on Android. *)
Definition ua_safari : jsstring :=
  lit "Mozilla/5.0 (Macintosh; Intel Mac OS X 10_15_7) AppleWebKit/605.1.15 (KHTML, like Gecko) Version/17.1 Safari/605.1.15".
Definition ua_firefox : jsstring :=
  lit "Mozilla/5.0 (X11; Linux x86_64; rv:121.0) Gecko/20100101 Firefox/121.0".
Definition ua_edge : jsstring :=
  lit "Mozilla/5.0 (Windows NT 10.0; Win64; x64) AppleWebKit/537.36 (KHTML, like Gecko) Chrome/120.0.0.0 Safari/537.36 Edg/120.0.2210.91".
Definition ua_android : jsstring :=
  lit "Mozilla/5.0 (Linux; Android 14; Pixel 8) AppleWebKit/537.36 (KHTML, like Gecko) Chrome/120.0.0.0 Mobile Safari/537.36".

(** What the three header rules do to one line. *)
Definition header_line (l : jsstring) : jsstring :=
  match strip_prefix (lit "### ") l with
  | Some t => lit "<h3>" ++ t ++ lit "</h3>"
  | None =>
      match strip_prefix (lit "## ") l with
      | Some t => lit "<h2>" ++ t ++ lit "</h2>"
      | None =>
          match strip_prefix (lit "# ") l with
          | Some t => lit "<h1>" ++ t ++ lit "</h1>"
          | None => l
          end
      end
  end.

(** The last and the first character of a text. *)
Fixpoint ends_with_char (x : jsstring) (a : jschar) : bool :=
  match x with
  | [] => false
  | [c] => a =? c
  | _ :: x' => ends_with_char x' a
  end.

Definition starts_with_char (y : jsstring) (b : jschar) : bool :=
  match y with
  | d :: _ => b =? d
  | [] => false
  end.

(** The characters that open or close a tag or an attribute value. *)
Definition is_markup (c : jschar) : bool :=
  (c =? 60) || (c =? 62) || (c =? 34) || (c =? 39).

(** A text without asterisks. *)
Definition no_star (x : jsstring) : bool := forallb (fun c => negb (c =? 42)) x.

(** ** Auxiliary definitions for the proofs *)

(** The character before the position reached after reading [x]. *)
Definition prev_after (x : jsstring) (prev : option jschar) : option jschar :=
  fold_left (fun _ c => Some c) x prev.

(** A match found after skipping [x]. *)
Definition shift (x : jsstring) (m : rmatch) : rmatch :=
  RMatch (x ++ r_before m) (r_text m) (r_caps m) (r_prev m) (r_after m).

(** Pattern characters below [A]: they have no other case. *)
Definition caseless (p : jsstring) : bool := forallb (fun x => x <? 65) p.

(** A text without line terminators: one line. *)
Definition no_terminator (l : jsstring) : bool :=
  forallb (fun c => negb (is_line_terminator c)) l.

(** What a line rule does to one line: a line that starts with the marker is
    wrapped, without the marker, between the two tags. *)
Definition wrap_line (marker open close : string) (l : jsstring) : jsstring :=
  match strip_prefix (lit marker) l with
  | Some t => lit open ++ t ++ lit close
  | None => l
  end.

(** The position is the start of a line. *)
Definition line_start (prev : option jschar) : bool :=
  match prev with
  | None => true
  | Some c => is_line_terminator c
  end.






(** * Properties *)

(** ** The theme *)

Lemma str_eqb_refl (a : list N) : str_eqb a a = true.
Proof. unfold str_eqb. destruct (decide (a = a)); congruence. Qed.

Lemma str_eqb_eq (a b : list N) : str_eqb a b = true <-> a = b.
Proof. unfold str_eqb. destruct (decide (a = b)); split; congruence. Qed.

(** After [toggleTheme] the attribute and the stored value agree, whatever the
    page was and even when the icon is missing. *)
Lemma toggleTheme_persists (p : page) :
  let p' := after toggleTheme p in
  exists t, dataTheme p' = Some t /\ localStorage p' !! "theme"%string = Some t.
Proof.
  destruct p as [d st ic].
  unfold after, toggleTheme, bind, gets, setAttribute, setItem, updateThemeIcon,
    modify, throw; simpl.
  destruct ic; simpl; eexists; (split; [reflexivity | apply lookup_insert_eq]).
Qed.

(** With an icon on the page, [toggleTheme] completes. *)
Lemma toggleTheme_completes (p : page) :
  themeIcon p <> None -> fst (toggleTheme p) = Ok tt.
Proof.
  destruct p as [d st [ic|]]; simpl; [intros _ | congruence].
  destruct d; reflexivity.
Qed.

(** C9: from a stored theme [light], or none, [initTheme] shows [light]; one
    [toggleTheme] sets the document theme to [dark] and stores [dark]; a second
    one sets it back to [light] and stores [light]. *)
Theorem toggleTheme_two_state_flip (p : page) :
  localStorage p !! "theme"%string = Some (lit "light")
  \/ localStorage p !! "theme"%string = None ->
  let p0 := after initTheme p in
  let p1 := after toggleTheme p0 in
  let p2 := after toggleTheme p1 in
  dataTheme p0 = Some (lit "light")
  /\ (dataTheme p1 = Some (lit "dark")
      /\ localStorage p1 !! "theme"%string = Some (lit "dark"))
  /\ (dataTheme p2 = Some (lit "light")
      /\ localStorage p2 !! "theme"%string = Some (lit "light")).
Proof.
  destruct p as [d st ic]; simpl.
  intros Hst.
  assert (H0 : dataTheme (after initTheme (Page d st ic)) = Some (lit "light")).
  { unfold after, initTheme, bind, gets, setAttribute, updateThemeIcon, modify,
      throw; simpl.
    destruct Hst as [-> | ->]; destruct ic; reflexivity. }
  split; [exact H0 |].
  destruct (after initTheme (Page d st ic)) as [d0 st0 ic0]; simpl in H0; subst d0.
  assert (H1 : after toggleTheme (Page (Some (lit "light")) st0 ic0)
               = Page (Some (lit "dark")) (<["theme"%string := lit "dark"]> st0)
                   (match ic0 with Some _ => Some sun | None => None end)).
  { destruct ic0; reflexivity. }
  rewrite H1.
  split; [split; [reflexivity | apply lookup_insert_eq] |].
  destruct ic0; (split; [reflexivity | apply lookup_insert_eq]).
Qed.

Lemma toggleTheme_two_state_flip_witness :
  let p := Page None ∅ (Some moon) in
  dataTheme (after toggleTheme (after initTheme p)) = Some (lit "dark")
  /\ dataTheme (after toggleTheme (after toggleTheme (after initTheme p)))
     = Some (lit "light").
Proof.
  pose proof (toggleTheme_two_state_flip (Page None ∅ (Some moon))
                (or_intror (lookup_empty _))) as H.
  simpl in H. destruct H as (_ & (H1 & _) & (H2 & _)).
  split; [exact H1 | exact H2].
Defined.

(** ** Browser and system identification *)

Section Identification.

Context {number : Type}.
Variable number_truthy : number -> bool.
Variable number_ge8 : number -> bool.
Variable number_toString : number -> list N.

(** The name is the first test of the code's chain that the user agent
    passes. *)
Lemma detect_browser_resolve (ua : list N) :
  fst (detect_browser ua) = resolve code_priority ua.
Proof.
  unfold detect_browser, code_priority, resolve,
    is_chrome, is_safari, is_firefox, is_edge, is_opera.
  repeat match goal with
         | |- context [if ?b then _ else _] => destruct b; simpl; try reflexivity
         end.
Qed.

(** C3 (amended): overlaps are resolved by the order of the tests in the code,
    Chrome, then Safari, then Firefox, then Edge, then Opera: the returned name
    is the first browser in that order whose test the user agent passes. *)
Theorem getBrowserInfo_priority (nav : navigator number) :
  bi_name (getBrowserInfo nav) = resolve code_priority (userAgent nav).
Proof. apply detect_browser_resolve. Qed.

(** C4: a user agent with none of the known browser and system substrings
    gives the browser name and version [Unknown] and the system [Unknown]. *)
Theorem unknown_user_agent (nav : navigator number) :
  let ua := userAgent nav in
  includes ua (lit "Chrome") = false ->
  includes ua (lit "Safari") = false ->
  includes ua (lit "Firefox") = false ->
  includes ua (lit "Edg") = false ->
  includes ua (lit "OPR") = false ->
  includes ua (lit "Opera") = false ->
  includes ua (lit "Win") = false ->
  includes ua (lit "Mac") = false ->
  includes ua (lit "Linux") = false ->
  includes ua (lit "Android") = false ->
  includes ua (lit "iOS") = false ->
  includes ua (lit "iPhone") = false ->
  includes ua (lit "iPad") = false ->
  includes ua (lit "iPod") = false ->
  bi_name (getBrowserInfo nav) = lit "Unknown"
  /\ bi_version (getBrowserInfo nav) = lit "Unknown"
  /\ si_os (getSystemInfo number number_truthy number_ge8 number_toString nav)
     = lit "Unknown".
Proof.
  intros ua HC HS HF HE HO HOp HW HM HL HA Hi Hp Hd Ho.
  subst ua. unfold getBrowserInfo, getSystemInfo, detect_browser, detect_os; simpl.
  rewrite HC, HS, HF, HE, HO, HOp, HW, HM, HL, HA, Hi, Hp, Hd, Ho. simpl.
  repeat split.
Qed.

End Identification.

Lemma unknown_user_agent_witness :
  let nav := nav_of (lit "curl/8.4.0") in
  bi_name (getBrowserInfo nav) = lit "Unknown"
  /\ bi_version (getBrowserInfo nav) = lit "Unknown"
  /\ si_os (getSystemInfo N dec_truthy dec_ge8 dec_toString nav) = lit "Unknown".
Proof.
  apply (unknown_user_agent dec_truthy dec_ge8 dec_toString
           (nav_of (lit "curl/8.4.0"))); reflexivity.
Defined.

(** C3, as stated, fails for Edge on iOS: the user agent passes the tests of
    Edge and of Safari, the stated order puts Edge first (with the tests of the
    code and with the bare substrings alike), and the code answers Safari. *)
Lemma stated_priority_counterexample :
  let ua := ua_edge_ios in
  matching_browsers ua = 2%nat
  /\ resolve stated_priority ua = lit "Edge"
  /\ resolve stated_priority_plain ua = lit "Edge"
  /\ bi_name (getBrowserInfo (nav_of ua)) = lit "Safari"
  /\ bi_name (getBrowserInfo (nav_of ua)) <> resolve stated_priority ua
  /\ bi_name (getBrowserInfo (nav_of ua)) <> resolve stated_priority_plain ua.
Proof. vm_compute. repeat split; congruence. Qed.

(** ** The network lookup *)

Section Network.

Context {number : Type}.
Variable number_truthy : number -> bool.
Variable number_toString : number -> list N.

Local Abbreviation network := (call_getNetworkInfo number number_truthy number_toString).
Local Abbreviation orElse := (or_else number number_truthy).

Ltac run_script :=
  unfold call_getNetworkInfo, getNetworkInfo, bind, try_catch, lift, gets,
    modify, assign, console_error, get_prop, ret, throw; simpl.

Ltac lookups :=
  unfold read; simpl;
  repeat first
    [ rewrite lookup_insert_eq
    | rewrite lookup_insert_ne by discriminate
    | rewrite lookup_empty ];
  try reflexivity.

(** No exception escapes: every call returns the object [info]. *)
Lemma getNetworkInfo_returns (nav : navigator number)
    (fetch : list N -> outcome (response number)) :
  exists i, fst (network nav fetch) = Ok i.
Proof.
  run_script.
  destruct (connection nav) as [c|]; simpl;
    (destruct (fetch geojs) as [[[data|e1]]|e1]; simpl;
     [ destruct data; simpl | | ]);
    try (eexists; reflexivity);
    (destruct (fetch ipify) as [[[ipData|e2]]|e2]; simpl;
     [ destruct ipData; simpl | | ]);
    eexists; reflexivity.
Qed.

(** When the primary service answers with a value other than null, each of the
    six fields holds the corresponding property of the answer, or [Unknown]
    when that property is missing or falsy. *)
Lemma getNetworkInfo_primary (nav : navigator number)
    (fetch : list N -> outcome (response number)) (r : response number)
    (props : list (list N * jsval number)) :
  fetch geojs = Ok r ->
  json r = Ok (JObj props) ->
  exists i, fst (network nav fetch) = Ok i
    /\ read i "ip" = orElse (own_property props (lit "ip")) (JStr unknown)
    /\ read i "city" = orElse (own_property props (lit "city")) (JStr unknown)
    /\ read i "region" = orElse (own_property props (lit "region")) (JStr unknown)
    /\ read i "country" = orElse (own_property props (lit "country")) (JStr unknown)
    /\ read i "isp"
       = orElse (own_property props (lit "organization_name")) (JStr unknown)
    /\ read i "timezone"
       = orElse (own_property props (lit "timezone")) (JStr unknown).
Proof.
  intros Hf Hj. run_script. rewrite Hf; simpl. rewrite Hj; simpl.
  destruct (connection nav) as [c|]; simpl;
    (eexists; split; [reflexivity |]); repeat split; lookups.
Qed.

(** When the primary service fails and the secondary one answers with an
    object, [ip] comes from that answer and the other five fields are never
    written: they read undefined. *)
Lemma getNetworkInfo_secondary (nav : navigator number)
    (fetch : list N -> outcome (response number)) (e : error)
    (r : response number) (props : list (list N * jsval number)) :
  fetch geojs = Throw e ->
  fetch ipify = Ok r ->
  json r = Ok (JObj props) ->
  exists i, fst (network nav fetch) = Ok i
    /\ read i "ip" = orElse (own_property props (lit "ip")) (JStr unknown)
    /\ read i "city" = JUndefined
    /\ read i "region" = JUndefined
    /\ read i "country" = JUndefined
    /\ read i "isp" = JUndefined
    /\ read i "timezone" = JUndefined.
Proof.
  intros Hf Hf2 Hj. run_script. rewrite Hf; simpl. rewrite Hf2; simpl.
  rewrite Hj; simpl.
  destruct (connection nav) as [c|]; simpl;
    (eexists; split; [reflexivity |]); repeat split; lookups.
Qed.

(** C1, both services down: the call returns, both failures are logged, and
    none of [ip], [city], [region], [country], [isp], [timezone] is ever
    written; each reads undefined, not [Unknown]. *)
Theorem getNetworkInfo_offline (nav : navigator number) :
  let fetch := fun _ : list N => Throw NetworkError in
  exists i, fst (network nav fetch) = Ok i
    /\ length (console (snd (network nav fetch))) = 2%nat
    /\ (read i "ip" = JUndefined /\ read i "ip" <> JStr unknown)
    /\ (read i "city" = JUndefined /\ read i "city" <> JStr unknown)
    /\ (read i "region" = JUndefined /\ read i "region" <> JStr unknown)
    /\ (read i "country" = JUndefined /\ read i "country" <> JStr unknown)
    /\ (read i "isp" = JUndefined /\ read i "isp" <> JStr unknown)
    /\ (read i "timezone" = JUndefined /\ read i "timezone" <> JStr unknown).
Proof.
  run_script.
  destruct (connection nav) as [c|]; simpl;
    (eexists; split; [reflexivity |]); (split; [reflexivity |]);
    repeat split; lookups; discriminate.
Qed.

End Network.

(** ** Strings *)

Lemma strip_prefix_app (p t : list N) : strip_prefix p (p ++ t) = Some t.
Proof.
  induction p as [|c p IH]; simpl; [reflexivity |].
  now rewrite N.eqb_refl.
Qed.

Lemma strip_prefix_Some (p s t : list N) :
  strip_prefix p s = Some t -> s = p ++ t.
Proof.
  revert s; induction p as [|c p IH]; simpl; intros s H.
  - congruence.
  - destruct s as [|d s]; [discriminate |].
    destruct (c =? d) eqn:E; [| discriminate].
    apply N.eqb_eq in E; subst d. f_equal. now apply IH.
Qed.

Lemma strip_prefix_None_app (p x y : list N) :
  strip_prefix p x = None -> (length p <= length x)%nat ->
  strip_prefix p (x ++ y) = None.
Proof.
  revert x; induction p as [|c p IH]; simpl; intros x H L; [discriminate |].
  destruct x as [|d x]; simpl in *; [lia |].
  destruct (c =? d); [| reflexivity].
  apply IH; [assumption | lia].
Qed.

Lemma startsWith_app (p t : list N) : startsWith (p ++ t) p = true.
Proof. unfold startsWith. now rewrite strip_prefix_app. Qed.

(** [includes] is false exactly when no suffix starts with the pattern. *)
Lemma includes_false_suffix (s p a b : list N) :
  includes s p = false -> s = a ++ b -> strip_prefix p b = None.
Proof.
  revert s; induction a as [|c a IH]; intros s H ->; simpl in *.
  - destruct b; simpl in H; apply orb_false_elim in H as [H _];
      unfold startsWith in H; now destruct (strip_prefix p _).
  - apply orb_false_elim in H as [_ H]. now apply (IH (a ++ b)).
Qed.

Lemma includes_unfold (s p : list N) :
  includes s p =
  startsWith s p || match s with [] => false | _ :: s' => includes s' p end.
Proof. destruct s; reflexivity. Qed.

Lemma includes_true_intro (a p b : list N) : includes (a ++ p ++ b) p = true.
Proof.
  induction a as [|c a IH].
  - rewrite includes_unfold. simpl app. now rewrite startsWith_app.
  - rewrite includes_unfold. simpl. rewrite IH. apply orb_true_r.
Qed.

Lemma prev_after_app (x y : list N) (prev : option N) :
  prev_after (x ++ y) prev = prev_after y (prev_after x prev).
Proof. apply fold_left_app. Qed.

Lemma firstn_sub_app (m rest : list N) :
  firstn (length (m ++ rest) - length rest) (m ++ rest) = m.
Proof.
  rewrite length_app.
  replace (length m + length rest - length rest)%nat with (length m) by lia.
  rewrite firstn_app, Nat.sub_diag, firstn_all. simpl. apply app_nil_r.
Qed.

(** ** The matcher *)

Lemma canonicalize_caseless (x c : N) :
  x < 65 -> (canonicalize x =? canonicalize c) = (x =? c).
Proof.
  intros Hx. unfold canonicalize.
  destruct ((97 <=? x) && (x <=? 122)) eqn:Ex.
  { apply andb_true_iff in Ex as [Ex _]. apply N.leb_le in Ex. lia. }
  destruct ((97 <=? c) && (c <=? 122)) eqn:Ec; [| reflexivity].
  apply andb_true_iff in Ec as [E1 E2].
  apply N.leb_le in E1. apply N.leb_le in E2.
  transitivity false; [apply N.eqb_neq | symmetry; apply N.eqb_neq]; lia.
Qed.

Lemma atom_ok_chr (f : flags) (x c : N) :
  ignoreCase f = false \/ x < 65 -> atom_ok f (AChr x) c = (x =? c).
Proof.
  intros [H | H]; simpl.
  - now rewrite H.
  - destruct (ignoreCase f); [now apply canonicalize_caseless | reflexivity].
Qed.

(** A literal matches exactly when the text starts with it. *)
Lemma rx_Str (f : flags) (p : list N) (st : mstate) (k : mstate -> option mstate) :
  ignoreCase f = false \/ caseless p = true ->
  rx f (Str p) st k =
  match strip_prefix p (m_rest st) with
  | Some t => k (MState (prev_after p (m_prev st)) t (m_caps st))
  | None => None
  end.
Proof.
  intros Hp. revert st; induction p as [|c p IH]; intros [prev s caps].
  - reflexivity.
  - cbn [Str rx strip_prefix m_rest m_caps m_prev].
    destruct s as [|d s]; [reflexivity |].
    rewrite atom_ok_chr.
    2:{ destruct Hp as [Hp | Hp]; [now left | right].
        simpl in Hp. apply andb_true_iff in Hp as [Hp _]. now apply N.ltb_lt. }
    destruct (c =? d) eqn:E; [| reflexivity].
    apply N.eqb_eq in E; subst d.
    rewrite IH.
    + reflexivity.
    + destruct Hp as [Hp | Hp]; [now left | right].
      simpl in Hp. now apply andb_true_iff in Hp as [_ Hp].
Qed.

(** A greedy quantifier over a run that the next character ends: the run is
    taken whole when the continuation accepts there. *)
Lemma many_greedy_run (ok : N -> bool) (caps : list (nat * list N))
    (k : mstate -> option mstate) (ds post : list N) (prev : option N)
    (r : mstate) :
  forallb ok ds = true ->
  match post with [] => True | c :: _ => ok c = false end ->
  k (MState (prev_after ds prev) post caps) = Some r ->
  many ok true caps prev (ds ++ post) k = Some r.
Proof.
  intros Hds Hpost. revert prev.
  induction ds as [|d ds IH]; intros prev Hk; simpl in *.
  - destruct post as [|c post]; simpl; [exact Hk |].
    now rewrite Hpost, Hk.
  - apply andb_true_iff in Hds as [Hd Hds].
    now rewrite Hd, (IH Hds (Some d) Hk).
Qed.

(** A quantifier fails when the continuation rejects every position. *)
Lemma many_none (ok : N -> bool) (g : bool) (caps : list (nat * list N))
    (k : mstate -> option mstate) (s : list N) (prev : option N) :
  (forall s1 s2 p, s = s1 ++ s2 -> k (MState p s2 caps) = None) ->
  many ok g caps prev s k = None.
Proof.
  revert prev; induction s as [|c s IH]; intros prev H; simpl.
  - now apply (H [] []).
  - assert (Hin : many ok g caps (Some c) s k = None).
    { apply IH. intros s1 s2 p E. apply (H (c :: s1) s2 p). now rewrite E. }
    rewrite Hin, (H [] (c :: s) prev eq_refl).
    destruct g, (ok c); reflexivity.
Qed.

(** A greedy quantifier that can read to the end of the text stops at the last
    position the continuation accepts. *)
Lemma many_greedy_last (ok : N -> bool) (caps : list (nat * list N))
    (k : mstate -> option mstate) (x y : list N) (prev : option N) (r : mstate) :
  forallb ok x = true ->
  (forall y1 y2 p, y = y1 ++ y2 -> y1 <> [] -> k (MState p y2 caps) = None) ->
  k (MState (prev_after x prev) y caps) = Some r ->
  many ok true caps prev (x ++ y) k = Some r.
Proof.
  intros Hx Hy. revert prev.
  induction x as [|a x IH]; intros prev Hk; simpl in *.
  - destruct y as [|c y]; simpl; [exact Hk |].
    rewrite (many_none ok true caps k y (Some c)).
    + rewrite Hk. now destruct (ok c).
    + intros s1 s2 p E. apply (Hy (c :: s1) s2 p); [now rewrite E | discriminate].
  - apply andb_true_iff in Hx as [Ha Hx].
    now rewrite Ha, (IH Hx (Some a) Hk).
Qed.

(** A lazy quantifier stops at the first position the continuation accepts. *)
Lemma many_lazy_first (ok : N -> bool) (caps : list (nat * list N))
    (k : mstate -> option mstate) (x y : list N) (prev : option N) (r : mstate) :
  forallb ok x = true ->
  (forall x1 x2 p, x = x1 ++ x2 -> x2 <> [] -> k (MState p (x2 ++ y) caps) = None) ->
  k (MState (prev_after x prev) y caps) = Some r ->
  many ok false caps prev (x ++ y) k = Some r.
Proof.
  intros Hx. revert prev.
  induction x as [|a x IH]; intros prev Hf Hk; simpl in *.
  - destruct y as [|c y]; simpl; [exact Hk | now rewrite Hk].
  - apply andb_true_iff in Hx as [Ha Hx].
    assert (H0 := Hf [] (a :: x) prev eq_refl ltac:(discriminate)).
    simpl in H0. rewrite H0, Ha. apply IH; [assumption | | assumption].
    intros x1 x2 p E Hne. apply (Hf (a :: x1) x2 p); [now rewrite E | assumption].
Qed.

(** ** Searching and replacing *)

Arguments replace_loop : simpl never.
Arguments search : simpl never.

Lemma search_unfold (f : flags) (r : regex) (prev : option N) (s : list N) :
  search f r prev s =
  match rx f r (MState prev s []) Some with
  | Some st =>
      Some (RMatch [] (firstn (length s - length (m_rest st)) s)
              (m_caps st) (m_prev st) (m_rest st))
  | None =>
      match s with
      | [] => None
      | c :: s' => option_map (shift [c]) (search f r (Some c) s')
      end
  end.
Proof. destruct s; reflexivity. Qed.

Lemma shift_nil (o : option rmatch) : option_map (shift []) o = o.
Proof. destruct o as [[b t c p a]|]; reflexivity. Qed.

(** The search passes over a stretch in which the pattern matches nowhere. *)
Lemma search_skip (f : flags) (r : regex) (x y : list N) (prev : option N) :
  (forall x1 x2, x = x1 ++ x2 -> x2 <> [] ->
     rx f r (MState (prev_after x1 prev) (x2 ++ y) []) Some = None) ->
  search f r prev (x ++ y) = option_map (shift x) (search f r (prev_after x prev) y).
Proof.
  revert prev; induction x as [|a x IH]; intros prev H.
  - simpl. symmetry. apply shift_nil.
  - rewrite search_unfold.
    assert (H0 := H [] (a :: x) eq_refl ltac:(discriminate)). simpl in H0.
    simpl app. rewrite H0, IH.
    + simpl. destruct (search f r _ y); reflexivity.
    + intros x1 x2 E Hne. apply (H (a :: x1) x2); [now rewrite E | assumption].
Qed.

Lemma expand_shift (rp : replacement) (x : list N) (m : rmatch) :
  expand rp (shift x m) = expand rp m.
Proof. destruct rp; reflexivity. Qed.

Lemma replace_loop_unfold (n : nat) (f : flags) (r : regex) (rp : replacement)
    (prev : option N) (s : list N) :
  replace_loop (S n) f r rp prev s =
  match search f r prev s with
  | None => s
  | Some m =>
      r_before m ++ expand rp m ++
      match r_text m with
      | [] =>
          match r_after m with
          | [] => []
          | c :: s' => c :: replace_loop n f r rp (Some c) s'
          end
      | _ :: _ => replace_loop n f r rp (r_prev m) (r_after m)
      end
  end.
Proof. reflexivity. Qed.

(** A global replace copies a stretch in which the pattern matches nowhere. *)
Lemma replace_loop_skip (n : nat) (f : flags) (r : regex) (rp : replacement)
    (x y : list N) (prev : option N) :
  (forall x1 x2, x = x1 ++ x2 -> x2 <> [] ->
     rx f r (MState (prev_after x1 prev) (x2 ++ y) []) Some = None) ->
  replace_loop (S n) f r rp prev (x ++ y)
  = x ++ replace_loop (S n) f r rp (prev_after x prev) y.
Proof.
  intros H. rewrite !replace_loop_unfold, (search_skip f r x y prev H).
  destruct (search f r (prev_after x prev) y) as [m|]; simpl; [| reflexivity].
  rewrite expand_shift, <- app_assoc. reflexivity.
Qed.

(** A global replace at a position where the pattern matches a non-empty
    text: the replacement, then the loop goes on after the match. *)
Lemma replace_loop_hit (n : nat) (f : flags) (r : regex) (rp : replacement)
    (prev : option N) (t rest : list N) (st : mstate) :
  rx f r (MState prev (t ++ rest) []) Some = Some st ->
  m_rest st = rest ->
  t <> [] ->
  replace_loop (S n) f r rp prev (t ++ rest)
  = expand rp (RMatch [] t (m_caps st) (m_prev st) rest)
    ++ replace_loop n f r rp (m_prev st) rest.
Proof.
  intros H Hr Ht. rewrite replace_loop_unfold, search_unfold, H, Hr.
  rewrite firstn_sub_app. simpl.
  destruct t; [congruence | reflexivity].
Qed.

(** Nothing is left to replace in the empty text when the pattern needs a
    character. *)
Lemma replace_loop_nil (n : nat) (f : flags) (r : regex) (rp : replacement)
    (prev : option N) :
  rx f r (MState prev [] []) Some = None ->
  replace_loop n f r rp prev [] = [].
Proof.
  intros H. destruct n; [reflexivity |].
  now rewrite replace_loop_unfold, search_unfold, H.
Qed.

(** A global replace of a one-character pattern works character by
    character. *)
Lemma replace_loop_atom (f : flags) (a : atom) (rp : replacement) (s : list N) :
  forall (n : nat) (prev : option N),
  (length s < n)%nat ->
  replace_loop n f (One a) rp prev s
  = flat_map (fun c => if atom_ok f a c
                       then expand rp (RMatch [] [c] [] (Some c) []) else [c]) s.
Proof.
  induction s as [|c s IH]; intros n prev Hn.
  - now apply replace_loop_nil.
  - destruct n as [|n]; [simpl in Hn; lia |].
    simpl in Hn. cbn [flat_map].
    destruct (atom_ok f a c) eqn:E.
    + change (c :: s) with ([c] ++ s).
      rewrite (replace_loop_hit n f (One a) rp prev [c] s (MState (Some c) s []));
        [| simpl; now rewrite E | reflexivity | discriminate].
      simpl m_prev. rewrite IH by lia. reflexivity.
    + change (c :: s) with ([c] ++ s).
      rewrite (replace_loop_skip n f (One a) rp [c] s prev).
      * cbn [app]. f_equal. apply IH. lia.
      * intros x1 x2 Ex Hne.
        destruct x1 as [|? [|]]; simpl in Ex; try discriminate.
        -- subst x2. simpl. now rewrite E.
        -- injection Ex as _ Ex. symmetry in Ex. contradiction.
Qed.

Lemma replace_atom (a : atom) (rp : replacement) (s : list N) :
  replace F_g (One a) rp s
  = flat_map (fun c => if atom_ok F_g a c
                       then expand rp (RMatch [] [c] [] (Some c) []) else [c]) s.
Proof. unfold replace. cbn [global F_g]. apply replace_loop_atom. lia. Qed.

(** ** escapeHtml *)

Lemma entity_of_reserved (c : N) :
  is_reserved c = true -> entity_of [c] = escape_char c.
Proof.
  unfold is_reserved, escape_char. intros H.
  destruct (c =? 60) eqn:E1; [apply N.eqb_eq in E1; subst; reflexivity |].
  destruct (c =? 62) eqn:E2; [apply N.eqb_eq in E2; subst; reflexivity |].
  destruct (c =? 38) eqn:E3; [apply N.eqb_eq in E3; subst; reflexivity |].
  destruct (c =? 34) eqn:E4; [apply N.eqb_eq in E4; subst; reflexivity |].
  destruct (c =? 39) eqn:E5; [apply N.eqb_eq in E5; subst; reflexivity |].
  discriminate.
Qed.

Lemma escape_char_other (c : N) : is_reserved c = false -> escape_char c = [c].
Proof.
  unfold is_reserved, escape_char. intros H.
  repeat (apply orb_false_elim in H as [H ?]).
  now repeat match goal with E : (_ =? _) = false |- _ => rewrite E; clear E end.
Qed.

Lemma escapeHtml_flat_map (s : list N) : escapeHtml s = escape_spec s.
Proof.
  unfold escapeHtml, escape_spec. rewrite replace_atom.
  apply flat_map_ext. intros c. cbn [atom_ok expand r_text].
  destruct (is_reserved c) eqn:E.
  - now apply entity_of_reserved.
  - symmetry. now apply escape_char_other.
Qed.

(** C5: for every text, [escapeHtml] returns the text in which the five
    reserved characters, and only they, are replaced by their entities (less
    than, greater than, ampersand, double quote, single quote), every other
    character staying in place; it is defined on every text. *)
Theorem escapeHtml_spec (s : list N) :
  escapeHtml s = flat_map escape_char s
  /\ escape_char 60 = lit "&lt;"
  /\ escape_char 62 = lit "&gt;"
  /\ escape_char 38 = lit "&amp;"
  /\ escape_char 34 = lit "&quot;"
  /\ escape_char 39 = lit "&#039;"
  /\ (forall c, c <> 60 -> c <> 62 -> c <> 38 -> c <> 34 -> c <> 39 ->
        escape_char c = [c]).
Proof.
  split; [apply escapeHtml_flat_map |].
  repeat (split; [reflexivity |]).
  intros c H1 H2 H3 H4 H5. apply escape_char_other. unfold is_reserved.
  apply N.eqb_neq in H1, H2, H3, H4, H5. now rewrite H1, H2, H3, H4, H5.
Qed.

Lemma escapeHtml_spec_witness :
  escapeHtml (lit "a<b>&c") = lit "a&lt;b&gt;&amp;c" /\ escape_char 97 = [97].
Proof.
  split.
  - rewrite (proj1 (escapeHtml_spec (lit "a<b>&c"))). reflexivity.
  - apply (proj2 (proj2 (proj2 (proj2 (proj2 (proj2 (escapeHtml_spec []))))))); lia.
Defined.

Lemma escape_spec_clean (s : list N) : has_reserved s = false -> escape_spec s = s.
Proof.
  induction s as [|c s IH]; simpl; intros H; [reflexivity |].
  apply orb_false_elim in H as [Hc Hs].
  rewrite (escape_char_other c Hc), (IH Hs). reflexivity.
Qed.

Lemma escape_char_length (c : N) : (1 <= length (escape_char c))%nat.
Proof.
  unfold escape_char.
  repeat match goal with |- context [if ?b then _ else _] => destruct b end;
    simpl; lia.
Qed.

Lemma escape_char_reserved_length (c : N) :
  is_reserved c = true -> (2 <= length (escape_char c))%nat.
Proof.
  unfold is_reserved, escape_char.
  repeat match goal with |- context [if ?b then _ else _] => destruct b end;
    simpl; intros; try lia; discriminate.
Qed.

Lemma escape_spec_length (s : list N) : (length s <= length (escape_spec s))%nat.
Proof.
  induction s as [|c s IH]; simpl; [lia |].
  rewrite length_app. pose proof (escape_char_length c). lia.
Qed.

Lemma escape_spec_grows (s : list N) :
  has_reserved s = true -> (length s < length (escape_spec s))%nat.
Proof.
  induction s as [|c s IH]; simpl; intros H; [discriminate |].
  rewrite length_app.
  destruct (is_reserved c) eqn:E.
  - pose proof (escape_char_reserved_length c E).
    pose proof (escape_spec_length s). lia.
  - pose proof (escape_char_length c). simpl in H. specialize (IH H). lia.
Qed.

Lemma escape_char_reserved_head (c : N) :
  is_reserved c = true -> exists t, escape_char c = 38 :: t.
Proof.
  unfold is_reserved, escape_char.
  repeat match goal with |- context [if ?b then _ else _] => destruct b end;
    simpl; intros; try discriminate; eexists; reflexivity.
Qed.

Lemma has_reserved_app (a b : list N) :
  has_reserved (a ++ b) = has_reserved a || has_reserved b.
Proof. apply existsb_app. Qed.

Lemma escape_spec_keeps_reserved (s : list N) :
  has_reserved s = true -> has_reserved (escape_spec s) = true.
Proof.
  induction s as [|c s IH]; simpl; intros H; [discriminate |].
  rewrite has_reserved_app.
  destruct (is_reserved c) eqn:E.
  - destruct (escape_char_reserved_head c E) as [t ->]. reflexivity.
  - simpl in H. rewrite (IH H). apply orb_true_r.
Qed.

(** C6: escaping twice equals escaping once exactly for the texts without a
    reserved character: such a text is left as it is, and a text with at least
    one reserved character changes again under a second escaping. *)
Theorem escapeHtml_idempotent_iff_clean (s : list N) :
  (has_reserved s = false ->
     escapeHtml (escapeHtml s) = escapeHtml s /\ escapeHtml s = s)
  /\ (has_reserved s = true -> escapeHtml (escapeHtml s) <> escapeHtml s).
Proof.
  rewrite !escapeHtml_flat_map. split; intros H.
  - rewrite !(escape_spec_clean s H). split; reflexivity.
  - intros Heq. apply escape_spec_keeps_reserved in H.
    apply escape_spec_grows in H. rewrite Heq in H. lia.
Qed.

Lemma escapeHtml_idempotent_iff_clean_witness :
  (escapeHtml (escapeHtml (lit "a b")) = escapeHtml (lit "a b")
   /\ escapeHtml (lit "a b") = lit "a b")
  /\ escapeHtml (escapeHtml (lit "a<b")) <> escapeHtml (lit "a<b").
Proof.
  split.
  - apply (proj1 (escapeHtml_idempotent_iff_clean (lit "a b"))). reflexivity.
  - apply (proj2 (escapeHtml_idempotent_iff_clean (lit "a<b"))). reflexivity.
Defined.

(** If [p] does not occur in [pre] followed by all but the last character of
    [p], then an occurrence of [p] right after [pre] is the leftmost one. *)
Lemma occurrence_leftmost (p pre t q t' : list N) :
  p <> [] ->
  includes (pre ++ removelast p) p = false ->
  pre ++ p ++ t = q ++ p ++ t' ->
  (length pre <= length q)%nat.
Proof.
  intros Hp Hinc E.
  destruct (le_lt_dec (length pre) (length q)) as [L | L]; [exact L | exfalso].
  apply app_eq_app in E as [l [[E1 E2] | [E1 E2]]].
  2:{ rewrite E1, length_app in L. lia. }
  assert (Hl : l <> []).
  { intros ->. rewrite app_nil_r in E1. subst q. lia. }
  rewrite E1, <- app_assoc in Hinc.
  pose proof (includes_false_suffix _ p q _ Hinc eq_refl) as Hnone.
  pose proof (app_removelast_last 0 Hp) as Hlast.
  assert (Hlen : (length p <= length (l ++ removelast p))%nat).
  { rewrite Hlast at 1. rewrite !length_app. simpl.
    destruct l; [congruence | simpl; lia]. }
  pose proof (strip_prefix_None_app p _ ([List.last p 0] ++ t) Hnone Hlen) as H.
  rewrite <- app_assoc, (app_assoc (removelast p)), <- Hlast, <- E2 in H.
  rewrite strip_prefix_app in H. discriminate.
Qed.

(** ** The version capture *)

Lemma search_none (f : flags) (r : regex) (s : list N) (prev : option N) :
  (forall x1 x2, s = x1 ++ x2 ->
     rx f r (MState (prev_after x1 prev) x2 []) Some = None) ->
  search f r prev s = None.
Proof.
  intros H. rewrite <- (app_nil_r s), search_skip.
  - rewrite search_unfold, (H s []); [reflexivity | now rewrite app_nil_r].
  - intros x1 x2 E _. rewrite app_nil_r. now apply H.
Qed.

(** The pattern [product/(\d+)] matches at a position exactly when the text
    there is the product name, a slash and a digit; it then captures the whole
    run of digits. *)
Lemma rx_version_hit (product : string) (prev : option N) (d : N)
    (ds post : list N) :
  is_digit d = true ->
  forallb is_digit ds = true ->
  match post with [] => True | c :: _ => is_digit c = false end ->
  exists st,
    rx F_plain (re_version product)
      (MState prev (lit product ++ 47 :: (d :: ds) ++ post) []) Some = Some st
    /\ m_caps st = [(1%nat, d :: ds)].
Proof.
  intros Hd Hds Hpost. unfold re_version. cbn [rx].
  rewrite rx_Str by now left.
  cbn [m_rest m_caps m_prev]. rewrite strip_prefix_app.
  cbn [atom_ok F_plain ignoreCase m_rest m_caps m_prev Plus rx digit app].
  rewrite N.eqb_refl, Hd.
  eexists. split.
  - eapply many_greedy_run; [exact Hds | exact Hpost | reflexivity].
  - cbn [m_caps m_rest].
    change (d :: ds ++ post) with ((d :: ds) ++ post).
    now rewrite firstn_sub_app.
Qed.

Lemma rx_version_inv (product : string) (prev : option N) (s : list N)
    (st : mstate) :
  rx F_plain (re_version product) (MState prev s []) Some = Some st ->
  exists d t, s = lit product ++ 47 :: d :: t /\ is_digit d = true.
Proof.
  unfold re_version. cbn [rx]. rewrite rx_Str by now left.
  cbn [m_rest m_caps m_prev].
  destruct (strip_prefix (lit product) s) as [t0|] eqn:E; [| discriminate].
  apply strip_prefix_Some in E. subst s.
  cbn [atom_ok F_plain ignoreCase m_rest m_caps m_prev Plus rx digit].
  destruct t0 as [|c t0]; [discriminate |].
  destruct (47 =? c) eqn:Ec; [| discriminate].
  apply N.eqb_eq in Ec; subst c.
  destruct t0 as [|d t]; [discriminate |].
  destruct (is_digit d) eqn:Ed; [| discriminate].
  intros _. now exists d, t.
Qed.

(** The captured version: the digits after the leftmost place where the
    product name, a slash and a digit stand. *)
Lemma version_of_leftmost (product : string) (pre ds post : list N) :
  ds <> [] ->
  forallb is_digit ds = true ->
  match post with [] => True | c :: _ => is_digit c = false end ->
  (forall q d q', is_digit d = true ->
     pre ++ lit product ++ 47 :: ds ++ post = q ++ lit product ++ 47 :: d :: q' ->
     (length pre <= length q)%nat) ->
  version_of (re_version product) (pre ++ lit product ++ 47 :: ds ++ post) = ds.
Proof.
  intros Hne Hds Hpost Hleft.
  destruct ds as [|d ds]; [congruence |].
  cbn [forallb] in Hds. apply andb_true_iff in Hds as [Hd Hds].
  unfold version_of, exec_group.
  rewrite search_skip.
  - destruct (rx_version_hit product (prev_after pre None) d ds post Hd Hds Hpost)
      as (st & Hst & Hcaps).
    rewrite search_unfold, Hst. cbn [option_map shift r_caps].
    rewrite Hcaps. reflexivity.
  - intros x1 x2 E Hx2.
    destruct (rx F_plain (re_version product) _ Some) as [st|] eqn:Hrx;
      [| reflexivity].
    apply rx_version_inv in Hrx as (d' & t & Et & Hd').
    exfalso. specialize (Hleft x1 d' t Hd').
    rewrite E, <- app_assoc, Et in Hleft. specialize (Hleft eq_refl).
    rewrite length_app in Hleft. destruct x2; [congruence | simpl in Hleft; lia].
Qed.

Lemma version_of_absent (product : string) (ua : list N) :
  (forall q d q', is_digit d = true -> ua <> q ++ lit product ++ 47 :: d :: q') ->
  version_of (re_version product) ua = unknown.
Proof.
  intros H. unfold version_of, exec_group.
  rewrite search_none; [reflexivity |].
  intros x1 x2 E.
  destruct (rx F_plain (re_version product) _ Some) as [st|] eqn:Hrx;
    [| reflexivity].
  apply rx_version_inv in Hrx as (d & t & Et & Hd).
  exfalso. apply (H x1 d t Hd). now rewrite E, Et.
Qed.

(** C2 (amended): for a user agent with [Chrome] and without [Edg] and [OPR],
    the name is [Chrome]; the version is the run of digits after the leftmost
    [Chrome/] that a digit follows, and [Unknown] when no [Chrome/] is followed
    by a digit. *)
Theorem chrome_name_and_version {number : Type} (nav : navigator number) :
  let ua := userAgent nav in
  includes ua (lit "Chrome") = true ->
  includes ua (lit "Edg") = false ->
  includes ua (lit "OPR") = false ->
  bi_name (getBrowserInfo nav) = lit "Chrome"
  /\ (forall pre ds post,
        ua = pre ++ lit "Chrome/" ++ ds ++ post ->
        ds <> [] ->
        forallb is_digit ds = true ->
        match post with [] => True | c :: _ => is_digit c = false end ->
        (forall q d q', is_digit d = true ->
           ua = q ++ lit "Chrome/" ++ d :: q' -> (length pre <= length q)%nat) ->
        bi_version (getBrowserInfo nav) = ds)
  /\ ((forall q d q', is_digit d = true -> ua <> q ++ lit "Chrome/" ++ d :: q') ->
      bi_version (getBrowserInfo nav) = lit "Unknown").
Proof.
  intros ua HC HE HO.
  assert (Hlit : forall t, lit "Chrome/" ++ t = lit "Chrome" ++ 47 :: t)
    by reflexivity.
  unfold getBrowserInfo, detect_browser; cbn [bi_name bi_version].
  fold ua. rewrite HC, HE, HO. cbn [andb negb fst snd].
  split; [reflexivity |]. split.
  - intros pre ds post E Hne Hds Hpost Hleft.
    rewrite E, Hlit. apply version_of_leftmost; try assumption.
    intros q d q' Hd Eq. apply (Hleft q d q' Hd).
    now rewrite E, !Hlit.
  - intros Habs. apply version_of_absent.
    intros q d q' Hd Eq. apply (Habs q d q' Hd). now rewrite Hlit.
Qed.

Lemma chrome_name_and_version_witness :
  let nav := nav_of (lit "Mozilla/5.0 (X11; Linux x86_64) AppleWebKit/537.36 (KHTML, like Gecko) Chrome/120.0.0.0 Safari/537.36") in
  bi_name (getBrowserInfo nav) = lit "Chrome"
  /\ bi_version (getBrowserInfo nav) = lit "120".
Proof.
  pose proof (chrome_name_and_version
    (nav_of (lit "Mozilla/5.0 (X11; Linux x86_64) AppleWebKit/537.36 (KHTML, like Gecko) Chrome/120.0.0.0 Safari/537.36"))
    eq_refl eq_refl eq_refl) as (Hn & Hv & _).
  split; [exact Hn |].
  apply (Hv (lit "Mozilla/5.0 (X11; Linux x86_64) AppleWebKit/537.36 (KHTML, like Gecko) ")
            (lit "120") (lit ".0.0.0 Safari/537.36")).
  - reflexivity.
  - discriminate.
  - reflexivity.
  - reflexivity.
  - intros q d q' Hd E.
    apply (occurrence_leftmost (lit "Chrome/") _ (lit "120.0.0.0 Safari/537.36")
             q (d :: q')); [discriminate | reflexivity | exact E].
Defined.

(** C2, as stated, fails on a user agent that names Chrome without a version:
    there is no [Chrome/] at all, and the version is [Unknown], which is not a
    run of digits. *)
Lemma chrome_version_counterexample :
  let ua := lit "Mozilla/5.0 (compatible; Chrome)" in
  includes ua (lit "Chrome") = true
  /\ includes ua (lit "Edg") = false
  /\ includes ua (lit "OPR") = false
  /\ includes ua (lit "Chrome/") = false
  /\ bi_version (getBrowserInfo (nav_of ua)) = lit "Unknown"
  /\ forallb is_digit (bi_version (getBrowserInfo (nav_of ua))) = false
  /\ ~ (exists pre post,
          ua = pre ++ lit "Chrome/" ++ bi_version (getBrowserInfo (nav_of ua)) ++ post).
Proof.
  cbv zeta. repeat (split; [vm_compute; reflexivity |]).
  intros (pre & post & E).
  assert (H : includes (lit "Mozilla/5.0 (compatible; Chrome)") (lit "Chrome/") = true).
  { rewrite E. apply includes_true_intro. }
  vm_compute in H. discriminate.
Qed.

(** ** Code spans and code blocks *)

Lemma any_char_true (s : list N) : forallb any_char s = true.
Proof.
  induction s as [|c s IH]; simpl; [reflexivity |].
  rewrite IH. unfold any_char. now rewrite orb_negb_r.
Qed.

Lemma strip_backticks_none (x t : list N) :
  x <> [] -> forallb not_backtick x = true ->
  strip_prefix (lit "```") (x ++ t) = None.
Proof.
  destruct x as [|e x]; [congruence |]. cbn [forallb app]. intros _ H.
  apply andb_true_iff in H as [H _]. unfold not_backtick in H.
  apply negb_true_iff in H. rewrite N.eqb_sym in H.
  change (lit "```") with [96; 96; 96]. cbn [strip_prefix]. now rewrite H.
Qed.

Lemma forallb_suffix (ok : N -> bool) (c x1 x2 : list N) :
  forallb ok c = true -> c = x1 ++ x2 -> forallb ok x2 = true.
Proof. intros H ->. rewrite forallb_app in H. now apply andb_true_iff in H. Qed.

(** An inline span: backtick, a non-empty text without backticks, backtick. *)
Lemma rx_code_span (prev : option N) (c : list N) :
  c <> [] -> forallb not_backtick c = true ->
  exists st,
    rx F_g re_code (MState prev ((96 :: c ++ [96]) ++ []) []) Some = Some st
    /\ m_rest st = [] /\ m_caps st = [(1%nat, c)].
Proof.
  intros Hne Hc. destruct c as [|d ds]; [congruence |].
  cbn [forallb] in Hc. apply andb_true_iff in Hc as [Hd Hds].
  unfold re_code, Plus. rewrite app_nil_r.
  cbn [rx atom_ok F_g ignoreCase m_rest m_caps m_prev app].
  rewrite N.eqb_refl, Hd.
  eexists. split; [| split].
  - eapply many_greedy_run; [exact Hds | reflexivity | reflexivity].
  - reflexivity.
  - cbn [m_caps m_rest].
    change (d :: ds ++ [96]) with ((d :: ds) ++ [96]).
    now rewrite firstn_sub_app.
Qed.

Lemma inlineCode_span (c : list N) :
  c <> [] -> forallb not_backtick c = true ->
  inlineCode (96 :: c ++ [96]) = lit "<code>" ++ c ++ lit "</code>".
Proof.
  intros Hne Hc. unfold inlineCode, replace. cbn [global F_g].
  destruct (rx_code_span None c Hne Hc) as (st & Hst & Hrest & Hcaps).
  rewrite <- (app_nil_r (96 :: c ++ [96])) at 2.
  rewrite (replace_loop_hit _ _ _ _ _ _ _ st Hst Hrest) by discriminate.
  rewrite replace_loop_nil by reflexivity.
  unfold tmpl, expand. cbn [flat_map expand_piece r_caps]. rewrite Hcaps.
  cbn [group Nat.eqb]. now rewrite !app_nil_r.
Qed.

(** Removing the fences from a fenced block without other backticks. *)
Lemma remove_fences (c : list N) (n : nat) (prev : option N) :
  forallb not_backtick c = true ->
  replace_loop (S (S n)) F_g (Str (lit "```")) (Template []) prev
    (lit "```" ++ c ++ lit "```") = c.
Proof.
  intros Hc.
  rewrite (replace_loop_hit _ _ _ _ _ (lit "```") (c ++ lit "```")
             (MState (Some 96) (c ++ lit "```") []));
    [| rewrite rx_Str by (now left); cbn [m_rest]; now rewrite strip_prefix_app
     | reflexivity | discriminate].
  cbn [expand flat_map app m_prev].
  rewrite replace_loop_skip.
  - rewrite <- (app_nil_r (lit "```")).
    rewrite (replace_loop_hit _ _ _ _ _ (lit "```") []
               (MState (Some 96) [] []));
      [| rewrite rx_Str by (now left); cbn [m_rest]; now rewrite strip_prefix_app
       | reflexivity | discriminate].
    rewrite replace_loop_nil by reflexivity.
    cbn [expand flat_map app]. apply app_nil_r.
  - intros x1 x2 E Hx2. rewrite rx_Str by now left. cbn [m_rest].
    rewrite strip_backticks_none; [reflexivity | assumption |].
    now apply (forallb_suffix _ c x1 x2).
Qed.

(** A fenced block without other backticks is matched whole. *)
Lemma rx_fence (prev : option N) (c : list N) :
  forallb not_backtick c = true ->
  exists st,
    rx F_g re_fence (MState prev ((lit "```" ++ c ++ lit "```") ++ []) []) Some
    = Some st
    /\ m_rest st = [] /\ m_caps st = [].
Proof.
  intros Hc. unfold re_fence. rewrite app_nil_r. cbn [rx].
  rewrite rx_Str by now left.
  cbn [m_rest m_caps m_prev]. rewrite strip_prefix_app.
  cbn [atom_ok].
  eexists. split; [| split].
  - eapply many_lazy_first.
    + apply any_char_true.
    + intros x1 x2 p E Hx2. rewrite rx_Str by now left. cbn [m_rest].
      rewrite strip_backticks_none; [reflexivity | assumption |].
      now apply (forallb_suffix _ c x1 x2).
    + rewrite rx_Str by now left. cbn [m_rest m_caps m_prev].
      rewrite <- (app_nil_r (lit "```")) at 2. rewrite strip_prefix_app.
      reflexivity.
  - reflexivity.
  - reflexivity.
Qed.

Lemma codeBlocks_fence (c : list N) :
  forallb not_backtick c = true ->
  codeBlocks (lit "```" ++ c ++ lit "```")
  = lit "<pre><code>" ++ escapeHtml (trim c) ++ lit "</code></pre>".
Proof.
  intros Hc. unfold codeBlocks, replace. cbn [global F_g].
  destruct (rx_fence None c Hc) as (st & Hst & Hrest & Hcaps).
  rewrite <- (app_nil_r (lit "```" ++ c ++ lit "```")) at 2.
  rewrite (replace_loop_hit _ _ _ _ _ _ _ st Hst Hrest) by discriminate.
  rewrite replace_loop_nil by reflexivity.
  cbn [expand]. unfold fence_callback, replace. cbn [global F_g r_text].
  change (length (lit "```" ++ c ++ lit "```"))
    with (S (S (S (length (c ++ lit "```"))))).
  rewrite remove_fences by assumption.
  now rewrite app_nil_r.
Qed.

(** C10: an inline code span is copied into its [code] element as it is, a
    fenced block is escaped; in particular the span with the content [a<b&c]
    comes out of [parseMarkdown] unescaped, while the same content in a fenced
    block comes out escaped. *)
Theorem inline_code_not_escaped :
  (forall c, c <> [] -> forallb not_backtick c = true ->
     inlineCode (96 :: c ++ [96]) = lit "<code>" ++ c ++ lit "</code>")
  /\ (forall c, forallb not_backtick c = true ->
        codeBlocks (lit "```" ++ c ++ lit "```")
        = lit "<pre><code>" ++ escapeHtml (trim c) ++ lit "</code></pre>")
  /\ parseMarkdown (lit "`a<b&c`") = lit "<code>a<b&c</code>"
  /\ parseMarkdown (lit "Use `a<b&c` here") = lit "<p>Use <code>a<b&c</code> here</p>"
  /\ parseMarkdown (lit "```" ++ [nl] ++ lit "a<b&c" ++ [nl] ++ lit "```")
     = lit "<pre><code>a&lt;b&amp;c</code></pre>".
Proof.
  split; [exact inlineCode_span |].
  split; [exact codeBlocks_fence |].
  repeat split; vm_compute; reflexivity.
Qed.

Lemma inline_code_not_escaped_witness :
  inlineCode (96 :: lit "a<b&c" ++ [96]) = lit "<code>" ++ lit "a<b&c" ++ lit "</code>"
  /\ codeBlocks (lit "```" ++ lit " x<y " ++ lit "```")
     = lit "<pre><code>" ++ escapeHtml (trim (lit " x<y ")) ++ lit "</code></pre>".
Proof.
  split.
  - apply (proj1 inline_code_not_escaped); [discriminate | reflexivity].
  - apply (proj1 (proj2 inline_code_not_escaped)). reflexivity.
Defined.

(** ** The list container *)

Lemma dot_all_true (s : list N) : forallb (atom_ok F_s ADot) s = true.
Proof. induction s as [|c s IH]; simpl; [reflexivity | exact IH]. Qed.

(** From the first [<li>] the pattern runs to the last [</li>] of the text. *)
Lemma rx_items_hit (prev : option N) (mid post : list N) :
  includes (lit "/li>" ++ post) (lit "</li>") = false ->
  exists st,
    rx F_s re_items
      (MState prev ((lit "<li>" ++ mid ++ lit "</li>") ++ post) []) Some = Some st
    /\ m_rest st = post
    /\ m_caps st = [(1%nat, lit "<li>" ++ mid ++ lit "</li>")].
Proof.
  intros Hlast. unfold re_items. cbn [rx].
  rewrite rx_Str by now left.
  cbn [m_rest m_caps m_prev]. rewrite <- !app_assoc, strip_prefix_app.
  eexists. split; [| split].
  - eapply many_greedy_last.
    + apply dot_all_true.
    + intros y1 y2 p E Hy1. rewrite rx_Str by now left. cbn [m_rest].
      destruct y1 as [|c y1]; [congruence |].
      change (lit "</li>" ++ post) with (60 :: lit "/li>" ++ post) in E.
      injection E as _ E.
      now rewrite (includes_false_suffix _ _ y1 y2 Hlast E).
    + rewrite rx_Str by now left. cbn [m_rest m_caps m_prev].
      rewrite strip_prefix_app. reflexivity.
  - reflexivity.
  - cbn [m_caps m_rest]. f_equal. f_equal.
    rewrite (app_assoc (lit "<li>")), (app_assoc _ (lit "</li>")).
    rewrite <- (app_assoc (lit "<li>")).
    apply firstn_sub_app.
Qed.

Lemma rx_items_miss (prev : option N) (s : list N) :
  strip_prefix (lit "<li>") s = None ->
  rx F_s re_items (MState prev s []) Some = None.
Proof.
  intros H. unfold re_items. cbn [rx]. rewrite rx_Str by now left.
  cbn [m_rest]. now rewrite H.
Qed.

(** The container rule runs once: one [ul] element from the first [<li>] to
    the last [</li>]. *)
Lemma listContainer_once (pre mid post : list N) :
  includes (pre ++ lit "<li") (lit "<li>") = false ->
  includes (lit "/li>" ++ post) (lit "</li>") = false ->
  listContainer (pre ++ (lit "<li>" ++ mid ++ lit "</li>") ++ post)
  = pre ++ lit "<ul>" ++ (lit "<li>" ++ mid ++ lit "</li>") ++ lit "</ul>" ++ post.
Proof.
  intros Hfirst Hlast. unfold listContainer, replace. cbn [global F_s].
  destruct (rx_items_hit (prev_after pre None) mid post Hlast)
    as (st & Hst & Hrest & Hcaps).
  rewrite search_skip.
  - rewrite search_unfold, Hst, Hrest, firstn_sub_app.
    unfold tmpl, expand.
    cbn [option_map shift r_before r_after r_caps r_text r_prev flat_map
         expand_piece].
    rewrite Hcaps. cbn [group Nat.eqb].
    now rewrite !app_nil_r, <- !app_assoc.
  - intros x1 x2 E Hx2. apply rx_items_miss.
    rewrite E, <- app_assoc in Hfirst.
    pose proof (includes_false_suffix _ _ x1 _ Hfirst eq_refl) as Hnone.
    rewrite <- !app_assoc.
    change (lit "<li>" ++ mid ++ lit "</li>" ++ post)
      with (lit "<li" ++ 62 :: mid ++ lit "</li>" ++ post).
    rewrite app_assoc. apply strip_prefix_None_app; [exact Hnone |].
    rewrite length_app. destruct x2; [congruence | simpl; lia].
Qed.


(** ** The line rules *)

Lemma strip_prefix_line (m l R : list N) :
  strip_prefix m l = None ->
  no_terminator m = true ->
  match R with [] => True | c :: _ => is_line_terminator c = true end ->
  strip_prefix m (l ++ R) = None.
Proof.
  revert l; induction m as [|a m IH]; intros l H Hm HR; [discriminate |].
  cbn [no_terminator forallb] in Hm. apply andb_true_iff in Hm as [Ha Hm].
  destruct l as [|d l]; cbn [app strip_prefix] in *.
  - destruct R as [|c R]; [reflexivity |].
    destruct (a =? c) eqn:E; [| reflexivity].
    apply N.eqb_eq in E; subst c. rewrite HR in Ha. discriminate.
  - destruct (a =? d); [| reflexivity]. now apply IH.
Qed.

Lemma prev_after_last (x : list N) (prev : option N) :
  x <> [] -> exists c, prev_after x prev = Some c /\ In c x.
Proof.
  revert prev; induction x as [|a x IH]; intros prev Hx; [congruence |].
  destruct x as [|b x].
  - exists a. split; [reflexivity | now left].
  - destruct (IH (Some a) ltac:(discriminate)) as (c & Hc & Hin).
    exists c. split; [exact Hc | now right].
Qed.

Lemma no_terminator_In (l : list N) (c : N) :
  no_terminator l = true -> In c l -> is_line_terminator c = false.
Proof.
  unfold no_terminator. rewrite forallb_forall. intros H Hin.
  apply negb_true_iff. now apply H.
Qed.

Lemma no_terminator_app (a b : list N) :
  no_terminator (a ++ b) = no_terminator a && no_terminator b.
Proof. apply forallb_app. Qed.

Section LineRule.

Variables marker open close : string.
Hypothesis marker_nonempty : lit marker <> [].
Hypothesis marker_caseless : caseless (lit marker) = true.
Hypothesis marker_one_line : no_terminator (lit marker) = true.

Lemma rx_line_miss (prev : option N) (s : list N) :
  strip_prefix (lit marker) s = None ->
  rx F_gim (re_line marker) (MState prev s []) Some = None.
Proof.
  intros H. unfold re_line. cbn [rx].
  destruct (at_bol F_gim _); [| reflexivity].
  rewrite rx_Str by now right. cbn [m_rest]. now rewrite H.
Qed.

Lemma rx_line_inside (c : N) (s : list N) :
  is_line_terminator c = false ->
  rx F_gim (re_line marker) (MState (Some c) s []) Some = None.
Proof.
  intros H. unfold re_line. cbn [rx at_bol m_prev multiline F_gim andb].
  now rewrite H.
Qed.

Lemma rx_line_hit (prev : option N) (t R : list N) :
  line_start prev = true ->
  no_terminator t = true ->
  match R with [] => True | c :: _ => is_line_terminator c = true end ->
  exists st,
    rx F_gim (re_line marker) (MState prev ((lit marker ++ t) ++ R) []) Some
    = Some st
    /\ m_rest st = R /\ m_caps st = [(1%nat, t)].
Proof.
  intros Hprev Ht HR. unfold re_line. cbn [rx].
  assert (Hbol : at_bol F_gim (MState prev ((lit marker ++ t) ++ R) []) = true).
  { unfold at_bol. cbn [m_prev]. destruct prev; [exact Hprev | reflexivity]. }
  rewrite Hbol, rx_Str by now right.
  cbn [m_rest m_caps m_prev]. rewrite <- app_assoc, strip_prefix_app.
  eexists. split; [| split].
  - eapply many_greedy_run.
    + unfold no_terminator in Ht. exact Ht.
    + destruct R as [|c R]; [exact I |].
      cbn [atom_ok dotAll F_gim orb]. now rewrite HR.
    + cbn [rx]. unfold at_eol. cbn [m_rest multiline F_gim andb].
      destruct R as [|c R]; [reflexivity |]. rewrite HR. reflexivity.
  - reflexivity.
  - cbn [m_caps m_rest]. now rewrite firstn_sub_app.
Qed.

(** The loop steps over a line terminator. *)
Lemma newline_step (n : nat) (prev : option N) (c : N) (T : list N) :
  is_line_terminator c = true ->
  (length (c :: T) < n)%nat ->
  replace_loop n F_gim (re_line marker) (tmpl open close) prev (c :: T)
  = c :: replace_loop n F_gim (re_line marker) (tmpl open close) (Some c) T.
Proof.
  intros Hc Hn. destruct n as [|n]; [simpl in Hn; lia |].
  change (c :: T) with ([c] ++ T) at 1. rewrite replace_loop_skip; [reflexivity |].
  intros x1 x2 E Hx2. apply rx_line_miss.
  destruct x1 as [|a x1].
  - cbn [app] in E. subst x2.
    apply (strip_prefix_line (lit marker) [] (c :: T));
      [| assumption | exact Hc].
    destruct (lit marker); [congruence | reflexivity].
  - injection E as _ E. destruct x1; [| discriminate].
    cbn [app] in E. congruence.
Qed.

(** One line: wrapped when it starts with the marker, copied otherwise. *)
Lemma line_step (n : nat) (prev : option N) (l R : list N) :
  line_start prev = true ->
  no_terminator l = true ->
  match R with [] => True | c :: _ => is_line_terminator c = true end ->
  (length (l ++ R) < n)%nat ->
  exists n' prev',
    (length R < n')%nat
    /\ replace_loop n F_gim (re_line marker) (tmpl open close) prev (l ++ R)
       = wrap_line marker open close l
         ++ replace_loop n' F_gim (re_line marker) (tmpl open close) prev' R.
Proof.
  intros Hprev Hl HR Hn. destruct n as [|n]; [lia |].
  unfold wrap_line.
  destruct (strip_prefix (lit marker) l) as [t|] eqn:E.
  - apply strip_prefix_Some in E. subst l.
    rewrite no_terminator_app in Hl. apply andb_true_iff in Hl as [_ Ht].
    destruct (rx_line_hit prev t R Hprev Ht HR) as (st & Hst & Hrest & Hcaps).
    exists n, (m_prev st). split.
    + rewrite !length_app in Hn.
      destruct (lit marker); [congruence | simpl in Hn; lia].
    + rewrite (replace_loop_hit _ _ _ _ _ _ _ st Hst Hrest).
      * unfold tmpl, expand. cbn [flat_map expand_piece r_caps].
        rewrite Hcaps. cbn [group Nat.eqb].
        now rewrite !app_nil_r, <- !app_assoc.
      * destruct (lit marker); [congruence | discriminate].
  - exists (S n), (prev_after l prev). split; [rewrite length_app in Hn; lia |].
    apply replace_loop_skip.
    intros x1 x2 Ex Hx2. destruct x1 as [|a x1].
    + cbn [app] in Ex. subst x2. apply rx_line_miss.
      now apply strip_prefix_line.
    + destruct (prev_after_last (a :: x1) prev ltac:(discriminate))
        as (c & Hc & Hin).
      rewrite Hc. apply rx_line_inside.
      apply (no_terminator_In l); [assumption |].
      rewrite Ex. apply in_or_app. now left.
Qed.

(** A line rule over a text of lines joined by newlines works line by line. *)
Lemma replace_lines (lines : list (list N)) :
  forall (n : nat) (prev : option N),
  line_start prev = true ->
  forallb no_terminator lines = true ->
  (length (join lines [nl]) < n)%nat ->
  replace_loop n F_gim (re_line marker) (tmpl open close) prev (join lines [nl])
  = join (map (wrap_line marker open close) lines) [nl].
Proof.
  induction lines as [|l rest IH]; intros n prev Hprev Hlines Hn.
  - apply replace_loop_nil, rx_line_miss.
    destruct (lit marker); [congruence | reflexivity].
  - cbn [forallb] in Hlines. apply andb_true_iff in Hlines as [Hl Hrest].
    destruct rest as [|l2 rest].
    + cbn [join map] in *. rewrite <- (app_nil_r l) in Hn |- * at 1.
      destruct (line_step n prev l [] Hprev Hl I Hn) as (n' & prev' & _ & ->).
      rewrite replace_loop_nil; [apply app_nil_r |].
      apply rx_line_miss. destruct (lit marker); [congruence | reflexivity].
    + change (join (l :: l2 :: rest) [nl])
        with (l ++ nl :: join (l2 :: rest) [nl]) in *.
      change (join (map (wrap_line marker open close) (l :: l2 :: rest)) [nl])
        with (wrap_line marker open close l
              ++ nl :: join (map (wrap_line marker open close) (l2 :: rest)) [nl]).
      destruct (line_step n prev l (nl :: join (l2 :: rest) [nl]) Hprev Hl
                  eq_refl Hn) as (n' & prev' & Hn' & ->).
      rewrite newline_step by (reflexivity || exact Hn').
      f_equal. f_equal. apply IH; [reflexivity | exact Hrest |].
      cbn [length] in Hn'. lia.
Qed.

Lemma wrap_line_one_line (l : list N) :
  no_terminator (lit open) = true -> no_terminator (lit close) = true ->
  no_terminator l = true -> no_terminator (wrap_line marker open close l) = true.
Proof.
  intros Ho Hc Hl. unfold wrap_line.
  destruct (strip_prefix (lit marker) l) as [t|] eqn:E; [| exact Hl].
  apply strip_prefix_Some in E. subst l.
  rewrite no_terminator_app in Hl. apply andb_true_iff in Hl as [_ Ht].
  now rewrite !no_terminator_app, Ho, Ht, Hc.
Qed.

End LineRule.

Lemma item_line_two_rules (l : list N) :
  wrap_line "- " "<li>" "</li>" (wrap_line "* " "<li>" "</li>" l) = item_line l.
Proof.
  unfold wrap_line, item_line.
  destruct (strip_prefix (lit "* ") l) as [t|]; reflexivity.
Qed.

(** The two item rules wrap each line that starts with a star or a dash and a
    space, and leave the other lines as they are. *)
Lemma listItems_lines (lines : list (list N)) :
  forallb no_terminator lines = true ->
  listItems (join lines [nl]) = join (map item_line lines) [nl].
Proof.
  intros Hlines. unfold listItems, replace. cbn [global F_gim].
  rewrite (replace_lines "* " "<li>" "</li>") by
    (discriminate || reflexivity || assumption || lia).
  rewrite (replace_lines "- " "<li>" "</li>");
    try (discriminate || reflexivity || lia).
  - rewrite map_map. f_equal. apply map_ext. exact item_line_two_rules.
  - rewrite forallb_forall in Hlines |- *.
    intros l' Hin. apply in_map_iff in Hin as (l & <- & Hin).
    apply wrap_line_one_line; try reflexivity. now apply Hlines.
Qed.

(** C8 (amended): each line that starts with a star or a dash and a space is
    wrapped as one [li] element; the container rule then runs once over the
    whole text and puts a single [ul] element from the first [<li>] to the
    last [</li>], so two list runs and the text between them end up in the
    same container. *)
Theorem list_rules :
  (forall lines, forallb no_terminator lines = true ->
     listItems (join lines [nl]) = join (map item_line lines) [nl])
  /\ (forall pre mid post,
        includes (pre ++ lit "<li") (lit "<li>") = false ->
        includes (lit "/li>" ++ post) (lit "</li>") = false ->
        listContainer (pre ++ (lit "<li>" ++ mid ++ lit "</li>") ++ post)
        = pre ++ lit "<ul>" ++ (lit "<li>" ++ mid ++ lit "</li>")
            ++ lit "</ul>" ++ post)
  /\ parseMarkdown (lit "* a" ++ [nl; nl] ++ lit "text" ++ [nl; nl] ++ lit "* b")
     = lit "<ul><li>a</li>" ++ [nl] ++ lit "<p>text</p>" ++ [nl]
         ++ lit "<li>b</li></ul>".
Proof.
  split; [exact listItems_lines |].
  split; [exact listContainer_once |].
  vm_compute. reflexivity.
Qed.

Lemma list_rules_witness :
  listItems (join [lit "* a"; lit "text"; lit "- b"] [nl])
  = join [lit "<li>a</li>"; lit "text"; lit "<li>b</li>"] [nl]
  /\ listContainer (lit "x " ++ (lit "<li>" ++ lit "a</li> text <li>b" ++ lit "</li>")
                      ++ lit " y")
     = lit "x " ++ lit "<ul>" ++ (lit "<li>" ++ lit "a</li> text <li>b" ++ lit "</li>")
         ++ lit "</ul>" ++ lit " y".
Proof.
  split.
  - apply (proj1 list_rules [lit "* a"; lit "text"; lit "- b"]). reflexivity.
  - apply (proj1 (proj2 list_rules)); reflexivity.
Defined.

(** C8, as stated, fails on two list runs with a paragraph between them: the
    output has one [ul] element, not two, and the paragraph lies inside it. *)
Lemma list_runs_counterexample :
  let out :=
    parseMarkdown (lit "* a" ++ [nl; nl] ++ lit "text" ++ [nl; nl] ++ lit "* b") in
  occurrences out (lit "<li>") = 2%nat
  /\ occurrences out (lit "<ul>") = 1%nat
  /\ occurrences out (lit "</ul>") = 1%nat
  /\ out = lit "<ul>" ++ (lit "<li>a</li>" ++ [nl] ++ lit "<p>text</p>" ++ [nl]
                          ++ lit "<li>b</li>") ++ lit "</ul>".
Proof. vm_compute. repeat split. Qed.

(** ** Paragraphs *)


(** [split] reads a stretch without separator into the current block. *)
Lemma split_loop_block (sep b R : list N) :
  (forall x1 x2, b = x1 ++ x2 -> x2 <> [] -> strip_prefix sep (x2 ++ R) = None) ->
  forall (cur : list N) (n : nat),
  (length (b ++ R) < n)%nat ->
  exists n', (length R < n')%nat
    /\ split_loop n sep cur (b ++ R) = split_loop n' sep (rev b ++ cur) R.
Proof.
  induction b as [|a b IH]; intros H cur n Hn.
  - exists n. split; [exact Hn | reflexivity].
  - destruct n as [|n]; [simpl in Hn; lia |].
    cbn [app split_loop].
    assert (H0 := H [] (a :: b) eq_refl ltac:(discriminate)).
    cbn [app] in H0. rewrite H0.
    destruct (IH (fun x1 x2 E => H (a :: x1) x2 (f_equal (cons a) E))
                (a :: cur) n) as (n' & Hn' & ->).
    { simpl in Hn. lia. }
    exists n'. split; [exact Hn' |].
    cbn [rev]. now rewrite <- app_assoc.
Qed.


Lemma wrapParagraph_tagged (b : list N) :
  startsWith b (lit "<") = true -> wrapParagraph b = b.
Proof. intros H. unfold wrapParagraph. now rewrite H. Qed.



(** ** The network lookup on concrete environments *)

(** Offline: the object that is returned has the four connection fields and
    nothing else. *)
Example getNetworkInfo_offline_example :
  exists i,
    fst (call_getNetworkInfo N dec_truthy dec_toString
           (nav_of (lit "curl/8.4.0")) offline) = Ok i
    /\ read i "connection" = JStr (lit "Unknown")
    /\ read i "ip" = JUndefined
    /\ read i "timezone" = JUndefined
    /\ size i = 4%nat.
Proof. eexists. split; [vm_compute; reflexivity |]. vm_compute. repeat split. Qed.

(** Only the secondary service answers: [ip] is its address, the other fields
    are still missing. *)
Example getNetworkInfo_only_ipify_example :
  exists i,
    fst (call_getNetworkInfo N dec_truthy dec_toString
           (nav_of (lit "curl/8.4.0")) only_ipify) = Ok i
    /\ read i "ip" = JStr (lit "203.0.113.7")
    /\ read i "city" = JUndefined
    /\ read i "isp" = JUndefined
    /\ size i = 5%nat.
Proof. eexists. split; [vm_compute; reflexivity |]. vm_compute. repeat split. Qed.

(** ** The loops have fuel enough

    A match never ends before the position where it starts, so every round of
    a global replace, and every step of [split], moves forward; with more fuel
    than characters the result does not depend on the fuel. *)

Lemma many_forward (ok : N -> bool) (g : bool) (caps : list (nat * list N))
    (k : mstate -> option mstate) (s : list N) (prev : option N) (res : mstate) :
  many ok g caps prev s k = Some res ->
  exists st', k st' = Some res /\ (length (m_rest st') <= length s)%nat.
Proof.
  revert prev; induction s as [|c s IH]; intros prev H; cbn [many] in H.
  - eexists; split; [exact H | simpl; lia].
  - assert (Hmore : (if ok c then many ok g caps (Some c) s k else None) = Some res ->
                    exists st', k st' = Some res
                                /\ (length (m_rest st') <= length (c :: s))%nat).
    { destruct (ok c); [| discriminate]. intros Hm.
      destruct (IH _ Hm) as (st' & Hk & Hlen).
      exists st'. split; [exact Hk | simpl; lia]. }
    assert (Hstop : k (MState prev (c :: s) caps) = Some res ->
                    exists st', k st' = Some res
                                /\ (length (m_rest st') <= length (c :: s))%nat).
    { intros Hk. eexists; split; [exact Hk | simpl; lia]. }
    destruct g.
    + destruct (if ok c then many ok true caps (Some c) s k else None) eqn:E.
      * injection H as ->. now apply Hmore.
      * now apply Hstop.
    + destruct (k (MState prev (c :: s) caps)) eqn:E.
      * injection H as ->. now apply Hstop.
      * now apply Hmore.
Qed.

Lemma rx_forward (f : flags) (r : regex) :
  forall (st : mstate) (k : mstate -> option mstate) (res : mstate),
  rx f r st k = Some res ->
  exists st', k st' = Some res /\ (length (m_rest st') <= length (m_rest st))%nat.
Proof.
  induction r as [| a | g a | | | r1 IH1 r2 IH2 | r1 IH1 r2 IH2 | n r IH];
    intros st k res H; cbn [rx] in H.
  - eexists; split; [exact H | lia].
  - destruct (m_rest st) as [|c s] eqn:E; [discriminate |].
    destruct (atom_ok f a c); [| discriminate].
    eexists; split; [exact H | simpl; lia].
  - now apply many_forward in H.
  - destruct (at_bol f st); [| discriminate]. eexists; split; [exact H | lia].
  - destruct (at_eol f st); [| discriminate]. eexists; split; [exact H | lia].
  - apply IH1 in H as (st1 & H & L1). apply IH2 in H as (st2 & H & L2).
    exists st2. split; [exact H | lia].
  - destruct (rx f r1 st k) eqn:E.
    + injection H as ->. now apply IH1 in E.
    + now apply IH2 in H.
  - apply IH in H as (st' & H & L). eexists; split; [exact H | exact L].
Qed.

Lemma search_forward (f : flags) (r : regex) (s : list N) :
  forall (prev : option N) (m : rmatch),
  search f r prev s = Some m ->
  (length (r_after m) <= length s)%nat
  /\ (r_text m <> [] -> length (r_after m) < length s)%nat.
Proof.
  induction s as [|c s IH]; intros prev m H; rewrite search_unfold in H.
  - destruct (rx f r _ Some) as [st|] eqn:E; [| discriminate].
    injection H as <-. cbn [r_after r_text].
    apply rx_forward in E as (st' & [= ->] & L). cbn [m_rest] in L.
    split; [exact L |]. simpl. congruence.
  - destruct (rx f r _ Some) as [st|] eqn:E.
    + injection H as <-. cbn [r_after r_text].
      apply rx_forward in E as (st' & [= ->] & L). cbn [m_rest] in L.
      split; [exact L |]. intros Ht.
      destruct (Nat.eq_dec (length (m_rest st)) (length (c :: s))) as [Heq | Hneq];
        [| lia].
      rewrite Heq, Nat.sub_diag in Ht. simpl in Ht. congruence.
    + destruct (search f r (Some c) s) as [m'|] eqn:E'; [| discriminate].
      injection H as <-. cbn [shift r_after r_text].
      destruct (IH _ _ E') as [L1 L2]. split; [simpl; lia |].
      intros Ht. specialize (L2 Ht). simpl. lia.
Qed.

Lemma replace_loop_fuel (f : flags) (r : regex) (rp : replacement) (n : nat) :
  forall (n' : nat) (prev : option N) (s : list N),
  (length s < n)%nat -> (length s < n')%nat ->
  replace_loop n f r rp prev s = replace_loop n' f r rp prev s.
Proof.
  induction n as [|n IH]; intros n' prev s Hn Hn'; [lia |].
  destruct n' as [|n']; [lia |].
  rewrite !replace_loop_unfold.
  destruct (search f r prev s) as [m|] eqn:E; [| reflexivity].
  destruct (search_forward f r s prev m E) as [L1 L2].
  f_equal. f_equal.
  destruct (r_text m) as [|t ts].
  - destruct (r_after m) as [|c s']; [reflexivity |].
    f_equal. simpl in L1. apply IH; lia.
  - specialize (L2 ltac:(discriminate)). apply IH; lia.
Qed.

Lemma split_loop_fuel (sep : list N) (n : nat) :
  sep <> [] ->
  forall (n' : nat) (cur s : list N),
  (length s < n)%nat -> (length s < n')%nat ->
  split_loop n sep cur s = split_loop n' sep cur s.
Proof.
  intros Hsep. induction n as [|n IH]; intros n' cur s Hn Hn'; [lia |].
  destruct n' as [|n']; [lia |].
  cbn [split_loop].
  destruct (strip_prefix sep s) as [s'|] eqn:E.
  - apply strip_prefix_Some in E. subst s. rewrite length_app in Hn, Hn'.
    f_equal. apply IH; destruct sep; (congruence || simpl in *; lia).
  - destruct s as [|c s]; [reflexivity |]. simpl in Hn, Hn'. apply IH; lia.
Qed.

(** ** More on the network lookup *)

Section NetworkFields.

Context {number : Type}.
Variable number_truthy : number -> bool.
Variable number_toString : number -> list N.

Local Abbreviation network := (call_getNetworkInfo number number_truthy number_toString).
Local Abbreviation truthy' := (truthy number number_truthy).

Ltac run_script :=
  unfold call_getNetworkInfo, getNetworkInfo, bind, try_catch, lift, gets,
    modify, assign, console_error, get_prop, ret, throw; simpl.

Lemma or_else_truthy (a b : jsval number) :
  truthy' b = true -> truthy' (or_else number number_truthy a b) = true.
Proof. intros H. unfold or_else. destruct (truthy' a) eqn:E; assumption. Qed.

Lemma str_or_truthy (o : option (list N)) :
  truthy' (JStr (str_or o unknown)) = true.
Proof. destruct o as [[|c s]|]; reflexivity. Qed.

Lemma with_unit_truthy (x : option number) (suffix : list N) :
  suffix <> [] ->
  truthy' (with_unit number number_truthy number_toString x suffix) = true.
Proof.
  intros H. unfold with_unit. destruct x as [n|]; [| reflexivity].
  destruct (number_truthy n); [| reflexivity].
  cbn. destruct (number_toString n); [| reflexivity].
  destruct suffix; [congruence | reflexivity].
Qed.

Ltac all_truthy :=
  repeat (apply map_Forall_insert_2;
          [ first [ reflexivity
                  | apply or_else_truthy; reflexivity
                  | apply str_or_truthy
                  | apply with_unit_truthy; discriminate ] |]);
  apply map_Forall_empty.

(** X1. Every property of the object returned by [getNetworkInfo] is truthy: a
    field is never the empty text, zero, null or false. *)
Theorem getNetworkInfo_fields_truthy (nav : navigator number)
    (fetch : list N -> outcome (response number)) (i : gmap string (jsval number)) :
  fst (network nav fetch) = Ok i ->
  forall k v, i !! k = Some v -> truthy' v = true.
Proof.
  intros H.
  cut (map_Forall (fun _ v => truthy' v = true) i).
  { intros HF k v Hk. exact (HF k v Hk). }
  revert H. run_script.
  destruct (connection nav) as [c|]; simpl;
    (destruct (fetch geojs) as [[[data|e1]]|e1]; simpl;
     [ destruct data; simpl | | ]);
    try (intros [= <-]; all_truthy);
    (destruct (fetch ipify) as [[[ipData|e2]]|e2]; simpl;
     [ destruct ipData; simpl | | ]);
    intros [= <-]; all_truthy.
Qed.

Ltac lookups :=
  simpl;
  repeat first
    [ rewrite lookup_insert_eq
    | rewrite lookup_insert_ne by discriminate
    | rewrite lookup_empty ];
  try reflexivity.

(** X2. The four connection fields are always there, and they come from
    [navigator.connection] alone: the two requests never touch them. *)
Theorem getNetworkInfo_connection_fields (nav : navigator number)
    (fetch : list N -> outcome (response number)) (i : gmap string (jsval number)) :
  fst (network nav fetch) = Ok i ->
  i !! "connection"%string
  = Some (JStr (match connection nav with
                | Some c => str_or (c_type number c) unknown
                | None => unknown
                end))
  /\ i !! "effectiveType"%string
     = Some (JStr (match connection nav with
                   | Some c => str_or (c_effectiveType number c) unknown
                   | None => unknown
                   end))
  /\ i !! "downlink"%string
     = Some (match connection nav with
             | Some c => with_unit number number_truthy number_toString
                           (c_downlink number c) (lit " Mbps")
             | None => JStr unknown
             end)
  /\ i !! "rtt"%string
     = Some (match connection nav with
             | Some c => with_unit number number_truthy number_toString
                           (c_rtt number c) (lit " ms")
             | None => JStr unknown
             end).
Proof.
  run_script.
  destruct (connection nav) as [c|]; simpl;
    (destruct (fetch geojs) as [[[data|e1]]|e1]; simpl;
     [ destruct data; simpl | | ]);
    try (intros [= <-]; repeat split; lookups);
    (destruct (fetch ipify) as [[[ipData|e2]]|e2]; simpl;
     [ destruct ipData; simpl | | ]);
    intros [= <-]; repeat split; lookups.
Qed.

(** X3. A primary answer that is the JSON value null is handled like a failed
    request: reading its first property throws, the error is logged, and the
    secondary service decides the result. *)
Theorem getNetworkInfo_null_answer (nav : navigator number)
    (fetch fetch' : list N -> outcome (response number))
    (r : response number) (e : error) :
  fetch geojs = Ok r ->
  json r = Ok JNull ->
  fetch' geojs = Throw e ->
  fetch' ipify = fetch ipify ->
  fst (network nav fetch) = fst (network nav fetch')
  /\ exists rest,
       console (snd (network nav fetch))
       = (lit "Error fetching IP info:", TypeError) :: rest.
Proof.
  intros H1 H2 H3 H4. run_script. rewrite H1, H3, H4; simpl. rewrite H2; simpl.
  destruct (connection nav) as [c|]; simpl;
    (destruct (fetch ipify) as [[[ipData|e2]]|e2]; simpl;
     [ destruct ipData; simpl | | ]);
    (split; [reflexivity | eexists; reflexivity]).
Qed.

(** X4. When the primary service answers with an object, nothing is logged and
    the secondary service plays no part in the result. *)
Theorem getNetworkInfo_primary_suffices (nav : navigator number)
    (fetch fetch' : list N -> outcome (response number))
    (r : response number) (props : list (list N * jsval number)) :
  fetch geojs = Ok r ->
  json r = Ok (JObj props) ->
  fetch' geojs = Ok r ->
  console (snd (network nav fetch)) = []
  /\ network nav fetch' = network nav fetch.
Proof.
  intros H1 H2 H3. run_script. rewrite H1, H3; simpl. rewrite H2; simpl.
  destruct (connection nav) as [c|]; simpl; split; reflexivity.
Qed.

End NetworkFields.

Lemma getNetworkInfo_fields_truthy_witness :
  match fst (call_getNetworkInfo N dec_truthy dec_toString
               (nav_of (lit "curl/8.4.0")) only_ipify) with
  | Ok i => forall k v, i !! k = Some v -> truthy N dec_truthy v = true
  | Throw _ => False
  end.
Proof.
  destruct (getNetworkInfo_returns dec_truthy dec_toString
              (nav_of (lit "curl/8.4.0")) only_ipify) as [i Hi].
  rewrite Hi.
  exact (getNetworkInfo_fields_truthy dec_truthy dec_toString _ _ i Hi).
Defined.

Lemma getNetworkInfo_connection_fields_witness :
  match fst (call_getNetworkInfo N dec_truthy dec_toString
               (nav_of (lit "curl/8.4.0")) offline) with
  | Ok i => i !! "rtt"%string = Some (JStr (lit "Unknown"))
  | Throw _ => False
  end.
Proof.
  destruct (getNetworkInfo_returns dec_truthy dec_toString
              (nav_of (lit "curl/8.4.0")) offline) as [i Hi].
  rewrite Hi.
  exact (proj2 (proj2 (proj2
    (getNetworkInfo_connection_fields dec_truthy dec_toString _ _ i Hi)))).
Defined.

Lemma getNetworkInfo_null_answer_witness :
  fst (call_getNetworkInfo N dec_truthy dec_toString (nav_of (lit "curl/8.4.0"))
         null_geojs)
  = fst (call_getNetworkInfo N dec_truthy dec_toString (nav_of (lit "curl/8.4.0"))
           only_ipify).
Proof.
  exact (proj1 (getNetworkInfo_null_answer dec_truthy dec_toString
                  (nav_of (lit "curl/8.4.0")) null_geojs only_ipify
                  {| json := Ok JNull |} NetworkError
                  eq_refl eq_refl eq_refl eq_refl)).
Defined.

Lemma getNetworkInfo_primary_suffices_witness :
  console (snd (call_getNetworkInfo N dec_truthy dec_toString
                  (nav_of (lit "curl/8.4.0")) only_geojs)) = [].
Proof.
  exact (proj1 (getNetworkInfo_primary_suffices dec_truthy dec_toString
                  (nav_of (lit "curl/8.4.0")) only_geojs only_geojs
                  _ _ eq_refl eq_refl eq_refl)).
Defined.


(** ** More on the browser and the system *)

Lemma includes_true_elim (s p : list N) :
  includes s p = true -> exists a b, s = a ++ p ++ b.
Proof.
  induction s as [|c s IH]; rewrite includes_unfold; intros H.
  - rewrite orb_false_r in H. unfold startsWith in H.
    destruct (strip_prefix p []) as [t|] eqn:E; [| discriminate].
    apply strip_prefix_Some in E. now exists [], t.
  - apply orb_true_iff in H as [H | H].
    + unfold startsWith in H.
      destruct (strip_prefix p (c :: s)) as [t|] eqn:E; [| discriminate].
      apply strip_prefix_Some in E. now exists [], t.
    + destruct (IH H) as (a & b & ->). now exists (c :: a), b.
Qed.

(** A text that contains [p] contains every part of [p]. *)
Lemma includes_trans (s p q : list N) :
  includes s p = true -> includes p q = true -> includes s q = true.
Proof.
  intros H1 H2.
  apply includes_true_elim in H1 as (a & b & ->).
  apply includes_true_elim in H2 as (c & d & ->).
  replace (a ++ (c ++ q ++ d) ++ b) with ((a ++ c) ++ q ++ (d ++ b))
    by now rewrite <- !app_assoc.
  apply includes_true_intro.
Qed.

Lemma many_inv (ok : N -> bool) (g : bool) (caps : list (nat * list N))
    (k : mstate -> option mstate) (s : list N) (prev : option N) (res : mstate) :
  many ok g caps prev s k = Some res ->
  exists x y, s = x ++ y /\ forallb ok x = true
              /\ k (MState (prev_after x prev) y caps) = Some res.
Proof.
  revert prev; induction s as [|c s IH]; intros prev H; cbn [many] in H.
  - now exists [], [].
  - assert (Hmore : (if ok c then many ok g caps (Some c) s k else None) = Some res ->
                    exists x y, c :: s = x ++ y /\ forallb ok x = true
                      /\ k (MState (prev_after x prev) y caps) = Some res).
    { destruct (ok c) eqn:Ec; [| discriminate]. intros Hm.
      destruct (IH _ Hm) as (x & y & -> & Hx & Hk).
      exists (c :: x), y. cbn [forallb]. now rewrite Ec, Hx. }
    assert (Hstop : k (MState prev (c :: s) caps) = Some res ->
                    exists x y, c :: s = x ++ y /\ forallb ok x = true
                      /\ k (MState (prev_after x prev) y caps) = Some res).
    { intros Hk. now exists [], (c :: s). }
    destruct g.
    + destruct (if ok c then many ok true caps (Some c) s k else None) eqn:E.
      * injection H as ->. now apply Hmore.
      * now apply Hstop.
    + destruct (k (MState prev (c :: s) caps)) eqn:E.
      * injection H as ->. now apply Hstop.
      * now apply Hmore.
Qed.

(** The group [(\d+)] at the end of a pattern captures a non-empty run of
    digits. *)
Lemma rx_digits_group (f : flags) (st res : mstate) :
  rx f (Grp 1 (Plus digit)) st Some = Some res ->
  exists ds, ds <> [] /\ forallb is_digit ds = true
             /\ group 1 (m_caps res) = Some ds.
Proof.
  destruct st as [prev s caps]. unfold Plus, digit.
  cbn [rx m_rest m_caps m_prev atom_ok].
  destruct s as [|d t]; [discriminate |].
  destruct (is_digit d) eqn:Ed; [| discriminate].
  intros H. apply many_inv in H as (x & y & -> & Hx & [= <-]).
  exists (d :: x). cbn [m_caps group Nat.eqb forallb].
  change (firstn (S (length (x ++ y)) - length y) (d :: x ++ y))
    with (firstn (length ((d :: x) ++ y) - length y) ((d :: x) ++ y)).
  rewrite firstn_sub_app, Ed.
  split; [discriminate |]. split; [exact Hx | reflexivity].
Qed.

Lemma search_inv (f : flags) (r : regex) (s : list N) :
  forall (prev : option N) (m : rmatch),
  search f r prev s = Some m ->
  exists prev' s' st,
    rx f r (MState prev' s' []) Some = Some st /\ r_caps m = m_caps st.
Proof.
  induction s as [|c s IH]; intros prev m H; rewrite search_unfold in H.
  - destruct (rx f r _ Some) as [st|] eqn:E; [| discriminate].
    injection H as <-. now exists prev, [], st.
  - destruct (rx f r _ Some) as [st|] eqn:E.
    + injection H as <-. now exists prev, (c :: s), st.
    + destruct (search f r (Some c) s) as [m'|] eqn:E'; [| discriminate].
      injection H as <-. cbn [shift r_caps]. now apply (IH (Some c)).
Qed.

(** Whatever stands before it, a final [(\d+)] makes the version either
    [Unknown] or a non-empty run of digits. *)
Lemma version_of_shape (A B : regex) (ua : list N) :
  let v := version_of (Seq A (Seq B (Grp 1 (Plus digit)))) ua in
  v = unknown \/ (v <> [] /\ forallb is_digit v = true).
Proof.
  unfold version_of, exec_group.
  destruct (search F_plain _ None ua) as [m|] eqn:E; [| now left].
  apply search_inv in E as (prev' & s' & st & Hrx & ->).
  cbn [rx] in Hrx.
  apply rx_forward in Hrx as (st1 & Hrx & _).
  apply rx_forward in Hrx as (st2 & Hrx & _).
  apply rx_digits_group in Hrx as (ds & Hne & Hds & ->).
  right. destruct ds as [|d ds]; [congruence |].
  cbn [str_or]. split; [discriminate | exact Hds].
Qed.

(** X5. The name is one of six, the version is [Unknown] or a non-empty run of
    digits, and an unknown browser has an unknown version. *)
Theorem getBrowserInfo_shape {number : Type} (nav : navigator number) :
  In (bi_name (getBrowserInfo nav)) browser_names
  /\ (bi_version (getBrowserInfo nav) = lit "Unknown"
      \/ (bi_version (getBrowserInfo nav) <> []
          /\ forallb is_digit (bi_version (getBrowserInfo nav)) = true))
  /\ (bi_name (getBrowserInfo nav) <> lit "Unknown"
      \/ bi_version (getBrowserInfo nav) = lit "Unknown").
Proof.
  unfold getBrowserInfo, detect_browser, browser_names; cbn [bi_name bi_version].
  repeat match goal with
         | |- context [if ?b then _ else _] => destruct b; cbn [fst snd]
         end;
    (split; [cbn [In]; tauto |]);
    (split; [try apply version_of_shape; try (now left)
            | try (left; discriminate); now right]).
Qed.

Lemma version_token_intro (product : string) (pre ds post : list N) :
  ds <> [] ->
  forallb is_digit ds = true ->
  match post with [] => True | c :: _ => is_digit c = false end ->
  includes (pre ++ lit product) (lit product ++ [47]) = false ->
  version_token product (pre ++ lit product ++ 47 :: ds ++ post) ds.
Proof.
  intros Hne Hds Hpost Hinc. exists pre, post. repeat split; try assumption.
  intros q d q' Hd E.
  apply (occurrence_leftmost (lit product ++ [47]) pre (ds ++ post) q (d :: q')).
  - destruct (lit product); discriminate.
  - now rewrite removelast_last.
  - now rewrite <- !app_assoc.
Qed.

Lemma version_of_token (product : string) (ua ds : list N) :
  version_token product ua ds -> version_of (re_version product) ua = ds.
Proof.
  intros (pre & post & -> & Hne & Hds & Hpost & Hleft).
  now apply version_of_leftmost.
Qed.

(** X6. Safari, Firefox and Edge: the version is read after the leftmost
    [Version/], [Firefox/] or [Edg/] that a digit follows. *)
Theorem getBrowserInfo_other_versions {number : Type} (nav : navigator number)
    (ds : list N) :
  let ua := userAgent nav in
  (is_safari ua = true -> version_token "Version" ua ds ->
     bi_name (getBrowserInfo nav) = lit "Safari"
     /\ bi_version (getBrowserInfo nav) = ds)
  /\ (is_chrome ua = false -> is_safari ua = false -> is_firefox ua = true ->
      version_token "Firefox" ua ds ->
      bi_name (getBrowserInfo nav) = lit "Firefox"
      /\ bi_version (getBrowserInfo nav) = ds)
  /\ (is_safari ua = false -> is_firefox ua = false -> is_edge ua = true ->
      version_token "Edg" ua ds ->
      bi_name (getBrowserInfo nav) = lit "Edge"
      /\ bi_version (getBrowserInfo nav) = ds).
Proof.
  intros ua. unfold getBrowserInfo, detect_browser; cbn [bi_name bi_version].
  fold ua. unfold is_chrome, is_safari, is_firefox, is_edge.
  split; [| split].
  - intros HS Ht. apply andb_true_iff in HS as [HS HC].
    apply negb_true_iff in HC. rewrite HS, HC. cbn [andb negb fst snd].
    split; [reflexivity | now apply version_of_token].
  - intros HC HS HF Ht. rewrite HC, HS, HF. cbn [fst snd].
    split; [reflexivity | now apply version_of_token].
  - intros HS HF HE Ht. rewrite HS, HF, HE. cbn [negb andb fst snd].
    rewrite andb_false_r. cbn [fst snd].
    split; [reflexivity | now apply version_of_token].
Qed.

Lemma getBrowserInfo_other_versions_witness :
  bi_version (getBrowserInfo (nav_of ua_safari)) = lit "17"
  /\ bi_version (getBrowserInfo (nav_of ua_firefox)) = lit "121"
  /\ bi_version (getBrowserInfo (nav_of ua_edge)) = lit "120".
Proof.
  split; [| split].
  - apply (proj1 (getBrowserInfo_other_versions (nav_of ua_safari) (lit "17")));
      [reflexivity |].
    exact (version_token_intro "Version"
             (lit "Mozilla/5.0 (Macintosh; Intel Mac OS X 10_15_7) AppleWebKit/605.1.15 (KHTML, like Gecko) ")
             (lit "17") (lit ".1 Safari/605.1.15")
             ltac:(discriminate) eq_refl eq_refl eq_refl).
  - apply (proj1 (proj2 (getBrowserInfo_other_versions (nav_of ua_firefox) (lit "121"))));
      [reflexivity | reflexivity | reflexivity |].
    exact (version_token_intro "Firefox"
             (lit "Mozilla/5.0 (X11; Linux x86_64; rv:121.0) Gecko/20100101 ")
             (lit "121") (lit ".0")
             ltac:(discriminate) eq_refl eq_refl eq_refl).
  - apply (proj2 (proj2 (getBrowserInfo_other_versions (nav_of ua_edge) (lit "120"))));
      [reflexivity | reflexivity | reflexivity |].
    exact (version_token_intro "Edg"
             (lit "Mozilla/5.0 (Windows NT 10.0; Win64; x64) AppleWebKit/537.36 (KHTML, like Gecko) Chrome/120.0.0.0 Safari/537.36 ")
             (lit "120") (lit ".0.2210.91")
             ltac:(discriminate) eq_refl eq_refl eq_refl).
Defined.

Lemma rx_Str_self (f : flags) (p t : list N) (prev : option N)
    (caps : list (nat * list N)) (k : mstate -> option mstate) :
  rx f (Str p) (MState prev (p ++ t) caps) k
  = k (MState (prev_after p prev) t caps).
Proof.
  revert prev; induction p as [|c p IH]; intros prev; [reflexivity |].
  cbn [Str rx app m_rest m_caps m_prev atom_ok].
  replace (if ignoreCase f then canonicalize c =? canonicalize c else c =? c)
    with true by (destruct (ignoreCase f); now rewrite N.eqb_refl).
  apply IH.
Qed.

Lemma rx_Alt_some (f : flags) (r1 r2 : regex) (st : mstate)
    (k : mstate -> option mstate) :
  rx f r1 st k <> None \/ rx f r2 st k <> None -> rx f (Alt r1 r2) st k <> None.
Proof.
  cbn [rx]. destruct (rx f r1 st k); [discriminate |]. intros [H | H]; [congruence | exact H].
Qed.

(** A match somewhere means the search finds one. *)
Lemma search_some (f : flags) (r : regex) (a b : list N) :
  forall prev : option N,
  rx f r (MState (prev_after a prev) b []) Some <> None ->
  search f r prev (a ++ b) <> None.
Proof.
  induction a as [|c a IH]; intros prev H; rewrite search_unfold.
  - cbn [app prev_after fold_left] in *.
    destruct (rx f r _ Some); [discriminate | congruence].
  - cbn [app].
    destruct (rx f r (MState prev (c :: a ++ b) []) Some); [discriminate |].
    specialize (IH (Some c) H).
    destruct (search f r (Some c) (a ++ b)); [discriminate | congruence].
Qed.

Section SystemFacts.

Context {number : Type}.
Variable number_truthy : number -> bool.
Variable number_ge8 : number -> bool.
Variable number_toString : number -> list N.

Local Abbreviation system := (getSystemInfo number number_truthy number_ge8 number_toString).

Ltac word_found :=
  repeat first
    [ apply rx_Alt_some; left; rewrite rx_Str_self; discriminate
    | rewrite rx_Str_self; discriminate
    | apply rx_Alt_some; right ].

Lemma mobile_word (ua p : list N) :
  In p [lit "Android"; lit "iOS"; lit "iPhone"; lit "iPad"; lit "iPod"] ->
  includes ua p = true -> test F_i re_mobile ua = true.
Proof.
  intros Hin H. apply includes_true_elim in H as (a & b & ->).
  unfold test.
  destruct (search F_i re_mobile None (a ++ p ++ b)) eqn:E; [reflexivity |].
  exfalso. revert E. apply search_some. unfold re_mobile.
  cbn [In] in Hin.
  destruct Hin as [<- | [<- | [<- | [<- | [<- | []]]]]]; word_found.
Qed.

(** X7. The system name and the mobile flag agree: a system reported as Android
    or iOS is always flagged as a mobile device, and so is every user agent
    that names Android, iOS, iPhone, iPad or iPod, whatever system is
    reported for it. *)
Theorem getSystemInfo_mobile (nav : navigator number) :
  let ua := userAgent nav in
  (includes ua (lit "Android") || includes ua (lit "iOS")
   || includes ua (lit "iPhone") || includes ua (lit "iPad")
   || includes ua (lit "iPod") = true ->
   si_mobile number (system nav) = true)
  /\ (si_os (system nav) = lit "Android" \/ si_os (system nav) = lit "iOS" ->
      si_mobile number (system nav) = true).
Proof.
  intros ua.
  assert (Hwords : includes ua (lit "Android") || includes ua (lit "iOS")
                   || includes ua (lit "iPhone") || includes ua (lit "iPad")
                   || includes ua (lit "iPod") = true ->
                   si_mobile number (system nav) = true).
  { intros H. unfold getSystemInfo; cbn [si_mobile]. fold ua.
    repeat (apply orb_true_iff in H as [H | H]);
      (eapply mobile_word; [| exact H]); cbn [In]; tauto. }
  split; [exact Hwords |].
  intros Hos. apply Hwords.
  unfold getSystemInfo, detect_os in Hos; cbn [si_os fst] in Hos. fold ua in Hos.
  destruct (includes ua (lit "Win")).
  { destruct (_ || _) in Hos; destruct Hos as [H | H]; vm_compute in H; discriminate. }
  destruct (includes ua (lit "Mac"));
    [destruct Hos as [H | H]; vm_compute in H; discriminate |].
  destruct (includes ua (lit "Linux"));
    [destruct Hos as [H | H]; vm_compute in H; discriminate |].
  destruct (includes ua (lit "Android")); [reflexivity |].
  cbn [orb].
  destruct (includes ua (lit "iOS") || includes ua (lit "iPhone")
            || includes ua (lit "iPad") || includes ua (lit "iPod")) eqn:E;
    [reflexivity | destruct Hos as [H | H]; vm_compute in H; discriminate].
Qed.

(** X8. Earlier tests shadow later ones: Windows 10 and 11 are told apart from
    other Windows; a user agent with [like Mac OS X] and no [Win], as every
    iPhone and iPad sends, is reported as macOS; one with [Linux] and neither
    [Win] nor [Mac], as every Android device sends, is reported as Linux. *)
Theorem getSystemInfo_shadowing (nav : navigator number) :
  let ua := userAgent nav in
  (includes ua (lit "Windows NT 10.0") || includes ua (lit "Windows NT 11.0") = true ->
   si_os (system nav) = lit "Windows 10/11")
  /\ (includes ua (lit "Win") = false -> includes ua (lit "like Mac OS X") = true ->
      si_os (system nav) = lit "macOS")
  /\ (includes ua (lit "Win") = false -> includes ua (lit "Mac") = false ->
      includes ua (lit "Linux") = true ->
      si_os (system nav) = lit "Linux").
Proof.
  intros ua. unfold getSystemInfo, detect_os; cbn [si_os fst]. fold ua.
  split; [| split].
  - intros H. rewrite H.
    assert (HW : includes ua (lit "Win") = true).
    { apply orb_true_iff in H as [H | H];
        (eapply includes_trans; [exact H | reflexivity]). }
    now rewrite HW.
  - intros HW HM. rewrite HW.
    now rewrite (includes_trans ua _ (lit "Mac") HM eq_refl).
  - intros HW HM HL. now rewrite HW, HM, HL.
Qed.

End SystemFacts.

Lemma getSystemInfo_mobile_witness :
  si_mobile N (getSystemInfo N dec_truthy dec_ge8 dec_toString (nav_of ua_android))
  = true.
Proof.
  apply (proj1 (getSystemInfo_mobile dec_truthy dec_ge8 dec_toString
                  (nav_of ua_android))).
  reflexivity.
Defined.

Lemma getSystemInfo_shadowing_witness :
  si_os (getSystemInfo N dec_truthy dec_ge8 dec_toString (nav_of ua_edge))
  = lit "Windows 10/11"
  /\ si_os (getSystemInfo N dec_truthy dec_ge8 dec_toString (nav_of ua_edge_ios))
     = lit "macOS"
  /\ si_os (getSystemInfo N dec_truthy dec_ge8 dec_toString (nav_of ua_android))
     = lit "Linux".
Proof.
  split; [| split].
  - apply (proj1 (getSystemInfo_shadowing dec_truthy dec_ge8 dec_toString
                    (nav_of ua_edge))). reflexivity.
  - apply (proj1 (proj2 (getSystemInfo_shadowing dec_truthy dec_ge8 dec_toString
                           (nav_of ua_edge_ios)))); reflexivity.
  - apply (proj2 (proj2 (getSystemInfo_shadowing dec_truthy dec_ge8 dec_toString
                           (nav_of ua_android)))); reflexivity.
Defined.

(** ** More on escapeHtml *)

Lemma escape_char_no_markup (c : N) :
  forallb (fun d => negb (is_markup d)) (escape_char c) = true.
Proof.
  unfold escape_char.
  destruct (c =? 60) eqn:E1; [reflexivity |].
  destruct (c =? 62) eqn:E2; [reflexivity |].
  destruct (c =? 38) eqn:E3; [reflexivity |].
  destruct (c =? 34) eqn:E4; [reflexivity |].
  destruct (c =? 39) eqn:E5; [reflexivity |].
  cbn [forallb]. unfold is_markup. now rewrite E1, E2, E4, E5.
Qed.

Lemma escape_char_max_length (c : N) : (length (escape_char c) <= 6)%nat.
Proof.
  unfold escape_char.
  repeat match goal with |- context [if ?b then _ else _] => destruct b end;
    simpl; lia.
Qed.

(** X9. The output of [escapeHtml] holds no less-than, greater-than or quote
    character, and it is at least as long as the input and at most six times
    as long. *)
Theorem escapeHtml_output_safe (s : list N) :
  forallb (fun d => negb (is_markup d)) (escapeHtml s) = true
  /\ (length s <= length (escapeHtml s) <= 6 * length s)%nat.
Proof.
  rewrite escapeHtml_flat_map. unfold escape_spec.
  induction s as [|c s [IH1 IH2]]; [split; [reflexivity | simpl; lia] |].
  cbn [flat_map]. rewrite forallb_app, length_app, escape_char_no_markup, IH1.
  split; [reflexivity |].
  pose proof (escape_char_length c). pose proof (escape_char_max_length c).
  simpl length. lia.
Qed.

Lemma escape_char_inj (c d : N) (r r' : list N) :
  escape_char c ++ r = escape_char d ++ r' -> c = d /\ r = r'.
Proof.
  unfold escape_char.
  destruct (c =? 60) eqn:C1; [apply N.eqb_eq in C1 | apply N.eqb_neq in C1];
  [| destruct (c =? 62) eqn:C2; [apply N.eqb_eq in C2 | apply N.eqb_neq in C2];
  [| destruct (c =? 38) eqn:C3; [apply N.eqb_eq in C3 | apply N.eqb_neq in C3];
  [| destruct (c =? 34) eqn:C4; [apply N.eqb_eq in C4 | apply N.eqb_neq in C4];
  [| destruct (c =? 39) eqn:C5; [apply N.eqb_eq in C5 | apply N.eqb_neq in C5]]]]];
  (destruct (d =? 60) eqn:D1; [apply N.eqb_eq in D1 | apply N.eqb_neq in D1];
   [| destruct (d =? 62) eqn:D2; [apply N.eqb_eq in D2 | apply N.eqb_neq in D2];
   [| destruct (d =? 38) eqn:D3; [apply N.eqb_eq in D3 | apply N.eqb_neq in D3];
   [| destruct (d =? 34) eqn:D4; [apply N.eqb_eq in D4 | apply N.eqb_neq in D4];
   [| destruct (d =? 39) eqn:D5; [apply N.eqb_eq in D5 | apply N.eqb_neq in D5]]]]]);
  intros H; vm_compute in H; try discriminate H;
  injection H; intros; subst; try congruence; now split.
Qed.

(** X10. Escaping loses nothing: two texts with the same escaped form are the same
    text. *)
Theorem escapeHtml_injective (a b : list N) :
  escapeHtml a = escapeHtml b -> a = b.
Proof.
  rewrite !escapeHtml_flat_map. unfold escape_spec.
  revert b; induction a as [|c a IH]; intros [|d b] H; cbn [flat_map] in H.
  - reflexivity.
  - pose proof (escape_char_length d) as L.
    apply (f_equal (@length N)) in H. rewrite length_app in H. simpl in H. lia.
  - pose proof (escape_char_length c) as L.
    apply (f_equal (@length N)) in H. rewrite length_app in H. simpl in H. lia.
  - apply escape_char_inj in H as [-> H]. f_equal. now apply IH.
Qed.

Lemma escapeHtml_injective_witness :
  lit "a<" ++ lit "b" = lit "a<b".
Proof. apply (escapeHtml_injective (lit "a<" ++ lit "b") (lit "a<b")). reflexivity. Defined.

(** ** Headers *)

Lemma header_line_three_rules (l : list N) :
  wrap_line "# " "<h1>" "</h1>"
    (wrap_line "## " "<h2>" "</h2>" (wrap_line "### " "<h3>" "</h3>" l))
  = header_line l.
Proof.
  unfold wrap_line, header_line.
  destruct (strip_prefix (lit "### ") l) as [t|]; [reflexivity |].
  destruct (strip_prefix (lit "## ") l) as [t|]; reflexivity.
Qed.

Lemma headers_by_line (lines : list (list N)) :
  forallb no_terminator lines = true ->
  headers (join lines [nl]) = join (map header_line lines) [nl].
Proof.
  intros Hlines. unfold headers, replace. cbn [global F_gim].
  assert (Hwrap : forall m o c ls,
            no_terminator (lit o) = true -> no_terminator (lit c) = true ->
            forallb no_terminator ls = true ->
            forallb no_terminator (map (wrap_line m o c) ls) = true).
  { intros m o c ls Ho Hc Hls. rewrite forallb_forall in Hls |- *.
    intros l' Hin. apply in_map_iff in Hin as (l & <- & Hin).
    apply wrap_line_one_line; try assumption. now apply Hls. }
  rewrite (replace_lines "### " "<h3>" "</h3>") by
    (discriminate || reflexivity || assumption || lia).
  rewrite (replace_lines "## " "<h2>" "</h2>");
    try (discriminate || reflexivity || lia);
    [| now apply Hwrap].
  rewrite (replace_lines "# " "<h1>" "</h1>");
    try (discriminate || reflexivity || lia);
    [| apply Hwrap; try reflexivity; now apply Hwrap].
  rewrite !map_map. f_equal. apply map_ext. exact header_line_three_rules.
Qed.

(** X11. The three header rules work line by line: a line that starts with one,
    two or three hashes and a space becomes a heading of that level, and
    every other line, one with four hashes for instance, is left as it is. *)
Theorem headers_lines (lines : list (list N)) :
  forallb no_terminator lines = true ->
  headers (join lines [nl]) = join (map header_line lines) [nl].
Proof. exact (headers_by_line lines). Qed.

Lemma headers_lines_witness :
  headers (join [lit "# A"; lit "text"; lit "### B"; lit "#### C"; lit "#D"] [nl])
  = join [lit "<h1>A</h1>"; lit "text"; lit "<h3>B</h3>"; lit "#### C"; lit "#D"] [nl].
Proof.
  apply (headers_lines [lit "# A"; lit "text"; lit "### B"; lit "#### C"; lit "#D"]).
  reflexivity.
Defined.

(** ** The paragraph rule applied twice *)

Lemma startsWith_char (s : list N) (c : N) :
  startsWith s [c] = starts_with_char s c.
Proof.
  unfold startsWith, starts_with_char. cbn [strip_prefix].
  destruct s as [|d s]; [reflexivity |]. now destruct (c =? d).
Qed.

Lemma ends_with_char_snoc (x : list N) (c a : N) :
  ends_with_char (x ++ [c]) a = (a =? c).
Proof.
  induction x as [|d x IH]; [reflexivity |].
  cbn [app ends_with_char]. destruct (x ++ [c]) eqn:E; [| exact IH].
  destruct x; discriminate.
Qed.

(** A two-character text occurs in [x ++ y] inside [x], inside [y], or across
    the seam. *)
Lemma includes_pair_app (x y : list N) (a b : N) :
  includes (x ++ y) [a; b]
  = includes x [a; b] || includes y [a; b]
    || (ends_with_char x a && starts_with_char y b).
Proof.
  induction x as [|c x IH].
  - cbn [app]. rewrite (includes_unfold []). cbn. now rewrite orb_false_r.
  - rewrite (includes_unfold (c :: x ++ y)), (includes_unfold (c :: x)).
    change ((c :: x) ++ y) with (c :: x ++ y). rewrite IH.
    unfold startsWith. cbn [strip_prefix].
    destruct x as [|d x].
    + cbn [app ends_with_char]. rewrite (includes_unfold []).
      unfold startsWith, starts_with_char. cbn [strip_prefix].
      destruct y as [|e y].
      * rewrite (includes_unfold []). unfold startsWith. cbn [strip_prefix].
        destruct (a =? c); reflexivity.
      * destruct (includes (e :: y) [a; b]), (a =? c), (b =? e); reflexivity.
    + cbn [app ends_with_char].
      destruct (a =? c); [| reflexivity].
      destruct (b =? d); reflexivity.
Qed.

Lemma no_newline_clean (x : list N) :
  forallb (fun c => negb (nl =? c)) x = true ->
  includes x [nl; nl] = false /\ ends_with_char x nl = false.
Proof.
  induction x as [|c x IH]; intros H; [split; reflexivity |].
  cbn [forallb] in H. apply andb_true_iff in H as [Hc Hx].
  apply negb_true_iff in Hc. destruct (IH Hx) as [IH1 IH2].
  split.
  - rewrite includes_unfold, IH1. unfold startsWith. cbn [strip_prefix].
    now rewrite Hc.
  - cbn [ends_with_char]. destruct x; [exact Hc | exact IH2].
Qed.

Lemma wrapParagraph_starts (b : list N) :
  starts_with_char (wrapParagraph b) 60 = true.
Proof.
  unfold wrapParagraph. rewrite <- startsWith_char.
  change (lit "<") with [60].
  destruct (startsWith b [60]) eqn:E; [exact E | reflexivity].
Qed.

(** A wrapped paragraph holds no newline: each one became a line break tag. *)
Lemma wrapped_no_newline (b : list N) :
  forallb (fun c => negb (nl =? c))
    (lit "<p>" ++ replace F_g (One (AChr nl)) (Template [Txt (lit "<br>")]) b
       ++ lit "</p>") = true.
Proof.
  rewrite replace_atom, !forallb_app.
  replace (forallb (fun c => negb (nl =? c)) (lit "<p>")) with true by reflexivity.
  replace (forallb (fun c => negb (nl =? c)) (lit "</p>")) with true by reflexivity.
  rewrite andb_true_r. cbn [andb].
  induction b as [|c b IH]; [reflexivity |].
  cbn [flat_map]. rewrite forallb_app, IH, andb_true_r.
  cbn [atom_ok F_g ignoreCase].
  destruct (nl =? c) eqn:E; [reflexivity |].
  cbn [forallb]. now rewrite E.
Qed.

Lemma wrapParagraph_clean (b : list N) :
  includes b [nl; nl] = false ->
  (startsWith b (lit "<") = true -> ends_with_char b nl = false) ->
  includes (wrapParagraph b) [nl; nl] = false
  /\ ends_with_char (wrapParagraph b) nl = false.
Proof.
  intros Hinc Hend. unfold wrapParagraph.
  destruct (startsWith b (lit "<")) eqn:E; cbn [negb].
  - split; [exact Hinc | now apply Hend].
  - apply no_newline_clean, wrapped_no_newline.
Qed.

Lemma wrapParagraph_no_blank (b : list N) :
  includes b [nl; nl] = false -> includes (wrapParagraph b) [nl; nl] = false.
Proof.
  intros Hinc. unfold wrapParagraph.
  destruct (startsWith b (lit "<")); cbn [negb]; [exact Hinc |].
  apply no_newline_clean, wrapped_no_newline.
Qed.

(** The blocks cut by [split], once wrapped and joined by single newlines,
    hold no blank line, and the text starts with a tag. *)
Lemma paragraphs_loop_clean (n : nat) :
  forall (s cur : list N),
  (length s < n)%nat ->
  includes (rev cur) [nl; nl] = false ->
  match cur with
  | c :: _ => strip_prefix [nl; nl] (c :: s) = None
  | [] => True
  end ->
  let o := join (map wrapParagraph (split_loop n [nl; nl] cur s)) [nl] in
  includes o [nl; nl] = false /\ starts_with_char o 60 = true.
Proof.
  induction n as [|n IH]; intros s cur Hn Hinc Hseam; [lia |].
  cbn [split_loop].
  destruct (strip_prefix [nl; nl] s) as [s'|] eqn:E.
  - apply strip_prefix_Some in E. subst s.
    destruct (IH s' [] ltac:(simpl in Hn; lia) eq_refl I) as [IH1 IH2].
    cbn zeta in *. cbn [map].
    destruct (wrapParagraph_clean (rev cur) Hinc) as [W1 W2].
    { intros _. destruct cur as [|c cur]; [reflexivity |].
      cbn [rev]. rewrite ends_with_char_snoc.
      cbn [app strip_prefix] in Hseam.
      destruct (nl =? c); [| reflexivity].
      rewrite N.eqb_refl in Hseam. discriminate. }
    destruct (map wrapParagraph (split_loop n [nl; nl] [] s')) as [|b1 bs] eqn:Em;
      [discriminate |].
    change (join (wrapParagraph (rev cur) :: b1 :: bs) [nl])
      with (wrapParagraph (rev cur) ++ [nl] ++ join (b1 :: bs) [nl]).
    split.
    + rewrite includes_pair_app, W1, W2.
      rewrite (includes_pair_app [nl]), IH1.
      destruct (join (b1 :: bs) [nl]) as [|d o'] eqn:Eo; [discriminate |].
      cbn [starts_with_char] in IH2. apply N.eqb_eq in IH2. subst d.
      reflexivity.
    + pose proof (wrapParagraph_starts (rev cur)) as Hs.
      destruct (wrapParagraph (rev cur)); [discriminate | exact Hs].
  - destruct s as [|c s].
    + cbn [map join]. cbn zeta.
      split; [now apply wrapParagraph_no_blank | apply wrapParagraph_starts].
    + apply IH; [simpl in Hn; lia | | exact E].
      cbn [rev]. rewrite includes_pair_app, Hinc.
      rewrite (includes_unfold [c]), (includes_unfold []). cbn [startsWith strip_prefix].
      unfold startsWith. cbn [strip_prefix orb starts_with_char].
      replace (match (if nl =? c then None else None) with
               | Some _ => true | None => false end) with false
        by now destruct (nl =? c).
      cbn [orb].
      destruct cur as [|d cur]; [reflexivity |].
      cbn [rev]. rewrite ends_with_char_snoc.
      cbn [strip_prefix] in Hseam.
      destruct (nl =? d); [| reflexivity].
      destruct (nl =? c); [discriminate | reflexivity].
Qed.

(** A text that starts with a tag and holds no blank line is left as it is. *)
Lemma paragraphs_fixed (o : list N) :
  includes o [nl; nl] = false -> starts_with_char o 60 = true ->
  paragraphs o = o.
Proof.
  intros Hinc Hstart. unfold paragraphs, split.
  rewrite <- (app_nil_r o) at 2.
  destruct (split_loop_block [nl; nl] o []
              (fun x1 x2 E _ =>
                 eq_trans (f_equal (strip_prefix [nl; nl]) (app_nil_r x2))
                          (includes_false_suffix o _ x1 x2 Hinc E))
              [] (S (length o)) ltac:(rewrite app_nil_r; lia))
    as (n' & Hn' & ->).
  destruct n' as [|n']; [simpl in Hn'; lia |].
  cbn [split_loop strip_prefix map join]. rewrite app_nil_r, rev_involutive.
  apply wrapParagraph_tagged. change (lit "<") with [60].
  now rewrite startsWith_char.
Qed.

(** X13. The paragraph rule is stable: its output starts with a tag and holds no
    blank line, so applying the rule to its own output changes nothing and no
    block is wrapped twice. *)
Theorem paragraphs_idempotent (html : list N) :
  includes (paragraphs html) [nl; nl] = false
  /\ startsWith (paragraphs html) (lit "<") = true
  /\ paragraphs (paragraphs html) = paragraphs html.
Proof.
  destruct (paragraphs_loop_clean (S (length html)) html []
              ltac:(lia) eq_refl I) as [H1 H2].
  cbn zeta in H1, H2. fold (split html [nl; nl]) in H1, H2.
  fold (paragraphs html) in H1, H2.
  split; [exact H1 |]. split.
  - change (lit "<") with [60]. now rewrite startsWith_char.
  - now apply paragraphs_fixed.
Qed.

(** ** Bold spans *)

Lemma strip_stars_none (x t : list N) :
  x <> [] -> no_star x = true -> strip_prefix (lit "**") (x ++ t) = None.
Proof.
  destruct x as [|e x]; [congruence |]. cbn [no_star forallb app]. intros _ H.
  apply andb_true_iff in H as [H _]. apply negb_true_iff in H.
  rewrite N.eqb_sym in H.
  change (lit "**") with [42; 42]. cbn [strip_prefix]. now rewrite H.
Qed.

Lemma terminator_not_star (t : N) : is_line_terminator t = true -> (42 =? t) = false.
Proof.
  intros H. destruct (42 =? t) eqn:E; [| reflexivity].
  apply N.eqb_eq in E. subst t. discriminate.
Qed.

(** A quantifier cannot pass a character outside its class: if the
    continuation rejects every position up to that character, the match
    fails. *)
Lemma many_blocked (ok : N -> bool) (g : bool) (caps : list (nat * list N))
    (k : mstate -> option mstate) (x : list N) (t : N) (rest : list N) :
  forall prev : option N,
  ok t = false ->
  (forall y1 y2 p, x = y1 ++ y2 -> k (MState p (y2 ++ t :: rest) caps) = None) ->
  many ok g caps prev (x ++ t :: rest) k = None.
Proof.
  induction x as [|c x IH]; intros prev Ht Hk; cbn [app many].
  - rewrite Ht. assert (H0 := Hk [] [] prev eq_refl). cbn [app] in H0.
    rewrite H0. now destruct g.
  - rewrite IH; [| exact Ht |].
    + assert (H0 := Hk [] (c :: x) prev eq_refl). cbn [app] in H0. rewrite H0.
      destruct g, (ok c); reflexivity.
    + intros y1 y2 p E. apply (Hk (c :: y1) y2 p). now rewrite E.
Qed.

Lemma rx_bold_span (prev : option N) (x : list N) :
  no_star x = true -> no_terminator x = true ->
  exists st,
    rx F_g re_bold (MState prev ((lit "**" ++ x ++ lit "**") ++ []) []) Some = Some st
    /\ m_rest st = [] /\ m_caps st = [(1%nat, x)].
Proof.
  intros Hs Ht. unfold re_bold. rewrite app_nil_r. cbn [rx].
  rewrite rx_Str by now left.
  cbn [m_rest m_caps m_prev]. rewrite strip_prefix_app.
  eexists. split; [| split].
  - eapply many_lazy_first.
    + exact Ht.
    + intros x1 x2 p E Hx2. cbn [m_rest m_caps m_prev].
      rewrite rx_Str by now left. cbn [m_rest].
      rewrite strip_stars_none; [reflexivity | assumption |].
      now apply (forallb_suffix _ x x1 x2).
    + cbn [m_rest m_caps m_prev]. rewrite rx_Str by now left.
      cbn [m_rest m_caps m_prev].
      rewrite <- (app_nil_r (lit "**")) at 2. rewrite strip_prefix_app.
      reflexivity.
  - reflexivity.
  - cbn [m_caps m_rest]. now rewrite firstn_sub_app.
Qed.

Lemma bold_span (x : list N) :
  no_star x = true -> no_terminator x = true ->
  bold (lit "**" ++ x ++ lit "**") = lit "<strong>" ++ x ++ lit "</strong>".
Proof.
  intros Hs Ht. unfold bold, replace. cbn [global F_g].
  destruct (rx_bold_span None x Hs Ht) as (st & Hst & Hrest & Hcaps).
  rewrite <- (app_nil_r (lit "**" ++ x ++ lit "**")) at 2.
  rewrite (replace_loop_hit _ _ _ _ _ _ _ st Hst Hrest) by discriminate.
  rewrite replace_loop_nil by reflexivity.
  unfold tmpl, expand. cbn [flat_map expand_piece r_caps]. rewrite Hcaps.
  cbn [group Nat.eqb]. now rewrite !app_nil_r.
Qed.

Lemma rx_bold_miss (prev : option N) (s : list N) :
  strip_prefix (lit "**") s = None ->
  rx F_g re_bold (MState prev s []) Some = None.
Proof.
  intros H. unfold re_bold. cbn [rx]. rewrite rx_Str by now left.
  cbn [m_rest]. now rewrite H.
Qed.

(** The suffixes of a text between two pairs of asterisks. *)
Lemma between_stars_suffix (m a b : list N) :
  [42; 42] ++ m ++ [42; 42] = a ++ b ->
  b = [42; 42] ++ m ++ [42; 42]
  \/ b = 42 :: m ++ [42; 42]
  \/ (exists m1 m2, m = m1 ++ m2 /\ m2 <> [] /\ b = m2 ++ [42; 42])
  \/ b = [42; 42] \/ b = [42] \/ b = [].
Proof.
  intros E. destruct a as [|a0 [|a1 a]]; cbn [app] in E.
  - left. now symmetry.
  - right; left. now injection E as _ <-.
  - injection E as _ _ E.
    apply app_eq_app in E as [l [[E1 E2] | [E1 E2]]].
    + destruct l as [|l0 l].
      * cbn [app] in E2. subst b. tauto.
      * right; right; left. exists a, (l0 :: l). rewrite E2. repeat split.
        -- exact E1.
        -- discriminate.
    + destruct l as [|l0 [|l1 l]]; cbn [app] in E2.
      * subst b. tauto.
      * injection E2 as _ <-. tauto.
      * injection E2 as _ _ E2. symmetry in E2.
        apply app_eq_nil in E2 as [_ ->]. tauto.
Qed.

Lemma bold_broken_span (x1 : list N) (t : N) (x2 : list N) :
  no_star x1 = true -> no_terminator x1 = true ->
  is_line_terminator t = true -> no_star x2 = true ->
  bold (lit "**" ++ (x1 ++ t :: x2) ++ lit "**")
  = lit "**" ++ (x1 ++ t :: x2) ++ lit "**".
Proof.
  intros Hs1 Ht1 Ht Hs2.
  assert (Hm : no_star (x1 ++ t :: x2) = true).
  { unfold no_star in *. rewrite forallb_app. cbn [forallb].
    rewrite Hs1, Hs2, N.eqb_sym, (terminator_not_star t Ht). reflexivity. }
  unfold bold, replace. cbn [global F_g].
  rewrite replace_loop_unfold, search_none; [reflexivity |].
  intros a b E. change (lit "**") with [42; 42] in E.
  apply between_stars_suffix in E
    as [-> | [-> | [(m1 & m2 & Em & Hm2 & ->) | [-> | [-> | ->]]]]].
  - unfold re_bold. cbn [rx]. rewrite rx_Str by now left.
    cbn [m_rest m_caps m_prev].
    change [42; 42] with (lit "**"). rewrite strip_prefix_app.
    rewrite <- app_assoc. cbn [app].
    apply many_blocked.
    + cbn [atom_ok dotAll F_g orb]. now rewrite Ht.
    + intros y1 y2 p Ey. cbn [m_rest m_caps m_prev].
      rewrite rx_Str by now left. cbn [m_rest].
      destruct y2 as [|e y2].
      * cbn [app]. change (lit "**") with [42; 42]. cbn [strip_prefix].
        now rewrite (terminator_not_star t Ht).
      * rewrite strip_stars_none; [reflexivity | discriminate |].
        now apply (forallb_suffix _ x1 y1 (e :: y2)).
  - apply rx_bold_miss. change (lit "**") with [42; 42].
    destruct (x1 ++ t :: x2) as [|e m] eqn:Ex; [destruct x1; discriminate |].
    cbn [no_star forallb] in Hm. apply andb_true_iff in Hm as [Hm _].
    apply negb_true_iff in Hm. rewrite N.eqb_sym in Hm.
    cbn [app strip_prefix]. rewrite N.eqb_refl. now rewrite Hm.
  - apply rx_bold_miss. apply strip_stars_none; [assumption |].
    now apply (forallb_suffix _ _ m1 m2 Hm).
  - reflexivity.
  - reflexivity.
  - reflexivity.
Qed.

(** X12. Text between two pairs of asterisks on one line becomes a [strong]
    element, with the text copied as it is; when a line terminator stands
    between the two pairs, nothing is made bold and the text is unchanged. *)
Theorem bold_rule :
  (forall x, no_star x = true -> no_terminator x = true ->
     bold (lit "**" ++ x ++ lit "**") = lit "<strong>" ++ x ++ lit "</strong>")
  /\ (forall x1 t x2,
        no_star x1 = true -> no_terminator x1 = true ->
        is_line_terminator t = true -> no_star x2 = true ->
        bold (lit "**" ++ (x1 ++ t :: x2) ++ lit "**")
        = lit "**" ++ (x1 ++ t :: x2) ++ lit "**").
Proof. split; [exact bold_span | exact bold_broken_span]. Qed.

Lemma bold_rule_witness :
  bold (lit "**" ++ lit "a <b> c" ++ lit "**") = lit "<strong>" ++ lit "a <b> c" ++ lit "</strong>"
  /\ bold (lit "**" ++ (lit "a" ++ nl :: lit "b") ++ lit "**")
     = lit "**" ++ (lit "a" ++ nl :: lit "b") ++ lit "**".
Proof.
  split.
  - apply (proj1 bold_rule); reflexivity.
  - apply (proj2 bold_rule); reflexivity.
Defined.

(** ** The name of the downloaded file *)

Lemma below_forallb (P : N -> bool) (lo len : nat) :
  forallb P (map N.of_nat (seq lo len)) = true ->
  forall n, N.of_nat lo <= n < N.of_nat (lo + len) -> P n = true.
Proof.
  rewrite forallb_forall. intros H n Hn. apply H.
  apply in_map_iff. exists (N.to_nat n). split; [apply N2Nat.id |].
  apply in_seq. lia.
Qed.

Lemma two_digits (n : N) :
  n < 100 ->
  exists a b,
    padStart (String_ n) 2 (lit "0") = [a; b]
    /\ is_digit a = true /\ is_digit b = true
    /\ digits_value [a; b] = n.
Proof.
  intros Hn.
  assert (H : forallb
                (fun n => match padStart (String_ n) 2 (lit "0") with
                          | [a; b] => is_digit a && is_digit b
                                      && (digits_value [a; b] =? n)
                          | _ => false
                          end)
                (map N.of_nat (seq 0 100)) = true) by (vm_compute; reflexivity).
  apply below_forallb with (n := n) in H; [| lia].
  destruct (padStart (String_ n) 2 (lit "0")) as [|a [|b [|]]]; try discriminate.
  apply andb_true_iff in H as [H Hv]. apply andb_true_iff in H as [Ha Hb].
  apply N.eqb_eq in Hv. now exists a, b.
Qed.

Lemma four_digits (n : N) :
  1000 <= n <= 9999 ->
  exists a b c d,
    String_ n = [a; b; c; d]
    /\ is_digit a = true /\ is_digit b = true /\ is_digit c = true
    /\ is_digit d = true /\ digits_value [a; b; c; d] = n.
Proof.
  intros Hn.
  assert (H : forallb
                (fun n => match String_ n with
                          | [a; b; c; d] =>
                              is_digit a && is_digit b && is_digit c && is_digit d
                              && (digits_value [a; b; c; d] =? n)
                          | _ => false
                          end)
                (map N.of_nat (seq (N.to_nat 1000) (N.to_nat 9000))) = true)
    by (vm_compute; reflexivity).
  apply below_forallb with (n := n) in H; [| lia].
  destruct (String_ n) as [|a [|b [|c [|d [|]]]]]; try discriminate.
  apply andb_true_iff in H as [H Hv]. apply andb_true_iff in H as [H Hd].
  apply andb_true_iff in H as [H Hc]. apply andb_true_iff in H as [Ha Hb].
  apply N.eqb_eq in Hv. now exists a, b, c, d.
Qed.

(** X14. For a date of the years 1000 to 9999 the file name has the form
    [info-usuario-YYYY_MM_DD_HH_MM.txt], thirty-three characters with two
    digits for each of the month, day, hour and minute. *)
Theorem download_filename_shape (now : Date) :
  four_digit_year now ->
  test F_plain re_filename (download_filename now) = true
  /\ length (download_filename now) = 33%nat.
Proof.
  intros (Hy & Hm & Hd & Hh & Hmi). unfold download_filename.
  destruct (four_digits _ Hy) as (y1 & y2 & y3 & y4 & -> & Y1 & Y2 & Y3 & Y4 & _).
  destruct (two_digits (getMonth now + 1) ltac:(lia)) as (m1 & m2 & -> & M1 & M2 & _).
  destruct (two_digits (getDate now) ltac:(lia)) as (d1 & d2 & -> & D1 & D2 & _).
  destruct (two_digits (getHours now) ltac:(lia)) as (h1 & h2 & -> & H1 & H2 & _).
  destruct (two_digits (getMinutes now) ltac:(lia)) as (i1 & i2 & -> & I1 & I2 & _).
  split; [| reflexivity].
  unfold test. rewrite search_unfold. unfold re_filename. cbn [rx at_bol m_prev].
  rewrite rx_Str by now left.
  cbn [m_rest m_caps m_prev]. rewrite strip_prefix_app.
  change (lit "_") with [95]. cbn [app].
  cbn [rx m_rest m_caps m_prev atom_ok digit F_plain ignoreCase].
  rewrite Y1, Y2, Y3, Y4, M1, M2, D1, D2, H1, H2, I1, I2.
  cbn [N.eqb Pos.eqb].
  rewrite rx_Str by now left.
  cbn [m_rest m_caps m_prev].
  rewrite <- (app_nil_r (lit ".txt")) at 2. rewrite strip_prefix_app.
  reflexivity.
Qed.

(** X15. The file name tells the minute: two dates of the years 1000 to 9999 with
    the same file name have the same year, month, day, hour and minute. *)
Theorem download_filename_injective (now now' : Date) :
  four_digit_year now -> four_digit_year now' ->
  download_filename now = download_filename now' ->
  getFullYear now = getFullYear now' /\ getMonth now = getMonth now'
  /\ getDate now = getDate now' /\ getHours now = getHours now'
  /\ getMinutes now = getMinutes now'.
Proof.
  intros (Hy & Hm & Hd & Hh & Hmi) (Hy' & Hm' & Hd' & Hh' & Hmi').
  unfold download_filename.
  destruct (four_digits _ Hy) as (y1 & y2 & y3 & y4 & -> & _ & _ & _ & _ & Vy).
  destruct (four_digits _ Hy') as (z1 & z2 & z3 & z4 & -> & _ & _ & _ & _ & Vy').
  destruct (two_digits (getMonth now + 1) ltac:(lia)) as (m1 & m2 & -> & _ & _ & Vm).
  destruct (two_digits (getMonth now' + 1) ltac:(lia)) as (n1 & n2 & -> & _ & _ & Vm').
  destruct (two_digits (getDate now) ltac:(lia)) as (d1 & d2 & -> & _ & _ & Vd).
  destruct (two_digits (getDate now') ltac:(lia)) as (e1 & e2 & -> & _ & _ & Vd').
  destruct (two_digits (getHours now) ltac:(lia)) as (h1 & h2 & -> & _ & _ & Vh).
  destruct (two_digits (getHours now') ltac:(lia)) as (k1 & k2 & -> & _ & _ & Vh').
  destruct (two_digits (getMinutes now) ltac:(lia)) as (i1 & i2 & -> & _ & _ & Vi).
  destruct (two_digits (getMinutes now') ltac:(lia)) as (j1 & j2 & -> & _ & _ & Vi').
  intros E. apply app_inv_head in E. change (lit "_") with [95] in E.
  cbn [app] in E.
  injection E as -> -> -> -> -> -> -> -> -> -> -> ->.
  rewrite <- Vy, <- Vd, <- Vh, <- Vi.
  repeat split; try assumption. lia.
Qed.

Lemma download_filename_shape_witness :
  test F_plain re_filename (download_filename a_date) = true
  /\ download_filename a_date = lit "info-usuario-2026_11_01_09_05.txt".
Proof.
  split; [| reflexivity].
  apply (proj1 (download_filename_shape a_date ltac:(vm_compute; intuition discriminate))).
Defined.

Lemma download_filename_injective_witness :
  getMinutes a_date = getMinutes a_date.
Proof.
  apply (download_filename_injective a_date a_date);
    [vm_compute; intuition discriminate .. | reflexivity].
Defined.

(** ** The information dialog *)

Lemma dialog_step_consistent (ev : dialog_event) (d : dialog) :
  dialog_consistent d -> dialog_consistent (dialog_step ev d).
Proof.
  intros H. destruct ev as [| | target_id | key | fetched]; cbn [dialog_step].
  - unfold showInfoModal. cbn. right.
    destruct (readmeLoaded d); split; reflexivity.
  - left. split; reflexivity.
  - destruct (str_eqb target_id (lit "info-modal")); [left; split; reflexivity | exact H].
  - destruct (str_eqb key (lit "Escape") && negb (hidden d));
      [left; split; reflexivity | exact H].
  - destruct (pendingLoads d); [exact H |].
    unfold loadReadme_settled. destruct (readme_text fetched); exact H.
Qed.

(** X16. Whatever the user does and whenever the loads settle, the dialog is
    either shown with the page scroll locked or hidden with the scroll
    free. *)
Theorem dialog_lock_follows_visibility (evs : list dialog_event) (d : dialog) :
  dialog_consistent d -> dialog_consistent (dialog_run evs d).
Proof.
  revert d; induction evs as [|ev evs IH]; intros d H; [exact H |].
  cbn [dialog_run fold_left]. apply IH. now apply dialog_step_consistent.
Qed.

Lemma dialog_lock_follows_visibility_witness :
  dialog_consistent
    (dialog_run [InfoClick; KeyDown (lit "a"); LoadSettled readme_missing;
                 KeyDown (lit "Escape")] dialog_start).
Proof.
  apply dialog_lock_follows_visibility. left. split; reflexivity.
Defined.

Lemma dialog_step_loaded (ev : dialog_event) (d : dialog) :
  readmeLoaded d = true -> pendingLoads d = 0%nat ->
  readmeContent (dialog_step ev d) = readmeContent d
  /\ readmeLoaded (dialog_step ev d) = true
  /\ pendingLoads (dialog_step ev d) = 0%nat
  /\ readmeLog (dialog_step ev d) = readmeLog d.
Proof.
  intros HL HP. destruct d as [h o c l p lg]. cbn in HL, HP. subst l p.
  destruct ev as [| | target_id | key | fetched];
    cbn [dialog_step showInfoModal hideInfoModal readmeLoaded negb pendingLoads
         hidden overflow readmeContent readmeLog].
  - repeat split.
  - repeat split.
  - destruct (str_eqb target_id (lit "info-modal")); repeat split.
  - destruct (str_eqb key (lit "Escape") && negb h); repeat split.
  - repeat split.
Qed.

Lemma dialog_run_loaded (evs : list dialog_event) (d : dialog) :
  readmeLoaded d = true -> pendingLoads d = 0%nat ->
  readmeContent (dialog_run evs d) = readmeContent d
  /\ readmeLoaded (dialog_run evs d) = true
  /\ pendingLoads (dialog_run evs d) = 0%nat
  /\ readmeLog (dialog_run evs d) = readmeLog d.
Proof.
  revert d; induction evs as [|ev evs IH]; intros d HL HP;
    [cbn [dialog_run fold_left]; now rewrite HL, HP |].
  cbn [dialog_run fold_left].
  destruct (dialog_step_loaded ev d HL HP) as (H1 & H2 & H3 & H4).
  destruct (IH _ H2 H3) as (I1 & I2 & I3 & I4).
  unfold dialog_run in *. now rewrite I1, I2, I3, I4, H1, H4.
Qed.

(** X17. Once the README is loaded and no other load is under way, it stays: no
    event starts a request again, and the content is never replaced. *)
Theorem readme_loaded_once (evs : list dialog_event) (d : dialog) :
  readmeLoaded d = true -> pendingLoads d = 0%nat ->
  readmeContent (dialog_run evs d) = readmeContent d
  /\ readmeLoaded (dialog_run evs d) = true
  /\ pendingLoads (dialog_run evs d) = 0%nat
  /\ readmeLog (dialog_run evs d) = readmeLog d.
Proof. exact (dialog_run_loaded evs d). Qed.

Lemma readme_loaded_once_witness :
  readmeContent
    (dialog_run [CloseClick; InfoClick; LoadSettled readme_missing]
       (Dialog false (lit "hidden") (lit "<h1>user-info</h1>") true 0 []))
  = lit "<h1>user-info</h1>".
Proof.
  exact (proj1 (readme_loaded_once
                  [CloseClick; InfoClick; LoadSettled readme_missing]
                  (Dialog false (lit "hidden") (lit "<h1>user-info</h1>") true 0 [])
                  eq_refl eq_refl)).
Defined.

(** X18. A load that fails (a rejected request, a response that is not ok, or a
    body that cannot be read) shows the error paragraph, logs the failure and
    leaves [readmeLoaded] unset, so the next opening asks again, and a load
    that then succeeds replaces the error by the rendered README. *)
Theorem readme_retry_after_failure (d : dialog)
    (fetched : outcome readme_response) (failure : readme_failure)
    (markdown : list N) :
  readmeLoaded d = false -> pendingLoads d = 0%nat ->
  readme_text fetched = inr failure ->
  let d1 := dialog_run [InfoClick; LoadSettled fetched] d in
  let d2 := dialog_run [CloseClick; InfoClick; LoadSettled (readme_found markdown)] d1 in
  (readmeContent d1 = readme_error /\ readmeLoaded d1 = false
   /\ readmeLog d1 = readmeLog d ++ [failure] /\ pendingLoads d1 = 0%nat)
  /\ (readmeContent d2 = parseMarkdown markdown /\ readmeLoaded d2 = true
      /\ hidden d2 = false).
Proof.
  intros HL HP Hf. destruct d as [h o c l p lg]. cbn in HL, HP. subst l p.
  assert (E : dialog_run [InfoClick; LoadSettled fetched] (Dialog h o c false 0 lg)
              = Dialog false (lit "hidden") readme_error false 0 (lg ++ [failure])).
  { unfold dialog_run.
    cbn [fold_left dialog_step showInfoModal readmeLoaded negb pendingLoads
         hidden overflow readmeContent readmeLog].
    unfold loadReadme_settled. now rewrite Hf. }
  cbn zeta. rewrite E. split; [repeat split |].
  repeat split.
Qed.

Lemma readme_retry_after_failure_witness :
  readmeContent (dialog_run [InfoClick; LoadSettled readme_missing] dialog_start)
  = readme_error.
Proof.
  exact (proj1 (proj1 (readme_retry_after_failure dialog_start readme_missing
                         BadStatus [] eq_refl eq_refl eq_refl))).
Defined.

(** X19. Two openings before the README has arrived start two loads.  When the
    first to settle succeeds and the second fails, the error paragraph
    replaces the README while [readmeLoaded] stays set: from then on no event
    brings the README back. *)
Theorem readme_lost_by_second_load (d : dialog)
    (fetched : outcome readme_response) (failure : readme_failure)
    (markdown : list N) (evs : list dialog_event) :
  readmeLoaded d = false -> pendingLoads d = 0%nat ->
  readme_text fetched = inr failure ->
  let d' := dialog_run [InfoClick; InfoClick; LoadSettled (readme_found markdown);
                        LoadSettled fetched] d in
  readmeLoaded d' = true
  /\ readmeContent d' = readme_error
  /\ readmeContent (dialog_run evs d') = readme_error.
Proof.
  intros HL HP Hf. destruct d as [h o c l p lg]. cbn in HL, HP. subst l p.
  cbn zeta.
  assert (E : dialog_run [InfoClick; InfoClick; LoadSettled (readme_found markdown);
                          LoadSettled fetched] (Dialog h o c false 0 lg)
              = Dialog false (lit "hidden") readme_error true 0 (lg ++ [failure])).
  { unfold dialog_run.
    cbn [fold_left dialog_step showInfoModal readmeLoaded negb pendingLoads
         hidden overflow readmeContent readmeLog].
    unfold loadReadme_settled at 2.
    cbn [readme_found readme_text resp_ok resp_text negb hidden overflow
         readmeContent readmeLoaded pendingLoads readmeLog].
    unfold loadReadme_settled. now rewrite Hf. }
  rewrite E. split; [reflexivity |]. split; [reflexivity |].
  exact (proj1 (dialog_run_loaded evs
                  (Dialog false (lit "hidden") readme_error true 0 (lg ++ [failure]))
                  eq_refl eq_refl)).
Qed.

Lemma readme_lost_by_second_load_witness :
  readmeContent
    (dialog_run [CloseClick; InfoClick]
       (dialog_run [InfoClick; InfoClick; LoadSettled (readme_found (lit "# user-info"));
                    LoadSettled readme_missing] dialog_start))
  = readme_error.
Proof.
  exact (proj2 (proj2 (readme_lost_by_second_load dialog_start readme_missing
                         BadStatus (lit "# user-info") [CloseClick; InfoClick]
                         eq_refl eq_refl eq_refl))).
Defined.

(** ** Messages and the clipboard *)

(** X20. [copyToClipboard] never throws and shows exactly one message: the success
    message, with the text of the text area on the clipboard, when
    [writeText] works or else [execCommand] returns true; the error message,
    with the clipboard untouched, otherwise. *)
Theorem copyToClipboard_outcome (writeText : outcome unit)
    (execCommand : outcome bool) (b : board) :
  let b' := after (copyToClipboard writeText execCommand) b in
  fst (copyToClipboard writeText execCommand b) = Ok tt
  /\ timers b' = S (timers b)
  /\ textareaValue b' = textareaValue b
  /\ (if copy_works writeText execCommand
      then messageText b' = copied /\ messageClass b' = lit "message success"
           /\ clipboard b' = Some (textareaValue b)
      else messageText b' = not_copied /\ messageClass b' = lit "message error"
           /\ clipboard b' = clipboard b).
Proof.
  destruct b as [mt mc tm tv cl lg].
  destruct writeText as [[]|e1]; [| destruct execCommand as [[|]|e2]];
    vm_compute; repeat split.
Qed.

(** X21. The timer of an earlier message is not cancelled by a later one: when it
    fires it erases the later message, whose own timer is still to come. *)
Theorem message_erased_by_earlier_timer (b : board) (m1 t1 m2 t2 : list N) :
  let shown := after (showMessage m2 t2) (after (showMessage m1 t1) b) in
  messageText shown = m2
  /\ messageText (timer_fires shown) = []
  /\ messageClass (timer_fires shown) = lit "message"
  /\ timers (timer_fires shown) = S (timers b).
Proof. destruct b; vm_compute. repeat split. Qed.

(** ** The panels and the report *)

Lemma includes_concat (l : list (list N)) (p : list N) :
  In p l -> includes (concat l) p = true.
Proof.
  intros H. apply in_split in H as (l1 & l2 & ->).
  rewrite concat_app. cbn [concat]. apply includes_true_intro.
Qed.

Lemma includes_app_l (s t p : list N) :
  includes s p = true -> includes (s ++ t) p = true.
Proof.
  intros H. apply includes_true_elim in H as (a & b & ->).
  rewrite <- !List.app_assoc. apply includes_true_intro.
Qed.

(** X22. [checkWebGL] answers true exactly when [WebGLRenderingContext] is there
    and a canvas gives a context for [webgl], or gives none for it and one for
    [experimental-webgl].  A [getContext] that throws makes the answer false:
    when the first call throws, the second is never tried. *)
Theorem checkWebGL_true_iff (e : feature_env) :
  fst (checkWebGL e) = true <->
  has_WebGLRenderingContext e = true
  /\ (getContext e (lit "webgl") = Ok true
      \/ (getContext e (lit "webgl") = Ok false
          /\ getContext e (lit "experimental-webgl") = Ok true)).
Proof.
  unfold checkWebGL.
  destruct (has_WebGLRenderingContext e);
    [| split; [discriminate | intros [H _]; discriminate]].
  destruct (getContext e (lit "webgl")) as [[|]|e1].
  - split; [intros _; split; [reflexivity | left; reflexivity] | reflexivity].
  - destruct (getContext e (lit "experimental-webgl")) as [[|]|e2]; cbn [fst].
    + split; [intros _; split; [reflexivity | right; split; reflexivity] | reflexivity].
    + split; [discriminate | intros [_ [H | [_ H]]]; discriminate].
    + split; [discriminate | intros [_ [H | [_ H]]]; discriminate].
  - split; [discriminate | intros [_ [H | [H _]]]; discriminate].
Qed.

(** A row of the network panel, and a line of the report, for a field and
    the text of its value. *)
Lemma row_in_panel (values : list (list N)) (key : string) (pl v : list N) :
  In ((key, pl), v) (combine network_rows values) ->
  includes (networkHtml values) (row pl v) = true.
Proof.
  intros H. unfold networkHtml. apply includes_app_l, includes_concat.
  apply in_map_iff. exists ((key, pl), v). split; [reflexivity | exact H].
Qed.

Lemma geo_field_value (labels : list (string * list N)) (key : string)
    (l u c e d r : list N) :
  map fst labels = map fst network_rows ->
  In key geo_fields -> In (key, l) labels ->
  In ((key, l), u) (combine labels [u; u; u; u; u; u; c; e; d; r]).
Proof.
  intros Hl Hk H.
  do 10 (destruct labels as [|[? ?] labels]; [discriminate |]).
  destruct labels; [| discriminate].
  unfold network_rows in Hl. cbn [map fst] in Hl.
  injection Hl as -> -> -> -> -> -> -> -> -> ->.
  unfold geo_fields in Hk. cbn [combine].
  cbn [In] in Hk.
  repeat (destruct Hk as [Hk | Hk]; [subst key |]); [.. | contradiction];
    cbn [In] in H;
    repeat (destruct H as [H | H]; [inversion H; subst; clear H |]);
    try contradiction; cbn [In]; tauto.
Qed.

Section ReportProperties.

Context {number : Type}.
Variable number_truthy : number -> bool.
Variable number_ge8 : number -> bool.
Variable number_toString : number -> list N.
Variable number_one : number.

Local Abbreviation gather :=
  (gatherSystemInfo number number_truthy number_ge8 number_toString number_one).
Local Abbreviation text_of := (toString number number_toString).
Local Abbreviation system := (getSystemInfo number number_truthy number_ge8 number_toString).
Local Abbreviation network := (call_getNetworkInfo number number_truthy number_toString).

(** The number of cores is a number or the text [Unknown]: it always has a
    text. *)
Lemma cores_text (nav : navigator number) :
  exists t, text_of (si_cores number (system nav)) = Ok t.
Proof.
  unfold getSystemInfo. cbn [si_cores].
  destruct (hardwareConcurrency number nav) as [n|]; [| eexists; reflexivity].
  unfold or_else. destruct (truthy number number_truthy (JNum n));
    eexists; reflexivity.
Qed.


Lemma with_unit_text (x : option number) (suffix : list N) :
  exists t, with_unit number number_truthy number_toString x suffix = JStr t.
Proof.
  unfold with_unit. destruct x as [n|]; [| eexists; reflexivity].
  destruct (number_truthy n); eexists; reflexivity.
Qed.

(** With both services down the ten network fields read, in the order of the
    panel: undefined six times, then the four texts of the connection. *)
Lemma getNetworkInfo_offline_texts (nav : navigator number)
    (fetch : list N -> outcome (response number)) (e1 e2 : error) :
  fetch geojs = Throw e1 -> fetch ipify = Throw e2 ->
  exists i c e d r,
    fst (network nav fetch) = Ok i
    /\ network_texts number number_toString i
       = Ok [lit "undefined"; lit "undefined"; lit "undefined"; lit "undefined";
             lit "undefined"; lit "undefined"; c; e; d; r].
Proof.
  intros H1 H2.
  unfold call_getNetworkInfo, getNetworkInfo, bind, try_catch, lift, gets,
    modify, assign, console_error, get_prop, ret, throw; simpl.
  rewrite H1; simpl. rewrite H2; simpl.
  destruct (connection nav) as [c|]; simpl.
  - destruct (with_unit_text (c_downlink number c) (lit " Mbps")) as [d Hd].
    destruct (with_unit_text (c_rtt number c) (lit " ms")) as [r Hr].
    eexists _, _, _, d, r. split; [reflexivity |].
    unfold network_texts, network_rows. cbn [map fst texts].
    unfold read.
    repeat first
      [ rewrite lookup_insert_eq
      | rewrite lookup_insert_ne by discriminate
      | rewrite lookup_empty ].
    rewrite Hd, Hr. reflexivity.
  - eexists _, _, _, _, _. split; [reflexivity |].
    unfold network_texts, network_rows. cbn [map fst texts].
    unfold read.
    repeat first
      [ rewrite lookup_insert_eq
      | rewrite lookup_insert_ne by discriminate
      | rewrite lookup_empty ].
    reflexivity.
Qed.


Ltac run_page :=
  cbv beta iota delta
    [displayInfo updateTextarea generateTextReport downloadData bind lift gets
     modify ret throw set_panel on_board showMessage systemData panels
     downloads the_board sd_browser sd_system sd_screen sd_network sd_features].

Ltac panel_lookup :=
  repeat first
    [ rewrite lookup_insert_eq
    | rewrite lookup_insert_ne by discriminate ].

Lemma line_in_report (now : Date) (href : list N) (info : SystemData number)
    (cores : list N) (values : list (list N)) (key : string) (rl v : list N) :
  In ((key, rl), v) (combine report_network_labels values) ->
  includes (concat (report_lines number number_toString now href info cores values))
    (line rl v) = true.
Proof.
  intros H. apply includes_concat. unfold report_lines.
  apply in_or_app; right. apply in_or_app; left.
  unfold report_network. apply in_map_iff.
  exists ((key, rl), v). split; [reflexivity | exact H].
Qed.

(** X25. With both services down the collection completes, and for each of the six
    fields of the geolocation service the network panel and the exported
    report show the text [undefined] after the label of the field. *)
Theorem gatherSystemInfo_offline (nav : navigator number) (scr : screen_env number)
    (feat : feature_env) (fetch : list N -> outcome (response number))
    (e1 e2 : error) (now : Date) (href : list N) (a : UserInfoApp number) :
  fetch geojs = Throw e1 -> fetch ipify = Throw e2 ->
  exists a' html,
    gather nav scr feat fetch now href a = (Ok tt, a')
    /\ panels a' !! "network-info"%string = Some html
    /\ forall key pl rl,
         In key geo_fields -> In (key, pl) network_rows ->
         In (key, rl) report_network_labels ->
         includes html (row pl (lit "undefined")) = true
         /\ includes (textareaValue (the_board a')) (line rl (lit "undefined"))
            = true.
Proof.
  intros H1 H2.
  destruct (getNetworkInfo_offline_texts nav fetch e1 e2 H1 H2)
    as (i & c & e & d & r & Hi & Ht).
  destruct (cores_text nav) as [cores Hc].
  unfold gatherSystemInfo. rewrite Hi. run_page. rewrite Hc, Ht.
  eexists _, _. split; [reflexivity |]. cbn [panels the_board textareaValue].
  split; [panel_lookup; reflexivity |].
  intros key pl rl Hk Hpl Hrl. split.
  - apply (row_in_panel _ key). now apply geo_field_value.
  - apply (line_in_report _ _ _ _ _ key). now apply geo_field_value.
Qed.


Local Abbreviation download := (downloadData number number_toString).
Local Abbreviation report := (generateTextReport number number_toString).

(** With both services down the collection completes. *)
Lemma gatherSystemInfo_offline_completes (nav : navigator number)
    (scr : screen_env number) (feat : feature_env)
    (fetch : list N -> outcome (response number)) (e1 e2 : error) (now : Date)
    (href : list N) (a : UserInfoApp number) :
  fetch geojs = Throw e1 -> fetch ipify = Throw e2 ->
  exists a', gather nav scr feat fetch now href a = (Ok tt, a').
Proof.
  intros H1 H2.
  destruct (getNetworkInfo_offline_texts nav fetch e1 e2 H1 H2)
    as (i & c & e & d & r & Hi & Ht).
  destruct (cores_text nav) as [cores Hc].
  unfold gatherSystemInfo. rewrite Hi. run_page. rewrite Hc, Ht.
  eexists. reflexivity.
Qed.

(** X27. The buttons are wired before the collection is done.  Until
    [systemData] is set, making the report throws a TypeError; [downloadData]
    stops there: no file, no message, nothing on the page changes. *)
Theorem downloadData_before_data (now file_now : Date) (href : list N)
    (a : UserInfoApp number) :
  systemData a = None ->
  report now href a = (Throw TypeError, a)
  /\ download now file_now href a = (Throw TypeError, a).
Proof.
  intros H. cbv beta iota delta [downloadData generateTextReport bind gets].
  rewrite H. split; reflexivity.
Qed.

(** X28. After a collection that completed, a download succeeds: the file holds
    the text of the export text area when both reports are made at the same
    instant, its name is the one built from the time of the click, the success
    message is shown and the panels are left alone. *)
Theorem download_matches_textarea (nav : navigator number)
    (scr : screen_env number) (feat : feature_env)
    (fetch : list N -> outcome (response number)) (now file_now : Date)
    (href : list N) (a a' : UserInfoApp number) :
  gather nav scr feat fetch now href a = (Ok tt, a') ->
  exists a'',
    download now file_now href a' = (Ok tt, a'')
    /\ downloads a''
       = downloads a
           ++ [(download_filename file_now, textareaValue (the_board a'))]
    /\ messageText (the_board a'') = downloaded
    /\ panels a'' = panels a'.
Proof.
  destruct (getNetworkInfo_returns number_truthy number_toString nav fetch)
    as [i Hi].
  unfold gatherSystemInfo. rewrite Hi. run_page.
  destruct (toString number number_toString (si_cores number (system nav)))
    as [cores|e] eqn:Hc; [| discriminate].
  destruct (network_texts number number_toString i) as [values|e] eqn:Hv;
    [| discriminate].
  intros H. injection H as <-. run_page. rewrite Hc, Hv.
  eexists. repeat split.
Qed.

(** X26. An answer of the primary service whose [ip] is an object with a property
    named [toString] is stored as it is (an object is truthy), and cannot be
    converted to text: [displayInfo] throws a TypeError after the browser, the
    system and the screen panels are written.  The network and the features
    panels keep what they had, [systemData] is not set and the export text
    area is not filled. *)
Theorem gatherSystemInfo_hostile_answer (nav : navigator number)
    (scr : screen_env number) (feat : feature_env)
    (fetch : list N -> outcome (response number)) (r : response number)
    (props q : list (list N * jsval number)) (now : Date) (href : list N)
    (a : UserInfoApp number) :
  fetch geojs = Ok r ->
  json r = Ok (JObj props) ->
  own_property props (lit "ip") = JObj q ->
  existsb (fun kv => str_eqb (fst kv) (lit "toString")) q = true ->
  exists a',
    gather nav scr feat fetch now href a = (Throw TypeError, a')
    /\ systemData a' = systemData a
    /\ the_board a' = the_board a
    /\ panels a' !! "screen-info"%string
       = Some (screenHtml number number_toString
                 (getScreenInfo number number_truthy number_toString number_one scr))
    /\ panels a' !! "network-info"%string = panels a !! "network-info"%string
    /\ panels a' !! "features-info"%string = panels a !! "features-info"%string.
Proof.
  intros Hf Hj Hip Hq.
  destruct (getNetworkInfo_primary number_truthy number_toString nav fetch r props
              Hf Hj) as (i & Hi & Hread & _).
  destruct (cores_text nav) as [cores Hc].
  assert (Hv : network_texts number number_toString i = Throw TypeError).
  { unfold network_texts, network_rows. cbn [map fst texts].
    rewrite Hread, Hip. unfold or_else. cbn [truthy toString]. now rewrite Hq. }
  unfold gatherSystemInfo. rewrite Hi. run_page. rewrite Hc, Hv.
  eexists. split; [reflexivity |]. cbn [systemData the_board panels].
  repeat split; panel_lookup; reflexivity.
Qed.

Lemma row_text (label value : list N) :
  includes (row label value)
    (lit "<p><strong>" ++ label ++ lit "</strong> " ++ value ++ lit "</p>") = true.
Proof.
  unfold row.
  rewrite <- (app_nil_r (lit "<p><strong>" ++ label ++ lit "</strong> " ++ value
                           ++ lit "</p>")) at 1.
  apply includes_true_intro.
Qed.

(** X24. Whatever the collection ends with, the browser panel is written, and its
    markup holds the user agent as it is, not escaped. *)
Theorem displayInfo_user_agent_verbatim (nav : navigator number)
    (scr : screen_env number) (feat : feature_env)
    (fetch : list N -> outcome (response number)) (now : Date) (href : list N)
    (a : UserInfoApp number) :
  exists html,
    panels (snd (gather nav scr feat fetch now href a)) !! "browser-info"%string
    = Some html
    /\ includes html
         (lit "<p><strong>User Agent:</strong> " ++ userAgent nav ++ lit "</p>")
       = true.
Proof.
  exists (browserHtml (getBrowserInfo nav)). split.
  - destruct (getNetworkInfo_returns number_truthy number_toString nav fetch)
      as [i Hi].
    unfold gatherSystemInfo. rewrite Hi. run_page.
    destruct (toString number number_toString (si_cores number (system nav)));
      [destruct (network_texts number number_toString i) |];
      cbn [snd panels]; panel_lookup; reflexivity.
  - apply includes_trans with (p := row (lit "User Agent:") (userAgent nav)).
    + apply includes_concat. unfold getBrowserInfo. cbn [bi_userAgent In]. tauto.
    + apply (row_text (lit "User Agent:")).
Qed.

(** X23. The pixel ratio reported is never falsy (zero or NaN): a missing or falsy
    [devicePixelRatio] is replaced by 1. *)
Theorem pixelRatio_truthy (scr : screen_env number) :
  number_truthy number_one = true ->
  number_truthy
    (sc_pixelRatio number
       (getScreenInfo number number_truthy number_toString number_one scr)) = true.
Proof.
  intros H. unfold getScreenInfo. cbn [sc_pixelRatio].
  destruct (devicePixelRatio number scr) as [x|]; [| exact H].
  destruct (number_truthy x) eqn:E; [exact E | exact H].
Qed.

End ReportProperties.

Lemma gatherSystemInfo_offline_witness :
  exists a' html,
    gatherSystemInfo N dec_truthy dec_ge8 dec_toString 1
      (nav_of (lit "curl/8.4.0")) a_screen some_features offline a_date
      (lit "https://example.org/") empty_app = (Ok tt, a')
    /\ panels a' !! "network-info"%string = Some html
    /\ includes html (row (lit "IP:") (lit "undefined")) = true
    /\ includes (textareaValue (the_board a')) (line (lit "IP: ") (lit "undefined"))
       = true.
Proof.
  destruct (gatherSystemInfo_offline dec_truthy dec_ge8 dec_toString 1
              (nav_of (lit "curl/8.4.0")) a_screen some_features offline
              NetworkError NetworkError a_date (lit "https://example.org/")
              empty_app eq_refl eq_refl) as (a' & html & H1 & H2 & H3).
  exists a', html. split; [exact H1 |]. split; [exact H2 |].
  exact (H3 "ip"%string (lit "IP:") (lit "IP: ")
           (or_introl eq_refl) (or_introl eq_refl) (or_introl eq_refl)).
Defined.

Lemma downloadData_before_data_witness :
  downloadData N dec_toString a_date a_date (lit "https://example.org/") empty_app
  = (Throw TypeError, empty_app).
Proof.
  exact (proj2 (downloadData_before_data dec_toString a_date a_date
                  (lit "https://example.org/") empty_app eq_refl)).
Defined.

Lemma download_matches_textarea_witness :
  exists a' a'',
    gatherSystemInfo N dec_truthy dec_ge8 dec_toString 1
      (nav_of (lit "curl/8.4.0")) a_screen some_features offline a_date
      (lit "https://example.org/") empty_app = (Ok tt, a')
    /\ downloadData N dec_toString a_date a_date (lit "https://example.org/") a'
       = (Ok tt, a'')
    /\ downloads a''
       = [(download_filename a_date, textareaValue (the_board a'))].
Proof.
  destruct (gatherSystemInfo_offline_completes dec_truthy dec_ge8 dec_toString 1
              (nav_of (lit "curl/8.4.0")) a_screen some_features offline
              NetworkError NetworkError a_date (lit "https://example.org/")
              empty_app eq_refl eq_refl) as [a' Ha].
  destruct (download_matches_textarea dec_truthy dec_ge8 dec_toString 1
              _ _ _ _ a_date a_date _ _ a' Ha) as (a'' & H1 & H2 & _).
  exists a', a''. split; [exact Ha |]. split; [exact H1 | exact H2].
Defined.

Lemma gatherSystemInfo_hostile_answer_witness :
  exists a',
    gatherSystemInfo N dec_truthy dec_ge8 dec_toString 1
      (nav_of (lit "curl/8.4.0")) a_screen some_features odd_geojs a_date
      (lit "https://example.org/") empty_app = (Throw TypeError, a')
    /\ systemData a' = None.
Proof.
  destruct (gatherSystemInfo_hostile_answer dec_truthy dec_ge8 dec_toString 1
              (nav_of (lit "curl/8.4.0")) a_screen some_features odd_geojs
              {| json := Ok (JObj [(lit "ip", JObj [(lit "toString", JNull)])]) |}
              [(lit "ip", JObj [(lit "toString", JNull)])]
              [(lit "toString", JNull)] a_date (lit "https://example.org/")
              empty_app eq_refl eq_refl eq_refl eq_refl)
    as (a' & H1 & H2 & _).
  exists a'. split; [exact H1 | exact H2].
Defined.

Lemma pixelRatio_truthy_witness :
  dec_truthy
    (sc_pixelRatio N (getScreenInfo N dec_truthy dec_toString 1 a_screen)) = true.
Proof.
  exact (pixelRatio_truthy dec_truthy dec_toString 1 a_screen eq_refl).
Defined.

(** ** The paragraph rule and the rules before it *)































